(** * ExcelJS cell model (lib/cell.js)

    A shallow embedding of the [Cell] handle and of its seven [Value]
    variants.  JavaScript objects live in an explicit store: cells are
    referenced by their index in [cells], plain objects (value models,
    style records, payload records) by their index in [heap].  Every
    method is a state transformer that either returns, or throws and
    keeps the store as it was at the moment of the throw.  Where a call
    leaves the shapes this development has (an Array in place of a
    Value, a Cell as the snapshot of a Value, a property on a String or
    Date object, a number too large to be written out digit by digit),
    the transformer stops with [Unsupported] and says nothing of what
    follows. *)

From Stdlib Require Import ZArith String Ascii List Lia DecimalString.
From stdpp Require Import base option list gmap strings.

Open Scope Z_scope.
Open Scope string_scope.

(** ** Type tags *)

Module Types.
(** Modelled from the spec: the type-tag enumeration [Enums.ValueType]
    (lib/enums.js is not part of the sources).  The spec fixes it as a
    closed set of seven constants. *)
Inductive ValueType :=
| Null | Number | String | Date | Hyperlink | Formula | Merge.

Definition eqb (a b : ValueType) : bool :=
  match a, b with
  | Null, Null | Number, Number | String, String | Date, Date
  | Hyperlink, Hyperlink | Formula, Formula | Merge, Merge => true
  | _, _ => false
  end.

Lemma eqb_eq a b : eqb a b = true <-> a = b.
Proof. destruct a, b; simpl; split; congruence. Qed.

Lemma eqb_refl a : eqb a a = true.
Proof. by destruct a. Qed.
End Types.

#[global] Instance ValueType_eq_dec : EqDecision Types.ValueType.
Proof. solve_decision. Defined.

(** ** JavaScript values *)

Abbreviation loc := nat (only parsing).   (* reference to a plain object *)
Abbreviation cref := nat (only parsing).  (* reference to a Cell instance *)

(** Numbers are the integer-valued ones; fractions, infinities and NaN
    are outside the model.  Up to [2 ^ 53] in magnitude an integer is the
    double of that value and is written out digit by digit; larger
    numbers are never written out here.  A Date carries its time value,
    [None] when that is NaN (an invalid Date).  The constants of the tag
    enumeration are not among these values: a tag occurs only as the
    [type] of an object. *)
Inductive val :=
| VUndefined
| VNull
| VBool (b : bool)
| VNum (n : Z)
| VStr (s : string)
| VStrObj (s : string)      (* new String(s) *)
| VDate (t : option Z)      (* a Date, as milliseconds since the epoch *)
| VObj (l : loc)
| VCell (c : cref).

#[global] Instance val_eq_dec : EqDecision val.
Proof. solve_decision. Defined.

(** ToBoolean *)
Definition truthy (v : val) : bool :=
  match v with
  | VUndefined | VNull => false
  | VBool b => b
  | VNum n => negb (Z.eqb n 0)
  | VStr s => negb (String.eqb s "")
  | VStrObj _ | VDate _ | VObj _ | VCell _ => true
  end.

(** A plain object.  The [type] property holds a value of the tag
    enumeration, which is not available; a tag is kept apart from the
    other properties: [o_type] is [Some t] when the property holds tag
    [t], and [None] when it is missing or holds anything that is not one
    of the seven tags, in which case it is found in [o_props] like any
    other property. *)
Record obj := Obj {
  o_type : option Types.ValueType;
  o_props : gmap string val
}.

Definition empty_obj : obj := Obj None ∅.

(** ** Cells and values *)

(** A Value instance: its prototype ([vtype], what the [type] getter
    answers), its own [model] property and, for a MergeValue, [_master]
    ([None] is [undefined]). *)
Record Value := MkValue {
  vtype : Types.ValueType;
  model : loc;
  _master : option cref
}.

Record Cell := MkCell {
  _row : val;
  _col : val;
  _address : string;
  _value : Value;
  style : val;
  _mergeCount : Z
}.

Record state := MkState {
  cells : list Cell;
  heap : list obj
}.

Definition empty_state : state := MkState [] [].

(** ** Outcomes *)

Inductive error :=
| MissingOwner            (* "A Cell needs a Row" *)
| InvalidAddress          (* thrown by colCache.validateAddress *)
| UnrecognizedType        (* "I could not understand type of value" *)
| UnknownValueType        (* "Could not create Value of type ..." *)
| UnsupportedResultType   (* "Cannot process that type of result value" *)
| TypeError               (* property access on undefined / null, [new] on
                             what is not a constructor *)
| RangeError.             (* [toISOString] on an invalid Date *)

(** [Throw] carries the store at the time of the throw: nothing is rolled
    back.  [OutOfFuel] is a call depth beyond the given bound,
    [NoSuchCell] a cell reference that is not in the store, and
    [Unsupported] a call whose effect is none of the shapes of this
    development: it neither returns nor throws here. *)
Inductive outcome (A : Type) :=
| Ok (a : A) (s : state)
| Throw (e : error) (s : state)
| OutOfFuel
| NoSuchCell
| Unsupported.
Arguments Ok {A} a s.
Arguments Throw {A} e s.
Arguments OutOfFuel {A}.
Arguments NoSuchCell {A}.
Arguments Unsupported {A}.

Definition M (A : Type) : Type := state -> outcome A.

Definition ret {A} (a : A) : M A := fun s => Ok a s.

Definition bind {A B} (m : M A) (k : A -> M B) : M B :=
  fun s =>
    match m s with
    | Ok a s' => k a s'
    | Throw e s' => Throw e s'
    | OutOfFuel => OutOfFuel
    | NoSuchCell => NoSuchCell
    | Unsupported => Unsupported
    end.

Definition throw {A} (e : error) : M A := fun s => Throw e s.

Definition unsupported {A} : M A := fun _ => Unsupported.

Declare Scope js_scope.
Delimit Scope js_scope with js.
Notation "x <- m ;; k" := (bind m (fun x => k))
  (at level 100, m at next level, right associativity) : js_scope.
Notation "m ;; k" := (bind m (fun _ => k))
  (at level 100, right associativity) : js_scope.
Open Scope js_scope.

(** *** Store access *)

Definition get_obj (l : loc) (s : state) : obj :=
  default empty_obj (heap s !! l).

(** [o.k] for a plain object: a missing property reads as [undefined]. *)
Definition read_prop (l : loc) (k : string) (s : state) : val :=
  default VUndefined (o_props (get_obj l s) !! k).

Definition read_type (l : loc) (s : state) : option Types.ValueType :=
  o_type (get_obj l s).

(** [o.type], as the factory receives it: a tag, or any other value. *)
Inductive key :=
| Tag (t : Types.ValueType)
| Other (v : val).

Definition read_key (l : loc) (s : state) : key :=
  match read_type l s with
  | Some t => Tag t
  | None => Other (read_prop l "type" s)
  end.

(** The string of a plain object, as a property key or an operand of
    [ +] needs it: [valueOf] is the inherited one, which hands back the
    object, so [toString] is asked; the inherited one is hidden by a
    property of the object's own, and no value it can hold here is a
    function. *)
Definition object_to_string (l : loc) : M string :=
  fun s => match o_props (get_obj l s) !! "toString" with
           | Some _ => Throw TypeError s
           | None => Ok "[object Object]" s
           end.

(** [new Object] / an object literal *)
Definition alloc (o : obj) : M loc :=
  fun s => Ok (length (heap s)) (MkState (cells s) (heap s ++ [o])).

(** [o.k = v].  No [v] is a tag, nor the name of a slot the table of
    constructors fills at a tag: a write to [type] leaves the object
    without a tag. *)
Definition write_prop (l : loc) (k : string) (v : val) : M unit :=
  fun s =>
    let o := get_obj l s in
    Ok tt (MkState (cells s)
                   (<[l := Obj (if String.eqb k "type" then None else o_type o)
                               (<[k := v]> (o_props o))]> (heap s))).

Definition get_cell (c : cref) : M Cell :=
  fun s => match cells s !! c with
           | Some x => Ok x s
           | None => NoSuchCell
           end.

Definition upd_cell (c : cref) (f : Cell -> Cell) : M unit :=
  fun s => match cells s !! c with
           | Some x => Ok tt (MkState (<[c := f x]> (cells s)) (heap s))
           | None => NoSuchCell
           end.

Definition set__value (v : Value) (x : Cell) : Cell :=
  MkCell (_row x) (_col x) (_address x) v (style x) (_mergeCount x).
Definition set_style (v : val) (x : Cell) : Cell :=
  MkCell (_row x) (_col x) (_address x) (_value x) v (_mergeCount x).
Definition set__mergeCount (n : Z) (x : Cell) : Cell :=
  MkCell (_row x) (_col x) (_address x) (_value x) (style x) n.
Definition set__row (v : val) (x : Cell) : Cell :=
  MkCell v (_col x) (_address x) (_value x) (style x) (_mergeCount x).
Definition set__col (v : val) (x : Cell) : Cell :=
  MkCell (_row x) v (_address x) (_value x) (style x) (_mergeCount x).

(** ** Regular expressions

    The four patterns of the file use only literals, character classes
    with a greedy bounded or unbounded repetition, sequencing and a greedy
    optional group.  [rmatch] is the backtracking matcher of the
    JavaScript engine for this fragment, in continuation-passing style:
    the first alternative tried is the one the engine tries first. *)

Inductive regex :=
| Lit (c : ascii)
| Class (p : ascii -> bool) (lo : nat) (hi : option nat)
| Seq (r1 r2 : regex)
| Opt (r : regex).

Definition optOr {A} (a b : option A) : option A :=
  match a with Some x => Some x | None => b end.

(** Greedy repetition of a class, at least [lo] and at most [hi] times. *)
Fixpoint rep {A} (p : ascii -> bool) (lo hi : nat) (s : list ascii)
    (k : list ascii -> option A) : option A :=
  let stop := if Nat.eqb lo 0 then k s else None in
  match hi, s with
  | S hi', c :: s' =>
      if p c then optOr (rep p (Nat.pred lo) hi' s' k) stop else stop
  | _, _ => stop
  end.

Fixpoint rmatch {A} (r : regex) (s : list ascii)
    (k : list ascii -> option A) : option A :=
  match r with
  | Lit c =>
      match s with
      | c' :: s' => if Ascii.eqb c c' then k s' else None
      | [] => None
      end
  | Class p lo hi => rep p lo (default (length s) hi) s k
  | Seq r1 r2 => rmatch r1 s (fun s' => rmatch r2 s' k)
  | Opt r1 => optOr (rmatch r1 s k) (k s)
  end.

(** One attempt at the current position: the text left after the match. *)
Definition match_here (r : regex) (s : list ascii) : option (list ascii) :=
  rmatch r s Some.

Definition matched (s rest : list ascii) : list ascii :=
  take (length s - length rest)%nat s.

(** [exec] without the [g] flag: the leftmost match. *)
Fixpoint match_first (r : regex) (s : list ascii) : option (list ascii) :=
  match match_here r s with
  | Some rest => Some (matched s rest)
  | None => match s with
            | [] => None
            | _ :: s' => match_first r s'
            end
  end.

(** The scan of [match] and [replace] with the [g] flag.  It yields the
    successive matches and the text between them; after an empty match
    the engine steps over one character. *)
Fixpoint scan (fuel : nat) (r : regex) (s : list ascii)
    : list (list ascii) * list ascii :=
  match fuel with
  | O => ([], s)
  | S fuel' =>
      match match_here r s with
      | Some rest =>
          if (length rest <? length s)%nat then
            let '(ms, keep) := scan fuel' r rest in
            (matched s rest :: ms, keep)
          else
            match s with
            | [] => ([ [] ], [])
            | c :: s' =>
                let '(ms, keep) := scan fuel' r s' in ([] :: ms, c :: keep)
            end
      | None =>
          match s with
          | [] => ([], [])
          | c :: s' =>
              let '(ms, keep) := scan fuel' r s' in (ms, c :: keep)
          end
      end
  end.

Definition match_all (r : regex) (s : list ascii) : list (list ascii) :=
  fst (scan (S (length s)) r s).

(** [s.replace(r, "")] with the [g] flag *)
Definition remove_all (r : regex) (s : list ascii) : list ascii :=
  snd (scan (S (length s)) r s).

(** [s.match(r)] with the [g] flag: [null] (here [None]) when nothing
    matches, never an empty array. *)
Definition js_match_g (r : regex) (s : string) : option (list string) :=
  match match_all r (list_ascii_of_string s) with
  | [] => None
  | ms => Some (map string_of_list_ascii ms)
  end.

Definition js_replace_g_empty (r : regex) (s : string) : string :=
  string_of_list_ascii (remove_all r (list_ascii_of_string s)).

Definition is_upper (c : ascii) : bool :=
  let n := nat_of_ascii c in ((65 <=? n) && (n <=? 90))%nat.
Definition is_lower (c : ascii) : bool :=
  let n := nat_of_ascii c in ((97 <=? n) && (n <=? 122))%nat.
Definition is_digit (c : ascii) : bool :=
  let n := nat_of_ascii c in ((48 <=? n) && (n <=? 57))%nat.
Definition is_alnum (c : ascii) : bool :=
  is_lower c || is_upper c || is_digit c.

(** [/\d+/] *)
Definition re_digits : regex := Class is_digit 1 None.
(** [/[A-Z]+/] *)
Definition re_letters : regex := Class is_upper 1 None.
(** [/([a-zA-Z0-9]+!)?[A-Z]{1,3}\d{1,4}/] *)
Definition re_cell : regex :=
  Seq (Opt (Seq (Class is_alnum 1 None) (Lit "!")))
      (Seq (Class is_upper 1 (Some 3%nat)) (Class is_digit 1 (Some 4%nat))).
(** [/([a-zA-Z0-9]+!)?[A-Z]{1,3}\d{1,4}:[A-Z]{1,3}\d{1,4}/] *)
Definition re_range : regex :=
  Seq (Opt (Seq (Class is_alnum 1 None) (Lit "!")))
      (Seq (Class is_upper 1 (Some 3%nat))
           (Seq (Class is_digit 1 (Some 4%nat))
                (Seq (Lit ":")
                     (Seq (Class is_upper 1 (Some 3%nat))
                          (Class is_digit 1 (Some 4%nat)))))).

(** The double-quote character (code 34). *)
Definition dquote : ascii := Eval cbv in ascii_of_nat 34.

(** [s.replace(/Q/g, QQ)] where Q is the double-quote character *)
Fixpoint double_quotes (s : string) : string :=
  match s with
  | EmptyString => EmptyString
  | String.String c s' =>
      if Ascii.eqb c dquote
      then String.String dquote (String.String dquote (double_quotes s'))
      else String.String c (double_quotes s')
  end.

(** ** Value: static functions and the seven variants *)

(** The four properties the file reads off a payload. *)
Inductive pkey := Ktext | Khyperlink | Kformula | Kresult.

Definition pkey_name (k : pkey) : string :=
  match k with
  | Ktext => "text" | Khyperlink => "hyperlink"
  | Kformula => "formula" | Kresult => "result"
  end.

(** [Cell.prototype.hyperlink]: only a HyperlinkValue has the property. *)
Definition hyperlink (c : cref) : M val :=
  x <- get_cell c ;;
  match vtype (_value x) with
  | Types.Hyperlink =>
      fun s => Ok (read_prop (model (_value x)) "hyperlink" s) s
  | _ => ret VUndefined
  end.

(** [v.k] for a payload [v].  Primitives, String and Date objects have
    none of the four properties; a Cell has the [hyperlink] getter. *)
Definition get_prop (v : val) (k : pkey) : M val :=
  match v with
  | VUndefined | VNull => throw TypeError
  | VObj l => fun s => Ok (read_prop l (pkey_name k) s) s
  | VCell c => match k with
               | Khyperlink => hyperlink c
               | _ => ret VUndefined
               end
  | _ => ret VUndefined
  end.

Module Value.

Definition getType (value : val) : M Types.ValueType :=
  match value with
  | VNull | VUndefined => ret Types.Null
  | VStrObj _ | VStr _ => ret Types.String
  | VNum _ => ret Types.Number
  | VDate _ => ret Types.Date
  | _ =>
      let formula_or_fail :=
        f <- get_prop value Kformula ;;
        if truthy f then ret Types.Formula else throw UnrecognizedType in
      t <- get_prop value Ktext ;;
      if truthy t then
        h <- get_prop value Khyperlink ;;
        if truthy h then ret Types.Hyperlink else formula_or_fail
      else formula_or_fail
  end.

End Value.

Definition address_of (c : cref) : M string :=
  x <- get_cell c ;; ret (_address x).

Definition addMergeRef (c : cref) : M unit :=
  upd_cell c (fun x => set__mergeCount (_mergeCount x + 1) x).

Definition releaseMergeRef (c : cref) : M unit :=
  upd_cell c (fun x => set__mergeCount (_mergeCount x - 1) x).

Definition NullValue (cell : cref) : M Value :=
  a <- address_of cell ;;
  l <- alloc (Obj (Some Types.Null) {[ "address" := VStr a ]}) ;;
  ret (MkValue Types.Null l None).

(** Number, String and Date values have the same shape. *)
Definition ScalarValue (t : Types.ValueType) (cell : cref) (value : val)
    : M Value :=
  a <- address_of cell ;;
  l <- alloc (Obj (Some t)
                  (<[ "value" := value ]> {[ "address" := VStr a ]})) ;;
  ret (MkValue t l None).

Definition NumberValue := ScalarValue Types.Number.
Definition StringValue := ScalarValue Types.String.
Definition DateValue := ScalarValue Types.Date.

(** [value ? value.k : undefined] *)
Definition prop_or_undefined (value : val) (k : pkey) : M val :=
  if truthy value then get_prop value k else ret VUndefined.

Definition HyperlinkValue (cell : cref) (value : val) : M Value :=
  a <- address_of cell ;;
  t <- prop_or_undefined value Ktext ;;
  h <- prop_or_undefined value Khyperlink ;;
  l <- alloc (Obj (Some Types.Hyperlink)
                  (<[ "hyperlink" := h ]>
                     (<[ "text" := t ]> {[ "address" := VStr a ]}))) ;;
  ret (MkValue Types.Hyperlink l None).

(** The master is a Cell or [undefined]: [Cell.prototype.merge] is the
    only caller that passes one, and the model import passes none.  Any
    other truthy argument fails at [master.addMergeRef()]; the falsy
    ones are not told apart from [undefined]. *)
Definition MergeValue (cell : cref) (master : val) : M Value :=
  a <- address_of cell ;;
  match master with
  | VCell m =>
      ma <- address_of m ;;
      l <- alloc (Obj (Some Types.Merge)
                      (<[ "master" := VStr ma ]> {[ "address" := VStr a ]})) ;;
      addMergeRef m ;;
      ret (MkValue Types.Merge l (Some m))
  | _ =>
      if truthy master then
        ma <- match master with
              | VObj o => fun s => Ok (read_prop o "address" s) s
              | _ => ret VUndefined
              end ;;
        l <- alloc (Obj (Some Types.Merge)
                        (<[ "master" := ma ]> {[ "address" := VStr a ]})) ;;
        throw TypeError
      else
        l <- alloc (Obj (Some Types.Merge)
                        (<[ "master" := VUndefined ]>
                           {[ "address" := VStr a ]})) ;;
        ret (MkValue Types.Merge l None)
  end.

Definition FormulaValue (cell : cref) (value : val) : M Value :=
  a <- address_of cell ;;
  f <- prop_or_undefined value Kformula ;;
  r <- prop_or_undefined value Kresult ;;
  l <- alloc (Obj (Some Types.Formula)
                  (<[ "result" := r ]>
                     (<[ "formula" := f ]> {[ "address" := VStr a ]}))) ;;
  ret (MkValue Types.Formula l None).

(** [Value.types] is an Array filled at the seven tags, so a lookup
    under any other key answers with what an Array inherits.  These are
    the names of the members of [Array.prototype] and [Object.prototype]
    other than [constructor]; [length] is the number of slots of the
    table, not 0, and none of them can be called with [new].  The names
    are those of ECMAScript 2023 and of its annex B; an engine of an
    earlier edition lacks the later ones. *)
Definition inherited_members : list string :=
  [ "length"; "at"; "concat"; "copyWithin"; "entries"; "every"; "fill";
    "filter"; "find"; "findIndex"; "findLast"; "findLastIndex"; "flat";
    "flatMap"; "forEach"; "includes"; "indexOf"; "join"; "keys";
    "lastIndexOf"; "map"; "pop"; "push"; "reduce"; "reduceRight";
    "reverse"; "shift"; "slice"; "some"; "sort"; "splice";
    "toLocaleString"; "toReversed"; "toSorted"; "toSpliced"; "toString";
    "unshift"; "values"; "with"; "hasOwnProperty"; "isPrototypeOf";
    "propertyIsEnumerable"; "valueOf"; "__proto__"; "__defineGetter__";
    "__defineSetter__"; "__lookupGetter__"; "__lookupSetter__" ].

Definition inherited (name : string) : bool :=
  existsb (String.eqb name) inherited_members.

(** [Value.create]: [Value.types[type]], the test of what was found, and
    [new t(cell, value)].  Under a tag the table has the constructor of
    the variant.  Any other value is looked up by its string: a string
    names [constructor], which is [Array] (the call then returns an
    Array, which is none of the variants), an inherited member, which is
    not a constructor (a TypeError), or nothing; the string of anything
    else, when it has one, names nothing. *)
Definition create (type : key) (cell : cref) (value : val) : M Value :=
  match type with
  | Tag Types.Null => NullValue cell
  | Tag Types.Number => NumberValue cell value
  | Tag Types.String => StringValue cell value
  | Tag Types.Date => DateValue cell value
  | Tag Types.Hyperlink => HyperlinkValue cell value
  | Tag Types.Formula => FormulaValue cell value
  | Tag Types.Merge => MergeValue cell value
  | Other (VStr name) | Other (VStrObj name) =>
      if String.eqb name "constructor" then unsupported
      else if inherited name then throw TypeError
      else throw UnknownValueType
  | Other (VObj l) => object_to_string l ;; throw UnknownValueType
  | Other _ => throw UnknownValueType
  end.

Arguments create : simpl never.

(** [release]: a no-op except for a MergeValue. *)
Definition release (v : Value) : M unit :=
  match vtype v with
  | Types.Merge =>
      match _master v with
      | Some m => releaseMergeRef m
      | None => throw TypeError
      end
  | _ => ret tt
  end.

(** ** Cell methods *)

Definition read (l : loc) (k : string) : M val :=
  fun s => Ok (read_prop l k s) s.

Definition type (c : cref) : M Types.ValueType :=
  x <- get_cell c ;; ret (vtype (_value x)).

Definition isMerged (c : cref) : M bool :=
  x <- get_cell c ;;
  ret ((0 <? _mergeCount x)%Z || Types.eqb (vtype (_value x)) Types.Merge).

Definition val_of_master (m : option cref) : val :=
  match m with Some a => VCell a | None => VUndefined end.

Definition merge (c : cref) (master : option cref) : M unit :=
  x <- get_cell c ;;
  release (_value x) ;;
  v <- create (Tag Types.Merge) c (val_of_master master) ;;
  upd_cell c (set__value v).

Definition unmerge (c : cref) : M unit :=
  x <- get_cell c ;;
  match vtype (_value x) with
  | Types.Merge =>
      release (_value x) ;;
      v <- create (Tag Types.Null) c VUndefined ;;
      upd_cell c (set__value v)
  | _ => ret tt
  end.

(** [master === this._master], where [_master] is a Cell or undefined *)
Definition same_master (master : val) (m : option cref) : bool :=
  match master, m with
  | VCell a, Some b => Nat.eqb a b
  | VUndefined, None => true
  | _, _ => false
  end.

Definition isMergedTo (c : cref) (master : val) : M bool :=
  x <- get_cell c ;;
  match vtype (_value x) with
  | Types.Merge => ret (same_master master (_master (_value x)))
  | _ => ret false
  end.

Definition master (c : cref) : M val :=
  x <- get_cell c ;;
  match vtype (_value x) with
  | Types.Merge => ret (val_of_master (_master (_value x)))
  | _ => ret (VCell c)
  end.

Definition isHyperlink (c : cref) : M bool :=
  x <- get_cell c ;; ret (Types.eqb (vtype (_value x)) Types.Hyperlink).

(** [cell.value].  A Hyperlink or Formula value answers with a fresh
    record; a Merge value asks its master, one call deeper. *)
Fixpoint get_value (fuel : nat) (c : cref) : M val :=
  match fuel with
  | O => fun _ => OutOfFuel
  | S fuel' =>
      x <- get_cell c ;;
      let v := _value x in
      match vtype v with
      | Types.Null => ret VNull
      | Types.Number | Types.String | Types.Date => read (model v) "value"
      | Types.Hyperlink =>
          t <- read (model v) "text" ;;
          h <- read (model v) "hyperlink" ;;
          l <- alloc (Obj None (<[ "hyperlink" := h ]> {[ "text" := t ]})) ;;
          ret (VObj l)
      | Types.Formula =>
          f <- read (model v) "formula" ;;
          r <- read (model v) "result" ;;
          l <- alloc (Obj None (<[ "result" := r ]> {[ "formula" := f ]})) ;;
          ret (VObj l)
      | Types.Merge =>
          match _master v with
          | Some m => get_value fuel' m
          | None => throw TypeError
          end
      end
  end.

(** [cell.value = v] *)
Fixpoint set_value (fuel : nat) (c : cref) (v : val) : M unit :=
  match fuel with
  | O => fun _ => OutOfFuel
  | S fuel' =>
      x <- get_cell c ;;
      match vtype (_value x) with
      | Types.Merge =>
          match _master (_value x) with
          | Some m => set_value fuel' m v
          | None => throw TypeError
          end
      | _ =>
          release (_value x) ;;
          t <- Value.getType v ;;
          nv <- create (Tag t) c v ;;
          upd_cell c (set__value nv)
      end
  end.

(** [cell._value.value = value]: the setter of the variant a cell holds.
    On a MergeValue a Cell re-targets the merge, anything else is handed
    to the master.  For a variant that is no longer held by a cell, see
    [MergeValue_set_value]. *)
Definition Value_set_value (fuel : nat) (c : cref) (value : val) : M unit :=
  x <- get_cell c ;;
  let v := _value x in
  match vtype v with
  | Types.Null => ret tt
  | Types.Number | Types.String | Types.Date =>
      write_prop (model v) "value" value
  | Types.Hyperlink =>
      t <- get_prop value Ktext ;;
      write_prop (model v) "text" t ;;
      h <- get_prop value Khyperlink ;;
      write_prop (model v) "hyperlink" h
  | Types.Formula =>
      f <- get_prop value Kformula ;;
      write_prop (model v) "formula" f ;;
      r <- get_prop value Kresult ;;
      write_prop (model v) "result" r
  | Types.Merge =>
      match value with
      | VCell n =>
          match _master v with
          | Some m => releaseMergeRef m
          | None => ret tt
          end ;;
          addMergeRef n ;;
          upd_cell c (fun y =>
            set__value (MkValue (vtype (_value y)) (model (_value y)) (Some n)) y)
      | _ =>
          match _master v with
          | Some m => set_value fuel m value
          | None => throw TypeError
          end
      end
  end.

(** [v.value = value] on a MergeValue [v] that the caller took from a
    cell ([v = cell._value]) and kept after the cell replaced it.  The
    variant is then in no cell: it is handed in, and handed back as the
    setter leaves it. *)
Definition MergeValue_set_value (fuel : nat) (v : Value) (value : val)
    : M Value :=
  match value with
  | VCell n =>
      match _master v with
      | Some m => releaseMergeRef m
      | None => ret tt
      end ;;
      addMergeRef n ;;
      ret (MkValue (vtype v) (model v) (Some n))
  | _ =>
      match _master v with
      | Some m => set_value fuel m value ;; ret v
      | None => throw TypeError
      end
  end.

(** [_upgradeToHyperlink].  The text is read from [this._value._value],
    a property no variant has (a StringValue keeps its payload in
    [model.value]), so it is [undefined]. *)
Definition _upgradeToHyperlink (c : cref) (link : val) : M unit :=
  x <- get_cell c ;;
  match vtype (_value x) with
  | Types.String =>
      o <- alloc (Obj None (<[ "hyperlink" := link ]> {[ "text" := VUndefined ]})) ;;
      v <- create (Tag Types.Hyperlink) c (VObj o) ;;
      upd_cell c (set__value v)
  | _ => ret tt
  end.

(** [cell.model] *)
Definition get_model (c : cref) : M loc :=
  x <- get_cell c ;;
  let m := model (_value x) in
  write_prop m "style" (style x) ;;
  ret m.

(** [cell.model = value].  The old value is released first; then
    [value.type] is read, which throws on [null] and [undefined] and is
    [undefined] on a primitive, a String or a Date object.  A Cell given
    as [value] has a [type], that of its own value, and becomes the
    snapshot of the new variant: a shape that is not modelled. *)
Definition set_model (c : cref) (value : val) : M unit :=
  x <- get_cell c ;;
  release (_value x) ;;
  match value with
  | VUndefined | VNull => throw TypeError
  | VObj m =>
      t <- (fun s => Ok (read_key m s) s) ;;
      v <- create t c VUndefined ;;
      upd_cell c (set__value v) ;;
      upd_cell c (fun y =>
        set__value (MkValue (vtype (_value y)) m (_master (_value y))) y) ;;
      st <- read m "style" ;;
      if truthy st then upd_cell c (set_style st)
      else
        l <- alloc empty_obj ;;
        upd_cell c (set_style (VObj l))
  | VCell _ => unsupported
  | _ => create (Other VUndefined) c VUndefined ;; unsupported
  end.

(** [parseInt] on a string of decimal digits *)
Definition digit_value (c : ascii) : Z := Z.of_nat (nat_of_ascii c) - 48.

Definition parseInt (ds : list ascii) : Z :=
  fold_left (fun n c => 10 * n + digit_value c) ds 0.

(** [FormulaValue.prototype.dependencies], on the formula text *)
Module Formula.
Record deps := Deps {
  ranges : option (list string);
  cells : option (list string)
}.

Definition dependencies_of (formula : string) : deps :=
  Deps (js_match_g re_range formula)
       (js_match_g re_cell (js_replace_g_empty re_range formula)).
End Formula.

(** The getter on a cell holding a FormulaValue: [this.formula] is
    [model.formula]; [match] exists on strings only. *)
Definition dependencies (c : cref) : M Formula.deps :=
  x <- get_cell c ;;
  f <- read (model (_value x)) "formula" ;;
  match f with
  | VStr s | VStrObj s => ret (Formula.dependencies_of s)
  | _ => throw TypeError
  end.

(** [FormulaValue.prototype.validate] *)
Definition validate (value : val) : M unit :=
  t <- Value.getType value ;;
  match t with
  | Types.Null | Types.String | Types.Number | Types.Date => ret tt
  | _ => throw UnsupportedResultType
  end.

Section Collaborators.

(** What the file takes from its environment: the address utilities of
    lib/colcache.js and the two Date conversions of the runtime. *)
Variable validateAddress : string -> bool.
Variable l2n : string -> Z.
Variable toISOString : Z -> string.
Variable dateToString : Z -> string.

(** The constructor.  The cell is entered in the store when its first
    fields are assigned; [_value], [style] and [_mergeCount] hold
    placeholders until their own assignments. *)
Definition new_Cell (row : val) (address : string) : M cref :=
  if negb (truthy row) then throw MissingOwner
  else if negb (validateAddress address) then throw InvalidAddress
  else
    c <- (fun s =>
            Ok (length (cells s))
               (MkState
                  (cells s ++
                     [MkCell row VUndefined address
                             (MkValue Types.Null 0%nat None) VUndefined 0])
                  (heap s))) ;;
    v <- create (Tag Types.Null) c VUndefined ;;
    upd_cell c (set__value v) ;;
    l <- alloc empty_obj ;;
    upd_cell c (set_style (VObj l)) ;;
    upd_cell c (set__mergeCount 0) ;;
    ret c.

(** [cell.row] *)
Definition row (c : cref) : M val :=
  x <- get_cell c ;;
  (if negb (truthy (_row x)) then
     match match_first re_digits (list_ascii_of_string (_address x)) with
     | Some ds => upd_cell c (set__row (VNum (parseInt ds)))
     | None => throw TypeError
     end
   else ret tt) ;;
  y <- get_cell c ;;
  ret (_row y).

(** [cell.col] *)
Definition col (c : cref) : M val :=
  x <- get_cell c ;;
  (if negb (truthy (_col x)) then
     match match_first re_letters (list_ascii_of_string (_address x)) with
     | Some ls => upd_cell c (set__col (VNum (l2n (string_of_list_ascii ls))))
     | None => throw TypeError
     end
   else ret tt) ;;
  y <- get_cell c ;;
  ret (_col y).

(** ToString, as applied by [ +] with a string operand; for a number,
    its digits. *)
Definition ToString (v : val) : string :=
  match v with
  | VUndefined => "undefined"
  | VNull => "null"
  | VBool true => "true"
  | VBool false => "false"
  | VNum n => NilZero.string_of_int (Z.to_int n)
  | VStr s | VStrObj s => s
  | VDate (Some t) => dateToString t
  | VDate None => "Invalid Date"
  | VObj _ | VCell _ => "[object Object]"
  end.

(** [ +] with the empty string as the other operand.  The digits of a
    number are its string up to [2 ^ 53]. *)
Definition plus_empty (v : val) : M val :=
  match v with
  | VNum n =>
      if (Z.abs n <=? 2 ^ 53)%Z then ret (VStr (ToString v)) else unsupported
  | VObj l => t <- object_to_string l ;; ret (VStr t)
  | _ => ret (VStr (ToString v))
  end.

(** [cell.toCsvString()], through the variant's method.  The Hyperlink
    variant hands back [model.hyperlink] as it is. *)
Definition toCsvString (c : cref) : M val :=
  x <- get_cell c ;;
  let v := _value x in
  match vtype v with
  | Types.Null => ret (VStr "")
  | Types.Number =>
      n <- read (model v) "value" ;;
      plus_empty n
  | Types.String =>
      s <- read (model v) "value" ;;
      match s with
      | VStr t | VStrObj t =>
          ret (VStr (String.String dquote
                       (double_quotes t ++ String.String dquote "")))
      | _ => throw TypeError
      end
  | Types.Date =>
      d <- read (model v) "value" ;;
      match d with
      | VDate (Some t) => ret (VStr (toISOString t))
      | VDate None => throw RangeError
      | _ => throw TypeError
      end
  | Types.Hyperlink => read (model v) "hyperlink"
  | Types.Merge => ret (VStr "")
  | Types.Formula =>
      r <- read (model v) "result" ;;
      plus_empty (if truthy r then r else VStr "")
  end.

End Collaborators.

Arguments plus_empty : simpl never.

(** ** Style accessors and the address of a variant *)

(** The five formatting properties a cell passes through to [style]. *)
Inductive style_key := numFmt | font | alignment | border | fill.

Definition style_key_name (k : style_key) : string :=
  match k with
  | numFmt => "numFmt" | font => "font" | alignment => "alignment"
  | border => "border" | fill => "fill"
  end.

(** [cell.numFmt] and its four siblings: [this.style.k].  A style that is
    itself a Cell answers through its own getter, one call deeper; a
    primitive, a String object or a Date has none of the five. *)
Fixpoint get_style (fuel : nat) (c : cref) (k : style_key) : M val :=
  match fuel with
  | O => fun _ => OutOfFuel
  | S fuel' =>
      x <- get_cell c ;;
      match style x with
      | VUndefined | VNull => throw TypeError
      | VObj l => read l (style_key_name k)
      | VCell a => get_style fuel' a k
      | _ => ret VUndefined
      end
  end.

(** [cell.numFmt = value] and its four siblings: [this.style.k = value].
    The file is in strict mode, so the assignment throws on a primitive;
    on a String or Date object the property would land on that object,
    which carries no properties here: that write is left out. *)
Fixpoint set_style_prop (fuel : nat) (c : cref) (k : style_key) (value : val)
    : M unit :=
  match fuel with
  | O => fun _ => OutOfFuel
  | S fuel' =>
      x <- get_cell c ;;
      match style x with
      | VObj l => write_prop l (style_key_name k) value
      | VCell a => set_style_prop fuel' a k value
      | VStrObj _ | VDate _ => unsupported
      | _ => throw TypeError
      end
  end.

(** [value.address] and [value.address = v], the same on all seven
    variants: the [address] property of the variant's model. *)
Definition Value_address (c : cref) : M val :=
  x <- get_cell c ;; read (model (_value x)) "address".

Definition Value_set_address (c : cref) (v : val) : M unit :=
  x <- get_cell c ;; write_prop (model (_value x)) "address" v.

(** ** Programs over cells

    What a caller can do between two observations: build and change
    objects of its own, create cells, and call the members of a cell. *)

Inductive op :=
| Op_alloc (o : obj)
| Op_write (l : loc) (k : string) (v : val)
| Op_new (row : val) (address : string)
| Op_merge (c : cref) (master : option cref)
| Op_unmerge (c : cref)
| Op_get_value (fuel : nat) (c : cref)
| Op_set_value (fuel : nat) (c : cref) (v : val)
| Op_Value_set_value (fuel : nat) (c : cref) (v : val)
| Op_upgradeToHyperlink (c : cref) (link : val)
| Op_get_model (c : cref)
| Op_set_model (c : cref) (m : val)
| Op_row (c : cref)
| Op_col (c : cref).

Definition exec (validateAddress : string -> bool) (l2n : string -> Z)
    (o : op) : M unit :=
  match o with
  | Op_alloc x => alloc x ;; ret tt
  | Op_write l k v => write_prop l k v
  | Op_new r a => new_Cell validateAddress r a ;; ret tt
  | Op_merge c m => merge c m
  | Op_unmerge c => unmerge c
  | Op_get_value fuel c => get_value fuel c ;; ret tt
  | Op_set_value fuel c v => set_value fuel c v
  | Op_Value_set_value fuel c v => Value_set_value fuel c v
  | Op_upgradeToHyperlink c v => _upgradeToHyperlink c v
  | Op_get_model c => get_model c ;; ret tt
  | Op_set_model c m => set_model c m
  | Op_row c => row c ;; ret tt
  | Op_col c => col l2n c ;; ret tt
  end.

(** The store an operation leaves behind, whether it returns or throws. *)
Definition after (validateAddress : string -> bool) (l2n : string -> Z)
    (o : op) (s : state) : option state :=
  match exec validateAddress l2n o s with
  | Ok _ s' | Throw _ s' => Some s'
  | _ => None
  end.

Inductive steps (validateAddress : string -> bool) (l2n : string -> Z)
    : state -> state -> Prop :=
| steps_refl s : steps validateAddress l2n s s
| steps_step s o s1 s2 :
    after validateAddress l2n o s = Some s1 ->
    steps validateAddress l2n s1 s2 ->
    steps validateAddress l2n s s2.

(** The stores a caller can get to from the empty one by operations that
    return. *)
Inductive reachable (validateAddress : string -> bool) (l2n : string -> Z)
    : state -> Prop :=
| reachable_init : reachable validateAddress l2n empty_state
| reachable_step s o s' :
    reachable validateAddress l2n s ->
    exec validateAddress l2n o s = Ok tt s' ->
    reachable validateAddress l2n s'.

(** Running a script, going on after an operation that throws. *)
Fixpoint run (validateAddress : string -> bool) (l2n : string -> Z)
    (ops : list op) (s : state) : option state :=
  match ops with
  | [] => Some s
  | o :: ops' =>
      match after validateAddress l2n o s with
      | Some s1 => run validateAddress l2n ops' s1
      | None => None
      end
  end.

(** Running a script of operations that all return. *)
Fixpoint run_returning (validateAddress : string -> bool) (l2n : string -> Z)
    (ops : list op) (s : state) : option state :=
  match ops with
  | [] => Some s
  | o :: ops' =>
      match exec validateAddress l2n o s with
      | Ok _ s1 => run_returning validateAddress l2n ops' s1
      | _ => None
      end
  end.

(** * Vocabulary of the properties

    The notions the statements are written in, and the small stores
    they are tried on. *)

(** ** Stores used as instances *)

(** One cell A1. *)
Definition one_cell : state :=
  match (r <- alloc empty_obj ;; new_Cell (fun _ => true) (VObj r) "A1") empty_state with
  | Ok _ s => s
  | _ => empty_state
  end.

(** Two cells A1 and B2 of one owner row, not merged. *)
Definition two_cells : state :=
  match (r <- alloc empty_obj ;;
         a <- new_Cell (fun _ => true) (VObj r) "A1" ;;
         new_Cell (fun _ => true) (VObj r) "B2") empty_state with
  | Ok _ s => s
  | _ => empty_state
  end.

(** Two cells A1 and B2, B2 merged onto A1. *)
Definition merged_pair : state :=
  match (r <- alloc empty_obj ;;
         a <- new_Cell (fun _ => true) (VObj r) "A1" ;;
         b <- new_Cell (fun _ => true) (VObj r) "B2" ;;
         merge b (Some a)) empty_state with
  | Ok _ s => s
  | _ => empty_state
  end.

(** A Merge snapshot with master "A1", ready to be imported. *)
Definition merge_snapshot : obj :=
  Obj (Some Types.Merge) (<[ "master" := VStr "A1" ]> {[ "address" := VStr "B2" ]}).

(** The payload record [{text: "", hyperlink: "b"}], alone in a store. *)
Definition empty_text_payload : state :=
  MkState [] [Obj None (<[ "hyperlink" := VStr "b" ]> {[ "text" := VStr "" ]})].

(** A cell A1 holding the formula [A1-A1] with the cached result 0. *)
Definition formula_zero : M cref :=
  r <- alloc empty_obj ;;
  c <- new_Cell (fun _ => true) (VObj r) "A1" ;;
  p <- alloc (Obj None (<[ "result" := VNum 0 ]> {[ "formula" := VStr "A1-A1" ]})) ;;
  set_value 1 c (VObj p) ;;
  ret c.

(** A cell C7 created for an owner row object. *)
Definition cell_C7 : M cref :=
  r <- alloc empty_obj ;;
  new_Cell (fun _ => true) (VObj r) "C7".

(** Cells A1 and B2, B2 merged onto A1, then two imports into B2 of a
    snapshot without a known tag. *)
Definition failing_imports : list op :=
  [Op_alloc empty_obj;
   Op_new (VObj 0%nat) "A1";
   Op_new (VObj 0%nat) "B2";
   Op_merge 1%nat (Some 0%nat);
   Op_set_model 1%nat (VObj 0%nat);
   Op_set_model 1%nat (VObj 0%nat)].

(** Three cells A1, B2 and C3, B2 merged onto A1. *)
Definition merged_of_three : state :=
  match (r <- alloc empty_obj ;;
         a <- new_Cell (fun _ => true) (VObj r) "A1" ;;
         b <- new_Cell (fun _ => true) (VObj r) "B2" ;;
         c <- new_Cell (fun _ => true) (VObj r) "C3" ;;
         merge b (Some a)) empty_state with
  | Ok _ s => s
  | _ => empty_state
  end.

(** ** Type inference, as the specification words it *)

(** A payload that is not a plain object has no field. *)
Definition field (value : val) (k : string) (s : state) : val :=
  match value with
  | VObj l => read_prop l k s
  | _ => VUndefined
  end.

(** A field is non-empty when it is truthy. *)
Definition nonempty (v : val) : bool := truthy v.

(** The classification in the priority order of the specification;
    [None] is the UnrecognizedType failure. *)
Definition spec_classify (value : val) (s : state) : option Types.ValueType :=
  match value with
  | VNull | VUndefined => Some Types.Null
  | _ =>
      match value with
      | VStr _ | VStrObj _ => Some Types.String
      | _ =>
          match value with
          | VNum _ => Some Types.Number
          | _ =>
              match value with
              | VDate _ => Some Types.Date
              | _ =>
                  if nonempty (field value "text" s)
                     && nonempty (field value "hyperlink" s)
                  then Some Types.Hyperlink
                  else if nonempty (field value "formula" s)
                  then Some Types.Formula
                  else None
              end
          end
      end
  end.

(** ** What methods keep *)

(** [preserves R m]: whenever [m] returns or throws, the store it leaves
    is [R]-related to the one it started from. *)
Definition preserves {A} (R : state -> state -> Prop) (m : M A) : Prop :=
  forall s, match m s with
            | Ok _ s' | Throw _ s' => R s s'
            | _ => True
            end.

(** Objects stay where they are and never lose a property. *)
Definition heap_grows (s s' : state) : Prop :=
  forall l o, heap s !! l = Some o ->
    exists o', heap s' !! l = Some o' /\
               forall k, is_Some (o_props o !! k) -> is_Some (o_props o' !! k).

Definition never_throws {A} (m : M A) : Prop :=
  forall s e s', m s <> Throw e s'.

(** What a method hands back when it returns. *)
Definition yields {A} (P : A -> Prop) (m : M A) : Prop :=
  forall s r s', m s = Ok r s' -> P r.

(** ** Values written, read, imported *)

(** What a read after a write must give back, variant by variant: the
    Null variant answers [null]; Number, String and Date answer the
    payload itself; Hyperlink and Formula answer a record whose two
    fields are those of the payload; no payload makes a Merge. *)
Definition reads_back (T : Types.ValueType) (x r : val) (s s2 : state) : Prop :=
  match T with
  | Types.Null => r = VNull
  | Types.Number | Types.String | Types.Date => r = x
  | Types.Hyperlink =>
      exists l, r = VObj l /\
        read_prop l "text" s2 = field x "text" s /\
        read_prop l "hyperlink" s2 = field x "hyperlink" s
  | Types.Formula =>
      exists l, r = VObj l /\
        read_prop l "formula" s2 = field x "formula" s /\
        read_prop l "result" s2 = field x "result" s
  | Types.Merge => False
  end.

(** A payload of one of the four plain kinds of the specification:
    [null], a number, a string, a Date. *)
Definition plain_scalar (v : val) : Prop :=
  match v with
  | VNull | VNum _ | VStr _ | VDate _ => True
  | _ => False
  end.

(** The cell an import leaves: the fresh variant of type [T] with the
    imported object as its model, and the style of the import. *)
Definition imported (T : Types.ValueType) (m : loc) (st : val) (x : Cell) : Cell :=
  MkCell (_row x) (_col x) (_address x) (MkValue T m None) st (_mergeCount x).

(** What [cell.model = v] fails with once the old value is released:
    the [type] of [v] cannot be read, or the factory has no constructor
    for it.  [None] when the import does not fail there. *)
Definition import_error (v : val) (s : state) : option error :=
  match v with
  | VUndefined | VNull => Some TypeError
  | VObj m =>
      match read_key m s with
      | Tag _ => None
      | Other (VStr name) | Other (VStrObj name) =>
          if String.eqb name "constructor" then None
          else if inherited name then Some TypeError
          else Some UnknownValueType
      | Other (VObj l) =>
          match o_props (get_obj l s) !! "toString" with
          | Some _ => Some TypeError
          | None => Some UnknownValueType
          end
      | Other _ => Some UnknownValueType
      end
  | VCell _ => None
  | _ => Some UnknownValueType
  end.

(** The value a cell holds can be released: a MergeValue needs a master
    that is a cell of the store. *)
Definition releasable (s : state) (v : Value) : Prop :=
  vtype v = Types.Merge ->
  exists a, _master v = Some a /\ (a < length (cells s))%nat.

(** Everything a cell holds but its reference count. *)
Definition sans_count (x : Cell) : val * val * string * Value * val :=
  (_row x, _col x, _address x, _value x, style x).

(** ** Merge links and reference counts *)

(** Where a read or a write of [cell.value] ends up: the cell itself
    unless it is a merge slave, else where its master's ends up. *)
Fixpoint resolve (fuel : nat) (c : cref) (s : state) : option cref :=
  match fuel with
  | O => None
  | S fuel' =>
      match cells s !! c with
      | None => None
      | Some x =>
          match vtype (_value x) with
          | Types.Merge =>
              match _master (_value x) with
              | Some m => resolve fuel' m s
              | None => None
              end
          | _ => Some c
          end
      end
  end.

(** The merge link of a cell, all that [resolve] looks at: [None] for a
    cell that is not a slave, else its master, if any. *)
Definition link (x : Cell) : option (option cref) :=
  match vtype (_value x) with
  | Types.Merge => Some (_master (_value x))
  | _ => None
  end.

(** The master a value refers to, and the one a cell's value refers to. *)
Definition vref (v : Value) : option cref :=
  match vtype v with
  | Types.Merge => _master v
  | _ => None
  end.

Definition mref (x : Cell) : option cref := vref (_value x).

(** 1 when the reference [r] is to [a], else 0. *)
Definition ind (r : option cref) (a : cref) : Z :=
  if decide (r = Some a) then 1 else 0.

(** The number of cells whose Merge value has [a] as its master. *)
Fixpoint count_slaves (a : cref) (cs : list Cell) : Z :=
  match cs with
  | [] => 0
  | x :: cs' => ind (mref x) a + count_slaves a cs'
  end.

(** The count kept at [a]; 0 where there is no cell. *)
Definition count_at (cs : list Cell) (a : cref) : Z :=
  match cs !! a with
  | Some x => _mergeCount x
  | None => 0
  end.

(** By how much the count kept at [a] exceeds the number of its slaves. *)
Definition excess (cs : list Cell) (a : cref) : Z :=
  count_at cs a - count_slaves a cs.

Definition counts_exact (s : state) : Prop :=
  forall a, excess (cells s) a = 0.

(** [delta d m]: when [m] returns, the excess at every [a] has moved by
    [d r a], [r] being what [m] returns, and no cell has changed its
    value. *)
Definition delta {A} (d : A -> cref -> Z) (m : M A) : Prop :=
  forall s r s', m s = Ok r s' ->
    (forall a, excess (cells s') a = excess (cells s) a + d r a) /\
    (forall c, _value <$> cells s' !! c = _value <$> cells s !! c).

Definition zero {A} : A -> cref -> Z := fun _ _ => 0.

(** [m] returns with the excess where it was, at every cell. *)
Definition keeps_excess {A} (m : M A) : Prop :=
  forall s r s', m s = Ok r s' ->
    forall a, excess (cells s') a = excess (cells s) a.

(** ** The text of a range *)

Definition bang : ascii := Eval cbv in ascii_of_nat 33.

Definition colon : ascii := Eval cbv in ascii_of_nat 58.

(** 1 to 3 capitals, 1 to 4 digits, a colon, 1 to 3 capitals, 1 to 4
    digits. *)
Record range_parts := RangeParts {
  col1 : list ascii; row1 : list ascii;
  col2 : list ascii; row2 : list ascii
}.

Definition range_text (r : range_parts) : list ascii :=
  col1 r ++ row1 r ++ colon :: col2 r ++ row2 r.

Definition cell_shaped (letters digits : list ascii) : Prop :=
  Forall (fun c => is_upper c = true) letters /\
  (1 <= length letters <= 3)%nat /\
  Forall (fun c => is_digit c = true) digits /\
  (1 <= length digits <= 4)%nat.

Definition range_shaped (r : range_parts) : Prop :=
  cell_shaped (col1 r) (row1 r) /\ cell_shaped (col2 r) (row2 r).

(** ** The snapshot of a payload *)

(** What the snapshot [m] of a cell holds of the payload [x] it was
    given in [s], type by type. *)
Definition snapshot_holds (T : Types.ValueType) (x : val) (m : loc)
    (s s2 : state) : Prop :=
  match T with
  | Types.Null => o_props (get_obj m s2) !! "value" = None
  | Types.Number | Types.String | Types.Date => read_prop m "value" s2 = x
  | Types.Hyperlink =>
      read_prop m "text" s2 = field x "text" s /\
      read_prop m "hyperlink" s2 = field x "hyperlink" s
  | Types.Formula =>
      read_prop m "formula" s2 = field x "formula" s /\
      read_prop m "result" s2 = field x "result" s
  | Types.Merge => False
  end.

(** ** What a cell is, over time *)

(** Every cell of [s] is still there in [s'], at the same address; its
    owner row and its column, once they hold something, are the same. *)
Definition identity_kept (s s' : state) : Prop :=
  forall c x, cells s !! c = Some x ->
    exists x', cells s' !! c = Some x' /\
               _address x' = _address x /\
               (truthy (_row x) = true -> _row x' = _row x) /\
               (truthy (_col x) = true -> _col x' = _col x).

(** ** The texts a pattern stands for *)

(** The language of a pattern, read off its syntax: what a match of it
    can be, whichever way the engine searches. *)
Fixpoint in_lang (r : regex) (w : list ascii) : Prop :=
  match r with
  | Lit c => w = [c]
  | Class p lo hi =>
      Forall (fun c => p c = true) w /\ (lo <= length w)%nat /\
      match hi with Some h => (length w <= h)%nat | None => True end
  | Seq r1 r2 =>
      exists w1 w2, w = (w1 ++ w2)%list /\ in_lang r1 w1 /\ in_lang r2 w2
  | Opt r1 => w = [] \/ in_lang r1 w
  end.

(** Nothing, or a sheet name of letters and digits and an exclamation
    mark. *)
Definition sheet_prefix (p : list ascii) : Prop :=
  p = [] \/
  exists name, p = (name ++ [bang])%list /\ name <> [] /\
               Forall (fun c => is_alnum c = true) name.

(** [cuts r text ms kept]: the matches [ms] of [r] in [text], taken from
    left to right, and the text [kept] once they are cut out.  A match
    starts where the one before it ends or further on, is the one the
    engine finds there, and no text of the language of [r] starts at a
    place passed over in between, or after the last match. *)
Inductive cuts (r : regex)
    : list ascii -> list (list ascii) -> list ascii -> Prop :=
| cuts_none text :
    (forall u v w, text = (u ++ v)%list -> in_lang r w -> ~ w `prefix_of` v) ->
    cuts r text [] text
| cuts_match gap m rest ms kept :
    (forall u v w, gap = (u ++ v)%list -> v <> [] -> in_lang r w ->
                   ~ w `prefix_of` (v ++ m ++ rest)%list) ->
    m <> [] -> in_lang r m ->
    match_here r (m ++ rest)%list = Some rest ->
    cuts r rest ms kept ->
    cuts r (gap ++ m ++ rest)%list (m :: ms) (gap ++ kept)%list.

(** A text with pieces taken out of it: the text is [g0 m1 g1 ... mn gn]
    for the pairs [(mi, gi)], and what is left is [g0 g1 ... gn]. *)
Definition woven (g0 : list ascii) (ps : list (list ascii * list ascii))
    : list ascii :=
  (g0 ++ concat (map (fun p => fst p ++ snd p) ps))%list.

Definition gaps (g0 : list ascii) (ps : list (list ascii * list ascii))
    : list ascii :=
  (g0 ++ concat (map snd ps))%list.

(** [null] for no match, else the array of the matches. *)
Definition match_result (ms : list (list ascii)) : option (list string) :=
  match ms with
  | [] => None
  | _ => Some (map string_of_list_ascii ms)
  end.

(** * Properties *)

(** ** Reasoning about outcomes *)

Lemma bind_Ok {A B} (m : M A) (k : A -> M B) s b s2 :
  bind m k s = Ok b s2 <-> exists a s1, m s = Ok a s1 /\ k a s1 = Ok b s2.
Proof.
  unfold bind. destruct (m s) as [a s1| | | |]; split; intros H;
    try discriminate; try (by destruct H as (? & ? & ? & ?)).
  - eauto.
  - by destruct H as (? & ? & [= <- <-] & ?).
Qed.

Lemma bind_Throw {A B} (m : M A) (k : A -> M B) s e s2 :
  bind m k s = Throw e s2 <->
  m s = Throw e s2 \/ exists a s1, m s = Ok a s1 /\ k a s1 = Throw e s2.
Proof.
  unfold bind. destruct (m s) as [a s1|e' s1| | |]; split; intros H.
  - right. exists a, s1. by split.
  - destruct H as [H|(? & ? & [= <- <-] & ?)]; [discriminate|done].
  - injection H as -> ->. by left.
  - destruct H as [H|(? & ? & ? & ?)]; [by injection H as -> ->|done].
  - done.
  - by destruct H as [|(? & ? & ? & ?)].
  - done.
  - by destruct H as [|(? & ? & ? & ?)].
  - done.
  - by destruct H as [|(? & ? & ? & ?)].
Qed.

Lemma get_cell_Some c x s : cells s !! c = Some x -> get_cell c s = Ok x s.
Proof. unfold get_cell. by intros ->. Qed.

Lemma upd_cell_Some c f x s :
  cells s !! c = Some x ->
  upd_cell c f s = Ok tt (MkState (<[c := f x]> (cells s)) (heap s)).
Proof. unfold upd_cell. by intros ->. Qed.

Lemma get_cell_upd c y cs h :
  (c < length cs)%nat ->
  get_cell c (MkState (<[c := y]> cs) h) = Ok y (MkState (<[c := y]> cs) h).
Proof. intros Hc. unfold get_cell. simpl. by rewrite list_lookup_insert_eq. Qed.

(** ** C6: type inference *)

Lemma nonempty_string s : nonempty (VStr s) = true <-> s <> "".
Proof.
  unfold nonempty; simpl. destruct (String.eqb_spec s ""); simpl; split; congruence.
Qed.

Lemma getType_spec value s :
  Value.getType value s =
  match spec_classify value s with
  | Some t => Ok t s
  | None => Throw UnrecognizedType s
  end.
Proof.
  destruct value as [| |b|n|t|t|d|l|c]; try reflexivity.
  all: unfold Value.getType, spec_classify, nonempty, field, get_prop,
         bind, ret, throw; simpl; unfold nonempty; try reflexivity.
  destruct (truthy (read_prop l "text" s)); simpl;
    [destruct (truthy (read_prop l "hyperlink" s)); simpl|];
    try reflexivity;
    destruct (truthy (read_prop l "formula" s)); reflexivity.
Qed.

Lemma getType_same_store value s t s' :
  Value.getType value s = Ok t s' -> s' = s.
Proof.
  rewrite getType_spec. destruct (spec_classify value s); congruence.
Qed.

Lemma getType_throws_same_store value s e s' :
  Value.getType value s = Throw e s' -> s' = s /\ e = UnrecognizedType.
Proof.
  rewrite getType_spec. destruct (spec_classify value s); [done|].
  by intros [= <- <-].
Qed.

Lemma getType_not_Merge value s s' :
  Value.getType value s <> Ok Types.Merge s'.
Proof.
  rewrite getType_spec.
  destruct value; simpl; try discriminate;
    repeat (match goal with |- context [if ?b then _ else _] => destruct b end;
            simpl); discriminate.
Qed.

(** C6: [Value.getType] classifies a payload in the priority order
    null/undefined, string, number, Date, record with non-empty [text]
    and [hyperlink], record with non-empty [formula], and fails with
    UnrecognizedType on anything else; it never changes the store, never
    answers Merge, and [{text: "", hyperlink: "b"}] is not a Hyperlink. *)
Theorem getType_classifies :
  (forall value s,
     Value.getType value s =
     match spec_classify value s with
     | Some t => Ok t s
     | None => Throw UnrecognizedType s
     end) /\
  (forall value s s', Value.getType value s <> Ok Types.Merge s') /\
  Value.getType (VObj 0%nat) empty_text_payload
  = Throw UnrecognizedType empty_text_payload.
Proof.
  split; [exact getType_spec|]. split; [exact getType_not_Merge|].
  vm_compute. reflexivity.
Qed.

(** ** C7: CSV rendering *)

Section Csv.
Variable toISOString : Z -> string.
Variable dateToString : Z -> string.

Let csv := toCsvString toISOString dateToString.

(** What each variant renders, given the payload it holds. *)
Lemma toCsvString_by_variant c x s :
  cells s !! c = Some x ->
  let m := model (_value x) in
  match vtype (_value x) with
  | Types.Null | Types.Merge => csv c s = Ok (VStr "") s
  | Types.Number =>
      forall n, read_prop m "value" s = VNum n -> Z.abs n <= 2 ^ 53 ->
                csv c s = Ok (VStr (NilZero.string_of_int (Z.to_int n))) s
  | Types.String =>
      forall t, read_prop m "value" s = VStr t ->
                csv c s = Ok (VStr (String.String dquote
                               (double_quotes t ++ String.String dquote ""))) s
  | Types.Date =>
      (forall t, read_prop m "value" s = VDate (Some t) ->
                 csv c s = Ok (VStr (toISOString t)) s) /\
      (read_prop m "value" s = VDate None -> csv c s = Throw RangeError s)
  | Types.Hyperlink => csv c s = Ok (read_prop m "hyperlink" s) s
  | Types.Formula =>
      (truthy (read_prop m "result" s) = false -> csv c s = Ok (VStr "") s) /\
      (truthy (read_prop m "result" s) = true ->
       (forall n, read_prop m "result" s = VNum n -> Z.abs n <= 2 ^ 53) ->
       (forall l, read_prop m "result" s = VObj l ->
                  o_props (get_obj l s) !! "toString" = None) ->
       csv c s = Ok (VStr (ToString dateToString (read_prop m "result" s))) s)
  end.
Proof.
  intros Hc m. unfold csv, toCsvString, bind.
  rewrite (get_cell_Some _ _ _ Hc). fold m.
  destruct (vtype (_value x)); unfold read, ret; try reflexivity.
  - intros n -> Hn. unfold plus_empty.
    by rewrite (proj2 (Z.leb_le _ _) Hn).
  - by intros t ->.
  - split; [by intros t ->|by intros ->].
  - split; intros Ht; rewrite Ht; [reflexivity|]. intros Hn Ho.
    destruct (read_prop m "result" s) as [| |b|n|t|t|d|l|c']; try reflexivity.
    + unfold plus_empty. by rewrite (proj2 (Z.leb_le _ _) (Hn n eq_refl)).
    + unfold plus_empty, bind, object_to_string. by rewrite (Ho l eq_refl).
Qed.
End Csv.

(** C7, at a formula whose cached result is the number 0: the cell is a
    Formula, its result is present and reads back as 0, whose string is
    "0", and yet the cell renders as the empty string. *)
Theorem toCsvString_formula_zero_result (toISOString dateToString : Z -> string) :
  exists c s,
    formula_zero empty_state = Ok c s /\
    type c s = Ok Types.Formula s /\
    (r <- get_value 1 c ;; get_prop r Kresult) s
      = Ok (VNum 0) (MkState (cells s)
                       (heap s ++ [Obj None (<[ "result" := VNum 0 ]>
                                               {[ "formula" := VStr "A1-A1" ]})])) /\
    ToString dateToString (VNum 0) = "0" /\
    toCsvString toISOString dateToString c s = Ok (VStr "") s.
Proof.
  eexists _, _. split; [vm_compute; reflexivity|].
  repeat split; vm_compute; reflexivity.
Qed.

(** The renderings the specification lists as examples. *)
Lemma csv_examples :
  NilZero.string_of_int (Z.to_int 42) = "42" /\
  double_quotes ("He said " ++ String.String dquote ("hi" ++ String.String dquote ""))
  = "He said " ++ String.String dquote (String.String dquote
      ("hi" ++ String.String dquote (String.String dquote ""))).
Proof. split; reflexivity. Qed.

(** ** C9: row and col *)

(** The constructor stores its owner in [_row], the very field the [row]
    getter uses as its cache: the getter finds it set and answers the
    owner, whatever the address. *)
Lemma row_is_owner c x s :
  cells s !! c = Some x -> truthy (_row x) = true -> row c s = Ok (_row x) s.
Proof.
  intros Hc Ht. unfold row, bind.
  rewrite (get_cell_Some _ _ _ Hc), Ht. simpl.
  by rewrite (get_cell_Some _ _ _ Hc).
Qed.

(** [col], for its part, is computed from the letters of the address on
    the first access and answered from [_col] afterwards. *)
Lemma col_lazy l2n c x ls s :
  cells s !! c = Some x ->
  _col x = VUndefined ->
  match_first re_letters (list_ascii_of_string (_address x)) = Some ls ->
  l2n (string_of_list_ascii ls) <> 0 ->
  let n := l2n (string_of_list_ascii ls) in
  let s1 := MkState (<[c := set__col (VNum n) x]> (cells s)) (heap s) in
  col l2n c s = Ok (VNum n) s1 /\ col l2n c s1 = Ok (VNum n) s1.
Proof.
  intros Hc Hcol Hm Hn n s1.
  assert (Hlen : (c < length (cells s))%nat) by by eapply lookup_lt_Some.
  split.
  - unfold col. unfold bind at 1. rewrite (get_cell_Some _ _ _ Hc).
    rewrite Hcol. simpl. rewrite Hm.
    unfold bind at 1. rewrite (upd_cell_Some _ _ _ _ Hc).
    unfold bind. by rewrite get_cell_upd.
  - unfold col, s1. unfold bind at 1. rewrite get_cell_upd by done.
    simpl. replace (Z.eqb n 0) with false by (symmetry; by apply Z.eqb_neq).
    cbn [negb]. unfold bind, ret. by rewrite get_cell_upd.
Qed.

(** C9, at the cell C7 of an owner row object: the digits of the address
    parse to 7, [col] answers the column number of the letters C, but
    [row] answers the owner object, not 7, and leaves the store alone. *)
Theorem row_of_C7_is_owner (l2n : string -> Z) :
  exists c s,
    cell_C7 empty_state = Ok c s /\
    parseInt <$> match_first re_digits (list_ascii_of_string "C7") = Some 7 /\
    row c s = Ok (VObj 0%nat) s /\
    row c s <> Ok (VNum 7) s /\
    (exists s', col l2n c s = Ok (VNum (l2n "C")) s').
Proof.
  eexists _, _. split; [vm_compute; reflexivity|].
  split; [reflexivity|]. split; [vm_compute; reflexivity|].
  split; [vm_compute; discriminate|].
  eexists. vm_compute. reflexivity.
Qed.

(** ** Store relations kept by every method *)

Section Preserves.
Variable R : state -> state -> Prop.
Hypothesis R_refl : forall s, R s s.
Hypothesis R_trans : forall s1 s2 s3, R s1 s2 -> R s2 s3 -> R s1 s3.

Lemma preserves_ret {A} (a : A) : preserves R (ret a).
Proof. intros s. apply R_refl. Qed.

Lemma preserves_throw {A} e : preserves R (@throw A e).
Proof. intros s. apply R_refl. Qed.

Lemma preserves_bind {A B} (m : M A) (k : A -> M B) :
  preserves R m -> (forall a, preserves R (k a)) -> preserves R (bind m k).
Proof.
  intros Hm Hk s. unfold bind. specialize (Hm s).
  destruct (m s) as [a s1|e s1| | |]; try done.
  specialize (Hk a s1). destruct (k a s1); eauto.
Qed.

Lemma preserves_get_cell c : preserves R (get_cell c).
Proof. intros s. unfold get_cell. destruct (cells s !! c); [apply R_refl|done]. Qed.

Lemma preserves_read l k : preserves R (read l k).
Proof. intros s. apply R_refl. Qed.
End Preserves.

Lemma heap_grows_refl s : heap_grows s s.
Proof. intros l o H. eauto. Qed.

Lemma heap_grows_trans s1 s2 s3 :
  heap_grows s1 s2 -> heap_grows s2 s3 -> heap_grows s1 s3.
Proof.
  intros H12 H23 l o H.
  destruct (H12 l o H) as (o2 & H2 & K2).
  destruct (H23 l o2 H2) as (o3 & H3 & K3). eauto.
Qed.

Lemma grows_alloc o : preserves heap_grows (alloc o).
Proof.
  intros s l o' H. simpl. exists o'. split; [|done].
  by apply lookup_app_l_Some.
Qed.

Lemma grows_write_prop l k v : preserves heap_grows (write_prop l k v).
Proof.
  intros s l' o H. simpl.
  destruct (decide (l = l')) as [<-|Hne].
  - eexists. split.
    + apply list_lookup_insert_eq. by eapply lookup_lt_Some.
    + intros k' Hk. unfold get_obj. rewrite H. simpl.
      destruct (decide (k = k')) as [<-|Hk'].
      * rewrite lookup_insert_eq. eauto.
      * by rewrite lookup_insert_ne.
  - exists o. split; [|done]. by rewrite list_lookup_insert_ne.
Qed.

Lemma grows_upd_cell c f : preserves heap_grows (upd_cell c f).
Proof.
  intros s. unfold upd_cell. destruct (cells s !! c); [|done].
  intros l o H. eauto.
Qed.

Lemma grows_ret {A} (a : A) : preserves heap_grows (ret a).
Proof. apply preserves_ret, heap_grows_refl. Qed.

Lemma preserves_unsupported {A} R : preserves R (@unsupported A).
Proof. by intros s. Qed.

Lemma preserves_object_to_string R l :
  (forall s, R s s) -> preserves R (object_to_string l).
Proof.
  intros HR s. unfold object_to_string.
  destruct (o_props (get_obj l s) !! "toString"); apply HR.
Qed.

Lemma grows_throw {A} e : preserves heap_grows (@throw A e).
Proof. apply preserves_throw, heap_grows_refl. Qed.

Lemma grows_bind {A B} (m : M A) (k : A -> M B) :
  preserves heap_grows m -> (forall a, preserves heap_grows (k a)) ->
  preserves heap_grows (bind m k).
Proof. apply preserves_bind, heap_grows_trans. Qed.

Lemma grows_get_cell c : preserves heap_grows (get_cell c).
Proof. apply preserves_get_cell, heap_grows_refl. Qed.

Lemma grows_read l k : preserves heap_grows (read l k).
Proof. apply preserves_read, heap_grows_refl. Qed.

Lemma grows_pure {A} (f : state -> A) :
  preserves heap_grows (fun s => Ok (f s) s).
Proof. intros s. apply heap_grows_refl. Qed.

Lemma grows_object_to_string l : preserves heap_grows (object_to_string l).
Proof. apply preserves_object_to_string, heap_grows_refl. Qed.

Create HintDb grows discriminated.
#[export] Hint Resolve preserves_unsupported grows_object_to_string : grows.
#[export] Hint Resolve grows_alloc grows_write_prop grows_upd_cell grows_ret
  grows_throw grows_get_cell grows_read grows_pure : grows.

(** Splits a method into its primitive steps. *)
Ltac preserves_step :=
  first
    [ solve [auto with grows]
    | lazymatch goal with
      | |- preserves _ (bind _ _) => apply grows_bind; [|intros ?]
      | |- preserves _ (match ?x with _ => _ end) => destruct x
      | |- preserves _ (let _ := _ in _) => cbv zeta
      end ].

Ltac preserves_steps := repeat preserves_step.

Lemma grows_address_of c : preserves heap_grows (address_of c).
Proof. unfold address_of. preserves_steps. Qed.

Lemma grows_addMergeRef c : preserves heap_grows (addMergeRef c).
Proof. unfold addMergeRef. preserves_steps. Qed.

Lemma grows_releaseMergeRef c : preserves heap_grows (releaseMergeRef c).
Proof. unfold releaseMergeRef. preserves_steps. Qed.

Lemma grows_hyperlink c : preserves heap_grows (hyperlink c).
Proof. unfold hyperlink. preserves_steps. Qed.

#[export] Hint Resolve grows_address_of grows_addMergeRef grows_releaseMergeRef
  grows_hyperlink : grows.

Lemma grows_get_prop v k : preserves heap_grows (get_prop v k).
Proof.
  destruct v; simpl; preserves_steps.
Qed.
#[export] Hint Resolve grows_get_prop : grows.

Lemma grows_getType v : preserves heap_grows (Value.getType v).
Proof. destruct v; simpl; preserves_steps. Qed.

Lemma grows_release v : preserves heap_grows (release v).
Proof. unfold release. preserves_steps. Qed.

Lemma grows_prop_or_undefined v k : preserves heap_grows (prop_or_undefined v k).
Proof. unfold prop_or_undefined. preserves_steps. Qed.
#[export] Hint Resolve grows_getType grows_release grows_prop_or_undefined : grows.

Lemma grows_create t c v : preserves heap_grows (create t c v).
Proof.
  unfold create.
  destruct t as [[]|[]];
    unfold NullValue, NumberValue, StringValue, DateValue, ScalarValue,
      HyperlinkValue, FormulaValue, MergeValue;
    preserves_steps.
Qed.
#[export] Hint Resolve grows_create : grows.

Lemma grows_merge c m : preserves heap_grows (merge c m).
Proof. unfold merge. preserves_steps. Qed.

Lemma grows_unmerge c : preserves heap_grows (unmerge c).
Proof. unfold unmerge. preserves_steps. Qed.

Lemma grows_get_value fuel : forall c, preserves heap_grows (get_value fuel c).
Proof.
  induction fuel as [|fuel IH]; intros c; simpl; [done|].
  preserves_steps.
Qed.

Lemma grows_set_value fuel : forall c v, preserves heap_grows (set_value fuel c v).
Proof.
  induction fuel as [|fuel IH]; intros c v; simpl; [done|].
  preserves_steps.
Qed.
#[export] Hint Resolve grows_merge grows_unmerge grows_get_value
  grows_set_value : grows.

Lemma grows_Value_set_value fuel c v :
  preserves heap_grows (Value_set_value fuel c v).
Proof. unfold Value_set_value. preserves_steps. Qed.

Lemma grows_upgradeToHyperlink c v :
  preserves heap_grows (_upgradeToHyperlink c v).
Proof. unfold _upgradeToHyperlink. preserves_steps. Qed.

Lemma grows_get_model c : preserves heap_grows (get_model c).
Proof. unfold get_model. preserves_steps. Qed.

Lemma grows_set_model c m : preserves heap_grows (set_model c m).
Proof.
  unfold set_model. preserves_steps.
Qed.

Lemma grows_row c : preserves heap_grows (row c).
Proof. unfold row. preserves_steps. Qed.

Lemma grows_col l2n c : preserves heap_grows (col l2n c).
Proof. unfold col. preserves_steps. Qed.

Lemma grows_new_Cell va r a : preserves heap_grows (new_Cell va r a).
Proof.
  unfold new_Cell. preserves_steps.
  intros s l o H. eauto.
Qed.
#[export] Hint Resolve grows_Value_set_value grows_upgradeToHyperlink
  grows_get_model grows_set_model grows_row grows_col grows_new_Cell : grows.

Lemma grows_exec va l2n o : preserves heap_grows (exec va l2n o).
Proof. destruct o; simpl; preserves_steps. Qed.

Lemma steps_heap_grows va l2n s s' : steps va l2n s s' -> heap_grows s s'.
Proof.
  induction 1 as [s|s o s1 s2 Ha _ IH]; [apply heap_grows_refl|].
  eapply heap_grows_trans; [|exact IH].
  unfold after in Ha. pose proof (grows_exec va l2n o s) as G.
  destruct (exec va l2n o s); by simplify_eq.
Qed.

(** ** C10: the model getter hands out the Value's own snapshot *)

Lemma read_prop_write_eq l k v s :
  (l < length (heap s))%nat ->
  forall s', write_prop l k v s = Ok tt s' -> read_prop l k s' = v.
Proof.
  intros Hl s' [= <-]. unfold read_prop, get_obj. simpl.
  rewrite list_lookup_insert_eq by done. simpl.
  by rewrite lookup_insert_eq.
Qed.

Lemma read_prop_write_ne l k k' v s :
  k <> k' ->
  forall s', write_prop l k v s = Ok tt s' -> read_prop l k' s' = read_prop l k' s.
Proof.
  intros Hk s' [= <-]. unfold read_prop, get_obj. simpl.
  destruct (heap s !! l) as [o|] eqn:Hl.
  - rewrite list_lookup_insert_eq by by eapply lookup_lt_Some.
    simpl. by rewrite lookup_insert_ne.
  - rewrite list_insert_ge by by apply lookup_ge_None. by rewrite Hl.
Qed.

Lemma read_prop_write_other l l' k k' v s s' :
  l <> l' ->
  write_prop l k v s = Ok tt s' -> read_prop l' k' s' = read_prop l' k' s.
Proof.
  intros Hne [= <-]. unfold read_prop, get_obj. simpl.
  by rewrite list_lookup_insert_ne.
Qed.

(** C10: reading [cell.model] returns the very object the active Value
    keeps as its [model] (the cell goes on holding that reference), and
    has written the cell's [style] into it: the Value's snapshot carries a
    [style] property from then on, whatever is executed afterwards; every
    other property is as before; and a property written through the
    returned reference is what the Value then reads, so a write to
    [value] changes what [cell.value] answers. *)
Theorem get_model_exposes_snapshot va l2n c x s :
  cells s !! c = Some x ->
  (model (_value x) < length (heap s))%nat ->
  exists s',
    get_model c s = Ok (model (_value x)) s' /\
    cells s' = cells s /\
    read_prop (model (_value x)) "style" s' = style x /\
    (forall k, k <> "style" ->
       read_prop (model (_value x)) k s' = read_prop (model (_value x)) k s) /\
    (forall s'', steps va l2n s' s'' ->
       is_Some (o_props (get_obj (model (_value x)) s'') !! "style")) /\
    (forall k v, exists s'',
       write_prop (model (_value x)) k v s' = Ok tt s'' /\
       cells s'' !! c = Some x /\
       read_prop (model (_value x)) k s'' = v /\
       (k = "value" ->
        vtype (_value x) = Types.Number \/ vtype (_value x) = Types.String \/
        vtype (_value x) = Types.Date ->
        get_value 1 c s'' = Ok v s'')).
Proof.
  intros Hc Hl. set (l := model (_value x)) in *.
  set (o1 := Obj (o_type (get_obj l s))
                 (<[ "style" := style x ]> (o_props (get_obj l s)))).
  set (s' := MkState (cells s) (<[l := o1]> (heap s))).
  assert (Hw : write_prop l "style" (style x) s = Ok tt s') by reflexivity.
  assert (Hl' : (l < length (heap s'))%nat)
    by (simpl; by rewrite length_insert).
  assert (Ho : heap s' !! l = Some o1)
    by (simpl; by apply list_lookup_insert_eq).
  exists s'. split; [|split; [|split; [|split; [|split]]]].
  - unfold get_model, bind. rewrite (get_cell_Some _ _ _ Hc). fold l.
    by rewrite Hw.
  - reflexivity.
  - exact (read_prop_write_eq _ _ _ s Hl _ Hw).
  - intros k Hk. exact (read_prop_write_ne _ _ _ _ s (not_eq_sym Hk) _ Hw).
  - intros s'' Hs.
    destruct (steps_heap_grows _ _ _ _ Hs l o1 Ho) as (o' & Ho' & Hk).
    unfold get_obj. rewrite Ho'. simpl. apply Hk.
    unfold o1. simpl. rewrite lookup_insert_eq. eauto.
  - intros k v.
    eexists. split; [reflexivity|]. simpl.
    split; [done|]. split.
    + by apply (read_prop_write_eq l k v s' Hl').
    + intros -> Hv. unfold bind, get_cell. simpl. rewrite Hc. fold l.
      assert (Hr : read l "value"
                = fun s0 => Ok (read_prop l "value" s0) s0) by done.
      destruct Hv as [-> | [-> | ->]]; rewrite Hr;
        (erewrite read_prop_write_eq; [reflexivity|exact Hl'|reflexivity]).
Qed.

(** ** C3: writing a payload and reading it back *)

Lemma get_obj_alloc_new cs h o :
  get_obj (length h) (MkState cs (h ++ [o])) = o.
Proof. unfold get_obj. simpl. by rewrite list_lookup_middle. Qed.

Lemma read_prop_alloc_new cs h o k :
  read_prop (length h) k (MkState cs (h ++ [o])) = default VUndefined (o_props o !! k).
Proof. unfold read_prop. by rewrite get_obj_alloc_new. Qed.

Lemma read_prop_alloc_old cs cs' h o l k :
  (l < length h)%nat ->
  read_prop l k (MkState cs (h ++ [o])) = read_prop l k (MkState cs' h).
Proof. intros Hl. unfold read_prop, get_obj. simpl. by rewrite lookup_app_l. Qed.

Lemma read_prop_heap l k s s' : heap s = heap s' -> read_prop l k s = read_prop l k s'.
Proof. unfold read_prop, get_obj. by intros ->. Qed.

Lemma truthy_read_allocated l k s :
  truthy (read_prop l k s) = true -> (l < length (heap s))%nat.
Proof.
  unfold read_prop, get_obj. intros H.
  destruct (heap s !! l) eqn:E; [by eapply lookup_lt_Some|done].
Qed.

Lemma set_value_not_Merge fuel c cell x s :
  cells s !! c = Some cell ->
  vtype (_value cell) <> Types.Merge ->
  set_value (S fuel) c x s =
  (t <- Value.getType x ;; nv <- create (Tag t) c x ;; upd_cell c (set__value nv)) s.
Proof.
  intros Hc Hm. simpl. unfold bind at 1. rewrite (get_cell_Some _ _ _ Hc).
  unfold release. by destruct (vtype (_value cell)).
Qed.

Lemma address_of_Some c cell s :
  cells s !! c = Some cell -> address_of c s = Ok (_address cell) s.
Proof. intros Hc. unfold address_of, bind. by rewrite (get_cell_Some _ _ _ Hc). Qed.

Lemma create_Null c cell v s :
  cells s !! c = Some cell ->
  create (Tag Types.Null) c v s =
  Ok (MkValue Types.Null (length (heap s)) None)
     (MkState (cells s)
        (heap s ++ [Obj (Some Types.Null) {[ "address" := VStr (_address cell) ]}])).
Proof.
  intros Hc. unfold create, NullValue, bind.
  by rewrite (address_of_Some _ _ _ Hc).
Qed.

Lemma create_Scalar t c cell v s :
  cells s !! c = Some cell ->
  ScalarValue t c v s =
  Ok (MkValue t (length (heap s)) None)
     (MkState (cells s)
        (heap s ++ [Obj (Some t) (<[ "value" := v ]>
                                    {[ "address" := VStr (_address cell) ]})])).
Proof.
  intros Hc. unfold ScalarValue, bind.
  by rewrite (address_of_Some _ _ _ Hc).
Qed.

Lemma create_Hyperlink c cell l s :
  cells s !! c = Some cell ->
  create (Tag Types.Hyperlink) c (VObj l) s =
  Ok (MkValue Types.Hyperlink (length (heap s)) None)
     (MkState (cells s)
        (heap s ++ [Obj (Some Types.Hyperlink)
                      (<[ "hyperlink" := read_prop l "hyperlink" s ]>
                         (<[ "text" := read_prop l "text" s ]>
                            {[ "address" := VStr (_address cell) ]}))])).
Proof.
  intros Hc. unfold create, HyperlinkValue, bind.
  by rewrite (address_of_Some _ _ _ Hc).
Qed.

Lemma create_Formula c cell l s :
  cells s !! c = Some cell ->
  create (Tag Types.Formula) c (VObj l) s =
  Ok (MkValue Types.Formula (length (heap s)) None)
     (MkState (cells s)
        (heap s ++ [Obj (Some Types.Formula)
                      (<[ "result" := read_prop l "result" s ]>
                         (<[ "formula" := read_prop l "formula" s ]>
                            {[ "address" := VStr (_address cell) ]}))])).
Proof.
  intros Hc. unfold create, FormulaValue, bind.
  by rewrite (address_of_Some _ _ _ Hc).
Qed.

Lemma length_app_one {A} (h : list A) o : length (h ++ [o]) = S (length h).
Proof. rewrite length_app. simpl. lia. Qed.

(** Reads off a record that was just built. *)
Ltac map_reads :=
  repeat first
    [ rewrite lookup_insert_eq
    | rewrite lookup_insert_ne by done
    | rewrite lookup_singleton_eq
    | rewrite lookup_singleton_ne by done
    | rewrite lookup_empty ];
  simpl.

(** C3, as the code has it: on a cell that is not a merge slave, a
    payload whose inferred type is [T] can be written and read back; the
    read gives the payload itself for Number, String and Date, [null] for
    a Null payload (so [undefined] comes back as [null]), and for
    Hyperlink and Formula a record with the payload's two fields.  No
    payload infers to Merge. *)
Theorem set_then_get_value fuel c cell x T s :
  cells s !! c = Some cell ->
  vtype (_value cell) <> Types.Merge ->
  Value.getType x s = Ok T s ->
  T <> Types.Merge /\
  exists s1 r s2,
    set_value (S fuel) c x s = Ok tt s1 /\
    get_value (S fuel) c s1 = Ok r s2 /\
    reads_back T x r s s2 /\
    (T = Types.Null -> r = VNull /\ (x = VNull \/ x = VUndefined)).
Proof.
  intros Hc Hm Ht.
  split; [intros ->; by eapply getType_not_Merge|].
  assert (Hlen : (c < length (cells s))%nat) by by eapply lookup_lt_Some.
  rewrite (set_value_not_Merge _ _ _ _ _ Hc Hm).
  unfold bind at 1. rewrite Ht. unfold bind at 1.
  rewrite getType_spec in Ht.
  destruct x as [| |b|n|t|t|d|l|c']; simpl in Ht; try discriminate;
    try (injection Ht as <-).
  - (* undefined *)
    rewrite (create_Null _ _ _ _ Hc). erewrite upd_cell_Some by exact Hc.
    eexists _, _, _. split; [reflexivity|]. simpl.
    unfold bind. rewrite get_cell_upd by done. simpl.
    split; [reflexivity|]. split; [reflexivity|]. auto.
  - (* null *)
    rewrite (create_Null _ _ _ _ Hc). erewrite upd_cell_Some by exact Hc.
    eexists _, _, _. split; [reflexivity|]. simpl.
    unfold bind. rewrite get_cell_upd by done. simpl.
    split; [reflexivity|]. split; [reflexivity|]. auto.
  - (* number *)
    unfold create, NumberValue. rewrite (create_Scalar _ _ _ _ _ Hc).
    erewrite upd_cell_Some by exact Hc.
    eexists _, _, _. split; [reflexivity|]. simpl.
    unfold bind. rewrite get_cell_upd by done. simpl. unfold read.
    rewrite read_prop_alloc_new. simpl. rewrite lookup_insert_eq. simpl.
    split; [reflexivity|]. split; [reflexivity|]. discriminate.
  - (* string *)
    unfold create, StringValue. rewrite (create_Scalar _ _ _ _ _ Hc).
    erewrite upd_cell_Some by exact Hc.
    eexists _, _, _. split; [reflexivity|]. simpl.
    unfold bind. rewrite get_cell_upd by done. simpl. unfold read.
    rewrite read_prop_alloc_new. simpl. rewrite lookup_insert_eq. simpl.
    split; [reflexivity|]. split; [reflexivity|]. discriminate.
  - (* String object *)
    unfold create, StringValue. rewrite (create_Scalar _ _ _ _ _ Hc).
    erewrite upd_cell_Some by exact Hc.
    eexists _, _, _. split; [reflexivity|]. simpl.
    unfold bind. rewrite get_cell_upd by done. simpl. unfold read.
    rewrite read_prop_alloc_new. simpl. rewrite lookup_insert_eq. simpl.
    split; [reflexivity|]. split; [reflexivity|]. discriminate.
  - (* Date *)
    unfold create, DateValue. rewrite (create_Scalar _ _ _ _ _ Hc).
    erewrite upd_cell_Some by exact Hc.
    eexists _, _, _. split; [reflexivity|]. simpl.
    unfold bind. rewrite get_cell_upd by done. simpl. unfold read.
    rewrite read_prop_alloc_new. simpl. rewrite lookup_insert_eq. simpl.
    split; [reflexivity|]. split; [reflexivity|]. discriminate.
  - (* a record *)
    unfold nonempty in Ht.
    destruct (truthy (read_prop l "text" s) && truthy (read_prop l "hyperlink" s))
      eqn:Hh; [|destruct (truthy (read_prop l "formula" s)) eqn:Hf];
      try discriminate; injection Ht as <-.
    + rewrite (create_Hyperlink _ _ _ _ Hc). erewrite upd_cell_Some by exact Hc.
      eexists _, _, _. split; [reflexivity|]. simpl.
      unfold bind. rewrite get_cell_upd by done. simpl. unfold read.
      rewrite !read_prop_alloc_new. simpl. map_reads.
      split; [reflexivity|]. split; [|discriminate].
      eexists. split; [reflexivity|].
      rewrite !read_prop_alloc_new. simpl. by map_reads.
    + rewrite (create_Formula _ _ _ _ Hc). erewrite upd_cell_Some by exact Hc.
      eexists _, _, _. split; [reflexivity|]. simpl.
      unfold bind. rewrite get_cell_upd by done. simpl. unfold read.
      rewrite !read_prop_alloc_new. simpl. map_reads.
      split; [reflexivity|]. split; [|discriminate].
      eexists. split; [reflexivity|].
      rewrite !read_prop_alloc_new. simpl. by map_reads.
Qed.

Lemma set_then_get_value_witness :
  exists s1 s2,
    set_value 1 0%nat (VNum 42) one_cell = Ok tt s1 /\
    get_value 1 0%nat s1 = Ok (VNum 42) s2.
Proof.
  destruct (set_then_get_value 0 0%nat
              (MkCell (VObj 0%nat) VUndefined "A1"
                      (MkValue Types.Null 1%nat None) (VObj 2%nat) 0)
              (VNum 42) Types.Number one_cell)
    as (_ & s1 & r & s2 & H1 & H2 & H3 & _).
  - reflexivity.
  - discriminate.
  - reflexivity.
  - simpl in H3. subst r. by exists s1, s2.
Defined.

(** C3 as stated fails at the payload [undefined]: its inferred type is
    Null, the write succeeds, and the read gives [null], a different
    value.  And a Cell, the payload of a merge, is not accepted at all. *)
Lemma undefined_reads_back_as_null :
  Value.getType VUndefined one_cell = Ok Types.Null one_cell /\
  (exists s1 s2,
     set_value 1 0%nat VUndefined one_cell = Ok tt s1 /\
     get_value 1 0%nat s1 = Ok VNull s2) /\
  VNull <> VUndefined /\
  set_value 1 0%nat (VCell 0%nat) one_cell = Throw UnrecognizedType one_cell.
Proof.
  split; [reflexivity|]. split; [|split; [discriminate|vm_compute; reflexivity]].
  eexists _, _. split; vm_compute; reflexivity.
Qed.

(** ** C2: importing a model and exporting it again *)

Lemma release_not_Merge v s : vtype v <> Types.Merge -> release v s = Ok tt s.
Proof. unfold release. by destruct (vtype v). Qed.

Lemma release_Merge v a y s :
  vtype v = Types.Merge -> _master v = Some a -> cells s !! a = Some y ->
  release v s =
  Ok tt (MkState (<[a := set__mergeCount (_mergeCount y - 1) y]> (cells s)) (heap s)).
Proof.
  intros Hv Hm Ha. unfold release. rewrite Hv, Hm.
  unfold releaseMergeRef. by rewrite (upd_cell_Some _ _ _ _ Ha).
Qed.

Lemma release_Merge_undefined v s :
  vtype v = Types.Merge -> _master v = None -> release v s = Throw TypeError s.
Proof. intros Hv Hm. unfold release. by rewrite Hv, Hm. Qed.

(** The variant the factory builds when it is given no payload. *)
Lemma create_undefined T c cell s :
  cells s !! c = Some cell ->
  exists o,
    create (Tag T) c VUndefined s =
    Ok (MkValue T (length (heap s)) None) (MkState (cells s) (heap s ++ [o])).
Proof.
  intros Hc.
  destruct T; unfold create, NullValue, NumberValue, StringValue, DateValue,
    ScalarValue, HyperlinkValue, FormulaValue, MergeValue, bind;
    rewrite (address_of_Some _ _ _ Hc); simpl; eauto.
Qed.

Lemma read_key_Tag m T s : read_type m s = Some T -> read_key m s = Tag T.
Proof. unfold read_key. by intros ->. Qed.

Lemma set_model_after_release c m s cell sr cellr T :
  cells s !! c = Some cell ->
  release (_value cell) s = Ok tt sr ->
  heap sr = heap s ->
  cells sr !! c = Some cellr ->
  read_type m s = Some T ->
  (m < length (heap s))%nat ->
  exists o,
    set_model c (VObj m) s =
    Ok tt
      (if truthy (read_prop m "style" s)
       then MkState (<[c := imported T m (read_prop m "style" s) cellr]> (cells sr))
                    (heap s ++ [o])
       else MkState (<[c := imported T m (VObj (S (length (heap s)))) cellr]> (cells sr))
                    ((heap s ++ [o]) ++ [empty_obj])).
Proof.
  intros Hc Hr Hh Hcr Ht Hm.
  assert (Hlen : (c < length (cells sr))%nat) by by eapply lookup_lt_Some.
  destruct (create_undefined T c cellr sr Hcr) as (o & Ho).
  exists o. unfold set_model.
  unfold bind at 1. rewrite (get_cell_Some _ _ _ Hc).
  unfold bind at 1. rewrite Hr.
  unfold bind at 1. replace (read_key m sr) with (Tag T)
    by (symmetry; apply read_key_Tag; rewrite <- Ht;
        unfold read_type, get_obj; by rewrite Hh).
  unfold bind at 1. rewrite Ho.
  unfold bind at 1. erewrite upd_cell_Some by (simpl; exact Hcr).
  unfold bind at 1. erewrite upd_cell_Some
    by (simpl; by apply list_lookup_insert_eq).
  simpl. rewrite list_insert_insert_eq.
  unfold bind at 1. unfold read at 1.
  rewrite (read_prop_alloc_old _ (cells s) (heap sr)) by by rewrite Hh.
  replace (read_prop m "style" {| cells := cells s; heap := heap sr |})
    with (read_prop m "style" s) by (apply read_prop_heap; by rewrite Hh).
  destruct (truthy (read_prop m "style" s)).
  - erewrite upd_cell_Some by (simpl; by apply list_lookup_insert_eq).
    simpl. rewrite list_insert_insert_eq. by rewrite Hh.
  - unfold bind. simpl.
    erewrite upd_cell_Some by (simpl; by apply list_lookup_insert_eq).
    simpl. rewrite list_insert_insert_eq, length_app_one. by rewrite Hh.
Qed.

(** Releasing touches nothing but the reference count of the master. *)
Lemma release_releasable v s c cell :
  cells s !! c = Some cell -> releasable s v ->
  exists sr cellr,
    release v s = Ok tt sr /\ heap sr = heap s /\
    cells sr !! c = Some cellr /\
    _row cellr = _row cell /\ _col cellr = _col cell /\
    _address cellr = _address cell /\ _value cellr = _value cell /\
    style cellr = style cell.
Proof.
  intros Hc Hr.
  destruct (decide (vtype v = Types.Merge)) as [Hv|Hv].
  - destruct (Hr Hv) as (a & Ha & Hlt).
    destruct (lookup_lt_is_Some_2 _ _ Hlt) as [y Hy].
    rewrite (release_Merge _ _ _ _ Hv Ha Hy).
    destruct (decide (a = c)) as [->|Hne].
    + eexists _, _. split; [reflexivity|]. split; [reflexivity|]. simpl.
      split; [by apply list_lookup_insert_eq|].
      replace y with cell by congruence. done.
    + eexists _, _. split; [reflexivity|]. split; [reflexivity|]. simpl.
      split; [by rewrite list_lookup_insert_ne|]. done.
  - rewrite (release_not_Merge _ _ Hv). by eexists _, _.
Qed.

Lemma set_model_imports c cell m T s :
  cells s !! c = Some cell ->
  releasable s (_value cell) ->
  (m < length (heap s))%nat ->
  read_type m s = Some T ->
  exists s1 cell1,
    set_model c (VObj m) s = Ok tt s1 /\
    cells s1 !! c = Some cell1 /\
    _value cell1 = MkValue T m None /\
    _address cell1 = _address cell /\
    (truthy (read_prop m "style" s) = true -> style cell1 = read_prop m "style" s) /\
    (m < length (heap s1))%nat /\
    (forall l, (l < length (heap s))%nat -> heap s1 !! l = heap s !! l).
Proof.
  intros Hc Hr Hm Ht.
  destruct (release_releasable _ _ _ _ Hc Hr)
    as (sr & cellr & Hrel & Hh & Hcr & _ & _ & Haddr & _ & _).
  destruct (set_model_after_release _ _ _ _ _ _ _ Hc Hrel Hh Hcr Ht Hm)
    as (o & ->).
  assert (Hlen : (c < length (cells sr))%nat) by by eapply lookup_lt_Some.
  destruct (truthy (read_prop m "style" s)); eexists _, _;
    (split; [reflexivity|]); simpl;
    (split; [by apply list_lookup_insert_eq|]); simpl;
    (split; [reflexivity|]); (split; [exact Haddr|]); (split; [done|]);
    rewrite ?length_app; simpl; (split; [lia|]);
    intros l Hl; rewrite ?lookup_app_l; rewrite ?length_app; simpl; done || lia.
Qed.

Lemma read_type_write l' l k v s s' :
  k <> "type" ->
  write_prop l k v s = Ok tt s' -> read_type l' s' = read_type l' s.
Proof.
  intros Hk [= <-]. unfold read_type, get_obj. simpl.
  rewrite (proj2 (String.eqb_neq _ _) Hk).
  destruct (decide (l = l')) as [<-|Hne].
  - destruct (heap s !! l) eqn:E.
    + by rewrite list_lookup_insert_eq by by eapply lookup_lt_Some.
    + rewrite list_insert_ge by by apply lookup_ge_None. by rewrite E.
  - by rewrite list_lookup_insert_ne.
Qed.

Lemma read_prop_same_heap_lookup l k s s' :
  heap s' !! l = heap s !! l -> read_prop l k s' = read_prop l k s.
Proof. unfold read_prop, get_obj. by intros ->. Qed.

Lemma read_type_same_heap_lookup l s s' :
  heap s' !! l = heap s !! l -> read_type l s' = read_type l s.
Proof. unfold read_type, get_obj. by intros ->. Qed.

Lemma get_model_Some c x s :
  cells s !! c = Some x ->
  get_model c s =
  Ok (model (_value x))
     (MkState (cells s)
        (<[model (_value x) :=
             Obj (o_type (get_obj (model (_value x)) s))
                 (<[ "style" := style x ]> (o_props (get_obj (model (_value x)) s)))]>
           (heap s))).
Proof. intros Hc. unfold get_model, bind. by rewrite (get_cell_Some _ _ _ Hc). Qed.

(** Importing [m] and exporting again gives [m] back, for all seven types. *)
Lemma import_then_export c cell m T s :
  cells s !! c = Some cell ->
  releasable s (_value cell) ->
  (m < length (heap s))%nat ->
  read_type m s = Some T ->
  exists s1 s2,
    set_model c (VObj m) s = Ok tt s1 /\
    get_model c s1 = Ok m s2 /\
    type c s2 = Ok T s2 /\
    read_type m s2 = Some T /\
    (forall k, k <> "style" -> read_prop m k s2 = read_prop m k s).
Proof.
  intros Hc Hr Hm Ht.
  destruct (set_model_imports _ _ _ _ _ Hc Hr Hm Ht)
    as (s1 & cell1 & Hs & Hc1 & Hv1 & _ & _ & Hm1 & Hold).
  pose proof (get_model_Some _ _ _ Hc1) as Hg. rewrite Hv1 in Hg.
  cbn [model] in Hg. set (s2 := MkState _ _) in Hg.
  assert (Hw : write_prop m "style" (style cell1) s1 = Ok tt s2) by reflexivity.
  exists s1, s2. split; [exact Hs|]. split; [exact Hg|]. split; [|split].
  - unfold type, bind, get_cell. simpl. rewrite Hc1. by rewrite Hv1.
  - rewrite (read_type_write _ _ "style" _ _ _ ltac:(discriminate) Hw).
    rewrite (read_type_same_heap_lookup m s s1); [done|by apply Hold].
  - intros k Hk.
    rewrite (read_prop_write_ne _ _ _ _ _ (not_eq_sym Hk) _ Hw).
    apply read_prop_same_heap_lookup. by apply Hold.
Qed.

(** Exporting a cell that is not a merge slave and importing the result
    changes no cell and no object: the store only gains the object of
    the variant the import builds and drops at once. *)
Lemma export_then_import c cell s :
  cells s !! c = Some cell ->
  vtype (_value cell) <> Types.Merge ->
  _master (_value cell) = None ->
  read_type (model (_value cell)) s = Some (vtype (_value cell)) ->
  truthy (style cell) = true ->
  (model (_value cell) < length (heap s))%nat ->
  exists sg o,
    get_model c s = Ok (model (_value cell)) sg /\
    cells sg = cells s /\
    (forall l k, read_prop l k sg = read_prop l k s \/
                 l = model (_value cell) /\ k = "style") /\
    set_model c (VObj (model (_value cell))) sg
    = Ok tt (MkState (cells sg) (heap sg ++ [o])).
Proof.
  intros Hc Hv Hma Ht Hst Hm.
  rewrite (get_model_Some _ _ _ Hc).
  set (m := model (_value cell)) in *.
  set (sg := MkState (cells s) _).
  assert (Hw : write_prop m "style" (style cell) s = Ok tt sg) by reflexivity.
  assert (Hmg : (m < length (heap sg))%nat) by (simpl; by rewrite length_insert).
  assert (Htg : read_type m sg = Some (vtype (_value cell)))
    by (rewrite (read_type_write _ _ "style" _ _ _ ltac:(discriminate) Hw); exact Ht).
  assert (Hsg : read_prop m "style" sg = style cell)
    by exact (read_prop_write_eq _ _ _ s Hm _ Hw).
  destruct (set_model_after_release c m sg cell sg cell _
              Hc (release_not_Merge _ _ Hv) eq_refl Hc Htg Hmg) as (o & Ho).
  exists sg, o. split; [reflexivity|]. split; [reflexivity|]. split.
  { intros l k. destruct (decide (l = m)) as [->|Hl].
    - destruct (decide (k = "style")) as [->|Hk]; [by right|left].
      exact (read_prop_write_ne _ _ _ _ s (not_eq_sym Hk) _ Hw).
    - left. exact (read_prop_write_other _ _ _ _ _ _ _ (not_eq_sym Hl) Hw). }
  rewrite Ho, Hsg, Hst. do 2 f_equal.
  apply list_insert_id. simpl. rewrite Hc. f_equal.
  unfold imported, m. destruct cell as [r cl a [vt vm vma] st n]; simpl in *.
  by rewrite Hma.
Qed.

(** A merge slave exports its snapshot and takes it back, but not its
    master: the import releases the Merge value and installs one that
    has none. *)
Lemma reimport_of_slave A a B b s :
  cells s !! A = Some a -> cells s !! B = Some b ->
  vtype (_value b) = Types.Merge -> _master (_value b) = Some A ->
  read_type (model (_value b)) s = Some Types.Merge ->
  truthy (style b) = true ->
  (model (_value b) < length (heap s))%nat ->
  exists sg s1,
    get_model B s = Ok (model (_value b)) sg /\
    master B sg = Ok (VCell A) sg /\
    set_model B (VObj (model (_value b))) sg = Ok tt s1 /\
    (exists s2, get_model B s1 = Ok (model (_value b)) s2) /\
    type B s1 = Ok Types.Merge s1 /\
    master B s1 = Ok VUndefined s1 /\
    _mergeCount <$> cells s1 !! A = Some (_mergeCount a - 1) /\
    (forall fuel, get_value (S fuel) B s1 = Throw TypeError s1) /\
    (forall v, set_model B v s1 = Throw TypeError s1).
Proof.
  intros Ha Hb Hv Hma Ht Hst Hm.
  assert (HA : (A < length (cells s))%nat) by by eapply lookup_lt_Some.
  assert (HB : (B < length (cells s))%nat) by by eapply lookup_lt_Some.
  rewrite (get_model_Some _ _ _ Hb).
  set (m := model (_value b)) in *.
  set (sg := MkState (cells s) _).
  assert (Hw : write_prop m "style" (style b) s = Ok tt sg) by reflexivity.
  assert (Hmg : (m < length (heap sg))%nat) by (simpl; by rewrite length_insert).
  assert (Htg : read_type m sg = Some Types.Merge)
    by (rewrite (read_type_write _ _ "style" _ _ _ ltac:(discriminate) Hw); exact Ht).
  assert (Hsg : read_prop m "style" sg = style b)
    by exact (read_prop_write_eq _ _ _ s Hm _ Hw).
  set (a1 := set__mergeCount (_mergeCount a - 1) a).
  set (sr := MkState (<[A := a1]> (cells s)) (heap sg)).
  assert (Hrel : release (_value b) sg = Ok tt sr)
    by exact (release_Merge _ _ _ sg Hv Hma Ha).
  set (br := if decide (A = B) then a1 else b).
  assert (Hbr : cells sr !! B = Some br).
  { unfold br. simpl. case_decide as E.
    - subst B. by apply list_lookup_insert_eq.
    - by rewrite list_lookup_insert_ne. }
  assert (Hbr_style : style br = style b /\ _address br = _address b).
  { unfold br. case_decide as E; [|done]. subst B.
    unfold a1. simpl. by replace a with b by congruence. }
  destruct (set_model_after_release B m sg b sr br _ Hb Hrel eq_refl Hbr Htg Hmg)
    as (o & Ho).
  rewrite Hsg, Hst in Ho.
  set (b1 := imported Types.Merge m (style b) br) in Ho.
  set (s1 := MkState (<[B := b1]> (cells sr)) (heap sg ++ [o])) in Ho.
  assert (Hb1 : cells s1 !! B = Some b1).
  { simpl. apply list_lookup_insert_eq. by rewrite length_insert. }
  exists sg, s1. split; [reflexivity|]. split.
  { unfold master, bind, get_cell. simpl. by rewrite Hb, Hv, Hma. }
  split; [exact Ho|]. split.
  { rewrite (get_model_Some _ _ _ Hb1). by eexists. }
  split; [unfold type, bind; by rewrite (get_cell_Some _ _ _ Hb1)|].
  split; [unfold master, bind; by rewrite (get_cell_Some _ _ _ Hb1)|].
  split.
  { simpl. unfold br in b1. destruct (decide (A = B)) as [->|Hne].
    - rewrite list_lookup_insert_eq by by rewrite length_insert. done.
    - rewrite list_lookup_insert_ne by done.
      by rewrite list_lookup_insert_eq. }
  split.
  { intros fuel. simpl. unfold bind. by rewrite (get_cell_Some _ _ _ Hb1). }
  intros v. unfold set_model, bind. rewrite (get_cell_Some _ _ _ Hb1).
  by rewrite (release_Merge_undefined (_value b1) s1 eq_refl eq_refl).
Qed.

(** C2, as the code has it.  (1) On a cell whose value can be released
    (not a Merge without a master), for a snapshot [m] with any of the
    seven tags, [cell.model = m] followed by [cell.model] returns [m]
    itself, with its type and every property but [style] as they were;
    the value installed has no master, also when the type is Merge, and
    then every further import throws.  (2) On a Merge without a master
    every import throws a TypeError and changes nothing.  (3) For a cell
    that is not a Merge, whose snapshot carries the tag of its variant
    and whose style is truthy, [cell.model = cell.model] leaves every
    cell and every property of every object as it was, but for the
    [style] the export writes into the snapshot.  (4) On a merge slave
    with a master, [cell.model = cell.model] returns and keeps the
    snapshot, but the master's count is one lower, [master] is
    [undefined] and reading [value] throws. *)
Theorem model_import_export :
  (forall c cell m T s,
     cells s !! c = Some cell ->
     releasable s (_value cell) ->
     (m < length (heap s))%nat ->
     read_type m s = Some T ->
     exists s1 s2 cell1,
       set_model c (VObj m) s = Ok tt s1 /\
       cells s1 !! c = Some cell1 /\
       _value cell1 = MkValue T m None /\
       get_model c s1 = Ok m s2 /\
       type c s2 = Ok T s2 /\
       read_type m s2 = Some T /\
       (forall k, k <> "style" -> read_prop m k s2 = read_prop m k s) /\
       (T = Types.Merge -> forall v, set_model c v s2 = Throw TypeError s2)) /\
  (forall c cell v s,
     cells s !! c = Some cell ->
     vtype (_value cell) = Types.Merge -> _master (_value cell) = None ->
     set_model c v s = Throw TypeError s) /\
  (forall c cell s,
     cells s !! c = Some cell ->
     vtype (_value cell) <> Types.Merge ->
     _master (_value cell) = None ->
     read_type (model (_value cell)) s = Some (vtype (_value cell)) ->
     truthy (style cell) = true ->
     (model (_value cell) < length (heap s))%nat ->
     exists sg o,
       get_model c s = Ok (model (_value cell)) sg /\
       cells sg = cells s /\
       (forall l k, read_prop l k sg = read_prop l k s \/
                    l = model (_value cell) /\ k = "style") /\
       set_model c (VObj (model (_value cell))) sg
       = Ok tt (MkState (cells sg) (heap sg ++ [o]))) /\
  (forall A a B b s,
     cells s !! A = Some a -> cells s !! B = Some b ->
     vtype (_value b) = Types.Merge -> _master (_value b) = Some A ->
     read_type (model (_value b)) s = Some Types.Merge ->
     truthy (style b) = true ->
     (model (_value b) < length (heap s))%nat ->
     exists sg s1,
       get_model B s = Ok (model (_value b)) sg /\
       master B sg = Ok (VCell A) sg /\
       set_model B (VObj (model (_value b))) sg = Ok tt s1 /\
       (exists s2, get_model B s1 = Ok (model (_value b)) s2) /\
       type B s1 = Ok Types.Merge s1 /\
       master B s1 = Ok VUndefined s1 /\
       _mergeCount <$> cells s1 !! A = Some (_mergeCount a - 1) /\
       (forall fuel, get_value (S fuel) B s1 = Throw TypeError s1) /\
       (forall v, set_model B v s1 = Throw TypeError s1)).
Proof.
  assert (Hstuck : forall c cell v s,
            cells s !! c = Some cell ->
            vtype (_value cell) = Types.Merge -> _master (_value cell) = None ->
            set_model c v s = Throw TypeError s).
  { intros c cell v s Hc Hv Hm. unfold set_model, bind.
    rewrite (get_cell_Some _ _ _ Hc).
    by rewrite (release_Merge_undefined _ s Hv Hm). }
  split; [|split; [exact Hstuck|split; [apply export_then_import|
                                         apply reimport_of_slave]]].
  intros c cell m T s Hc Hr Hm Ht.
  destruct (import_then_export _ _ _ _ _ Hc Hr Hm Ht)
    as (s1 & s2 & Hs & Hg & Hty & Hrt & Hk).
  destruct (set_model_imports _ _ _ _ _ Hc Hr Hm Ht)
    as (s1' & cell1 & Hs' & Hc1 & Hv1 & _).
  assert (s1' = s1) as -> by congruence.
  exists s1, s2, cell1. repeat (split; [done|]).
  intros -> v.
  assert (Hc2 : cells s2 !! c = Some cell1).
  { rewrite (get_model_Some _ _ _ Hc1) in Hg. by injection Hg as _ <-. }
  apply (Hstuck c cell1 v s2 Hc2); by rewrite Hv1.
Qed.

Lemma model_import_export_witness :
  (exists s1 s2,
     set_model 0%nat (VObj 3%nat)
       (MkState (cells one_cell) (heap one_cell ++ [merge_snapshot]))
       = Ok tt s1 /\
     get_model 0%nat s1 = Ok 3%nat s2 /\ type 0%nat s2 = Ok Types.Merge s2) /\
  (exists sg o,
     get_model 0%nat one_cell = Ok 1%nat sg /\
     set_model 0%nat (VObj 1%nat) sg = Ok tt (MkState (cells sg) (heap sg ++ [o]))).
Proof.
  destruct model_import_export as (H1 & _ & H2 & _). split.
  - destruct (H1 0%nat
                (MkCell (VObj 0%nat) VUndefined "A1"
                        (MkValue Types.Null 1%nat None) (VObj 2%nat) 0)
                3%nat Types.Merge
                (MkState (cells one_cell) (heap one_cell ++ [merge_snapshot])))
      as (s1 & s2 & cell1 & Hs & _ & _ & Hg & Ht & _).
    + reflexivity.
    + intros Hv. discriminate Hv.
    + simpl. lia.
    + reflexivity.
    + by exists s1, s2.
  - destruct (H2 0%nat
                (MkCell (VObj 0%nat) VUndefined "A1"
                        (MkValue Types.Null 1%nat None) (VObj 2%nat) 0)
                one_cell)
      as (sg & o & Hg & _ & _ & Hs).
    + reflexivity.
    + discriminate.
    + reflexivity.
    + reflexivity.
    + reflexivity.
    + simpl. lia.
    + by exists sg, o.
Defined.

(** C2 as stated fails.  (1) On a merge slave: exporting B2 and
    importing the result succeeds, but A1 loses its merge reference, B2
    has no master any more, and reading B2's value, which gave A1's
    before, throws.  (2) On a cell that has imported a Merge snapshot:
    exporting and importing again throws a TypeError.  (3) On a cell
    whose style is [null]: exporting and importing succeeds and gives the
    cell a new style object, so that reading a style property, which
    threw before, returns.  (4) On a cell whose snapshot was given
    another [type]: importing what was exported throws
    UnknownValueType. *)
Lemma reimport_of_merge_slave_drops_master :
  (exists m sg s1,
     get_model 1%nat merged_pair = Ok m sg /\
     set_model 1%nat (VObj m) sg = Ok tt s1 /\
     master 1%nat sg = Ok (VCell 0%nat) sg /\
     master 1%nat s1 = Ok VUndefined s1 /\
     _mergeCount <$> cells sg !! 0%nat = Some 1 /\
     _mergeCount <$> cells s1 !! 0%nat = Some 0 /\
     get_value 2 1%nat sg = Ok VNull sg /\
     get_value 2 1%nat s1 = Throw TypeError s1) /\
  (exists s m sg,
     set_model 0%nat (VObj 3%nat)
       (MkState (cells one_cell) (heap one_cell ++ [merge_snapshot]))
     = Ok tt s /\
     get_model 0%nat s = Ok m sg /\
     set_model 0%nat (VObj m) sg = Throw TypeError sg) /\
  (exists m sg s1 l,
     get_model 0%nat
       (MkState [MkCell (VObj 0%nat) VUndefined "A1"
                        (MkValue Types.Null 1%nat None) VNull 0]
                (heap one_cell))
     = Ok m sg /\
     set_model 0%nat (VObj m) sg = Ok tt s1 /\
     style <$> cells sg !! 0%nat = Some VNull /\
     style <$> cells s1 !! 0%nat = Some (VObj l) /\
     get_style 1 0%nat numFmt sg = Throw TypeError sg /\
     get_style 1 0%nat numFmt s1 = Ok VUndefined s1) /\
  (exists s0 m sg,
     write_prop 1%nat "type" (VStr "x") one_cell = Ok tt s0 /\
     get_model 0%nat s0 = Ok m sg /\
     set_model 0%nat (VObj m) sg = Throw UnknownValueType sg).
Proof.
  split; [|split; [|split]].
  - eexists _, _, _. split; [vm_compute; reflexivity|].
    split; [vm_compute; reflexivity|].
    repeat split; vm_compute; reflexivity.
  - eexists _, _, _. split; [vm_compute; reflexivity|].
    split; vm_compute; reflexivity.
  - eexists _, _, _, _. split; [vm_compute; reflexivity|].
    split; [vm_compute; reflexivity|].
    repeat split; vm_compute; reflexivity.
  - eexists _, _, _. split; [vm_compute; reflexivity|].
    split; vm_compute; reflexivity.
Qed.

(** ** C1: what a failed assignment leaves behind *)

Lemma never_throws_ret {A} (a : A) : never_throws (ret a).
Proof. by intros s e s'. Qed.

Lemma never_throws_bind {A B} (m : M A) (k : A -> M B) :
  never_throws m -> (forall a, never_throws (k a)) -> never_throws (bind m k).
Proof.
  intros Hm Hk s e s' H. apply bind_Throw in H as [H|(a & s1 & _ & H)].
  - by eapply Hm.
  - by eapply Hk.
Qed.

Lemma never_throws_pure {A} (f : state -> A) : never_throws (fun s => Ok (f s) s).
Proof. by intros s e s'. Qed.

Lemma never_throws_get_cell c : never_throws (get_cell c).
Proof. intros s e s'. unfold get_cell. by destruct (cells s !! c). Qed.

Lemma never_throws_upd_cell c f : never_throws (upd_cell c f).
Proof. intros s e s'. unfold upd_cell. by destruct (cells s !! c). Qed.

Lemma never_throws_alloc o : never_throws (alloc o).
Proof. by intros s e s'. Qed.

Lemma never_throws_write_prop l k v : never_throws (write_prop l k v).
Proof. by intros s e s'. Qed.

Lemma never_throws_read l k : never_throws (read l k).
Proof. by intros s e s'. Qed.

Lemma never_throws_unsupported {A} : never_throws (@unsupported A).
Proof. by intros s e s'. Qed.

Create HintDb nothrow discriminated.
#[export] Hint Resolve never_throws_unsupported : nothrow.
#[export] Hint Resolve never_throws_ret never_throws_pure never_throws_get_cell
  never_throws_upd_cell never_throws_alloc never_throws_write_prop
  never_throws_read : nothrow.

Ltac nothrow_step :=
  first
    [ solve [auto with nothrow]
    | lazymatch goal with
      | |- never_throws (bind _ _) => apply never_throws_bind; [|intros ?]
      | |- never_throws (match ?x with _ => _ end) => destruct x
      | |- never_throws (let _ := _ in _) => cbv zeta
      end ].

Ltac nothrow_steps := repeat nothrow_step.

Lemma never_throws_address_of c : never_throws (address_of c).
Proof. unfold address_of. nothrow_steps. Qed.

Lemma never_throws_hyperlink c : never_throws (hyperlink c).
Proof. unfold hyperlink. nothrow_steps. Qed.

Lemma never_throws_addMergeRef c : never_throws (addMergeRef c).
Proof. unfold addMergeRef. nothrow_steps. Qed.
#[export] Hint Resolve never_throws_address_of never_throws_hyperlink
  never_throws_addMergeRef : nothrow.

(** [value ? value.k : undefined] guards the property access. *)
Lemma never_throws_prop_or_undefined v k : never_throws (prop_or_undefined v k).
Proof.
  unfold prop_or_undefined. destruct v; simpl; try destruct b; nothrow_steps.
Qed.
#[export] Hint Resolve never_throws_prop_or_undefined : nothrow.

(** The factory does not fail on a known tag, unless it is asked for a
    MergeValue with a master that is not a Cell. *)
Lemma never_throws_create T c v :
  T <> Types.Merge \/ truthy v = false \/ (exists m, v = VCell m) ->
  never_throws (create (Tag T) c v).
Proof.
  intros H. unfold create.
  destruct T; unfold NullValue, NumberValue, StringValue, DateValue,
    ScalarValue, HyperlinkValue, FormulaValue; nothrow_steps.
  unfold MergeValue. apply never_throws_bind; [auto with nothrow|intros a].
  destruct H as [H|[H|(m & ->)]]; [done| |nothrow_steps].
  destruct v; try discriminate; try rewrite H; nothrow_steps.
Qed.

(** The factory builds a variant at a tag only. *)
Lemma create_Other_not_Ok k c v s r s' : create (Other k) c v s <> Ok r s'.
Proof.
  unfold create.
  destruct k as [| |b|n|name|name|d|l|c']; try done.
  - destruct (String.eqb name "constructor"); [done|].
    by destruct (inherited name).
  - destruct (String.eqb name "constructor"); [done|].
    by destruct (inherited name).
  - unfold bind, object_to_string.
    by destruct (o_props (get_obj l s) !! "toString").
Qed.

(** A failed [cell.value = v] has changed nothing. *)
Lemma set_value_throws_unchanged fuel :
  forall c v s e s', set_value fuel c v s = Throw e s' ->
                     s' = s /\ (e = TypeError \/ e = UnrecognizedType).
Proof.
  induction fuel as [|fuel IH]; intros c v s e s' H; simpl in H; [done|].
  apply bind_Throw in H as [H|(x & s0 & Hx & H)];
    [by apply never_throws_get_cell in H|].
  assert (s0 = s) as -> by (unfold get_cell in Hx; destruct (cells s !! c); congruence).
  assert (Hnm : vtype (_value x) <> Types.Merge ->
    (release (_value x) ;; t <- Value.getType v ;; nv <- create (Tag t) c v ;;
     upd_cell c (set__value nv)) s = Throw e s' ->
    s' = s /\ (e = TypeError \/ e = UnrecognizedType)).
  { intros Hv H'. apply bind_Throw in H' as [H'|(? & s1 & Hr & H')];
      rewrite (release_not_Merge _ _ Hv) in *; [done|].
    injection Hr as _ <-.
    apply bind_Throw in H' as [H'|(t & s2 & Ht & H')].
    - apply getType_throws_same_store in H' as [-> ->]. auto.
    - pose proof (getType_same_store _ _ _ _ Ht) as ->.
      exfalso. revert H'. apply never_throws_bind.
      + apply never_throws_create. left. intros ->.
        by eapply getType_not_Merge.
      + intros nv. auto with nothrow. }
  destruct (vtype (_value x)) eqn:Hv; try (apply Hnm; [done|exact H]).
  destruct (_master (_value x)).
  - by eapply IH.
  - injection H as <- <-. auto.
Qed.

(** Once the old value is released, [cell.model = v] throws exactly when
    [import_error] says so, and then at once: the store is the one the
    release left. *)
Lemma set_model_released c cell v s sr :
  cells s !! c = Some cell ->
  release (_value cell) s = Ok tt sr ->
  heap sr = heap s ->
  (forall e, import_error v s = Some e -> set_model c v s = Throw e sr) /\
  (forall e s', set_model c v s = Throw e s' ->
                s' = sr /\ import_error v s = Some e).
Proof.
  intros Hc Hr Hh.
  assert (Hk : forall m, read_key m sr = read_key m s).
  { intros m. unfold read_key, read_type, read_prop, get_obj. by rewrite Hh. }
  remember (set_model c v s) as out eqn:Eo.
  unfold set_model in Eo. unfold bind at 1 in Eo.
  rewrite (get_cell_Some _ _ _ Hc) in Eo.
  unfold bind at 1 in Eo. rewrite Hr in Eo.
  assert (Hfin : forall oe : option error,
            out = match oe with Some e => Throw e sr | None => Unsupported end ->
            (forall e, oe = Some e -> out = Throw e sr) /\
            (forall e s', out = Throw e s' -> s' = sr /\ oe = Some e)).
  { intros [e0|] ->; split; intros; by simplify_eq. }
  destruct v as [| |b|n|t|t|d|m|c']; unfold import_error;
    try (apply Hfin; rewrite Eo; reflexivity).
  (* a plain object *)
  unfold bind at 1 in Eo. rewrite Hk in Eo.
  destruct (read_key m s) as [T|k] eqn:Ek.
  - split; [done|]. intros e s' H. exfalso. rewrite Eo in H. revert H.
    apply never_throws_bind.
    + apply never_throws_create. right. by left.
    + intros ?. nothrow_steps.
  - unfold create in Eo.
    assert (Hname : forall name,
              out = (if String.eqb name "constructor" then Unsupported
                     else if inherited name then Throw TypeError sr
                     else Throw UnknownValueType sr) ->
              (forall e, (if String.eqb name "constructor" then None
                          else if inherited name then Some TypeError
                          else Some UnknownValueType) = Some e ->
                         out = Throw e sr) /\
              (forall e s', out = Throw e s' ->
                 s' = sr /\
                 (if String.eqb name "constructor" then None
                  else if inherited name then Some TypeError
                  else Some UnknownValueType) = Some e)).
    { intros name Ho. apply Hfin. rewrite Ho.
      destruct (String.eqb name "constructor"); [done|].
      by destruct (inherited name). }
    destruct k as [| |b|n|name|name|d|l|c'];
      try (apply Hfin; rewrite Eo; reflexivity).
    + apply Hname. rewrite Eo.
      destruct (String.eqb name "constructor"); [done|].
      by destruct (inherited name).
    + apply Hname. rewrite Eo.
      destruct (String.eqb name "constructor"); [done|].
      by destruct (inherited name).
    + apply Hfin. rewrite Eo. unfold bind, object_to_string, get_obj.
      rewrite Hh. by destruct (o_props (default empty_obj (heap s !! l)) !! "toString").
Qed.

(** A failed [cell.model = v] has either changed nothing, or the cell is
    a merge slave and the import failed after its value was released:
    the store is then the old one with the reference count of the master
    one lower, and the cell still holds the released value. *)
Lemma set_model_throws c v s e s' :
  set_model c v s = Throw e s' ->
  s' = s \/
  exists cell a y,
    cells s !! c = Some cell /\
    vtype (_value cell) = Types.Merge /\ _master (_value cell) = Some a /\
    cells s !! a = Some y /\
    import_error v s = Some e /\
    s' = MkState (<[a := set__mergeCount (_mergeCount y - 1) y]> (cells s)) (heap s).
Proof.
  intros H.
  destruct (cells s !! c) as [x|] eqn:Hc;
    [|by unfold set_model, bind, get_cell in H; rewrite Hc in H].
  destruct (decide (vtype (_value x) = Types.Merge)) as [Hv|Hv].
  - destruct (_master (_value x)) as [a|] eqn:Ha.
    + destruct (cells s !! a) as [y|] eqn:Hy.
      * pose proof (release_Merge _ _ _ s Hv Ha Hy) as Hr.
        destruct (set_model_released c x v s _ Hc Hr eq_refl) as [_ Hb].
        destruct (Hb _ _ H) as [-> He]. right. by exists x, a, y.
      * exfalso. unfold set_model, bind in H.
        rewrite (get_cell_Some _ _ _ Hc) in H.
        unfold release, releaseMergeRef, upd_cell in H.
        by rewrite Hv, Ha, Hy in H.
    + left. unfold set_model, bind in H.
      rewrite (get_cell_Some _ _ _ Hc) in H.
      rewrite (release_Merge_undefined _ s Hv Ha) in H. by injection H as _ <-.
  - pose proof (release_not_Merge _ s Hv) as Hr.
    destruct (set_model_released c x v s _ Hc Hr eq_refl) as [_ Hb].
    destruct (Hb _ _ H) as [-> _]. by left.
Qed.




(** ** C4: merging and unmerging *)

Lemma get_value_Merge fuel c x m s :
  cells s !! c = Some x ->
  vtype (_value x) = Types.Merge -> _master (_value x) = Some m ->
  get_value (S fuel) c s = get_value fuel m s.
Proof.
  intros Hc Hv Hm. simpl. unfold bind. rewrite (get_cell_Some _ _ _ Hc).
  by rewrite Hv, Hm.
Qed.

Lemma set_value_Merge fuel c x m v s :
  cells s !! c = Some x ->
  vtype (_value x) = Types.Merge -> _master (_value x) = Some m ->
  set_value (S fuel) c v s = set_value fuel m v s.
Proof.
  intros Hc Hv Hm. simpl. unfold bind. rewrite (get_cell_Some _ _ _ Hc).
  by rewrite Hv, Hm.
Qed.

Lemma get_value_not_Merge fuel c x s :
  cells s !! c = Some x -> vtype (_value x) <> Types.Merge ->
  get_value (S fuel) c s = get_value 1 c s.
Proof.
  intros Hc Hv. simpl. unfold bind. rewrite (get_cell_Some _ _ _ Hc).
  by destruct (vtype (_value x)).
Qed.

Lemma set_value_not_Merge_fuel fuel c x v s :
  cells s !! c = Some x -> vtype (_value x) <> Types.Merge ->
  set_value (S fuel) c v s = set_value 1 c v s.
Proof.
  intros Hc Hv.
  by rewrite !(set_value_not_Merge _ _ _ _ _ Hc Hv).
Qed.

(** Reads and writes go to the cell [resolve] names. *)
Lemma resolve_Some fuel : forall c t s,
  resolve fuel c s = Some t ->
  (exists x, cells s !! t = Some x /\ vtype (_value x) <> Types.Merge) /\
  get_value fuel c s = get_value 1 t s /\
  (forall v, set_value fuel c v s = set_value 1 t v s).
Proof.
  induction fuel as [|fuel IH]; intros c t s H; [done|].
  simpl in H. destruct (cells s !! c) as [x|] eqn:Hc; [|done].
  destruct (decide (vtype (_value x) = Types.Merge)) as [Hv|Hv].
  - rewrite Hv in H. destruct (_master (_value x)) as [m|] eqn:Hm; [|done].
    destruct (IH _ _ _ H) as (Ht & Hg & Hs). split; [exact Ht|]. split.
    + by rewrite (get_value_Merge _ _ _ _ _ Hc Hv Hm).
    + intros v. by rewrite (set_value_Merge _ _ _ _ _ _ Hc Hv Hm).
  - assert (t = c) as -> by (destruct (vtype (_value x)); congruence).
    split; [eauto|]. split.
    + by apply (get_value_not_Merge _ _ _ _ Hc Hv).
    + intros v. by apply (set_value_not_Merge_fuel _ _ _ _ _ Hc Hv).
Qed.

(** A value that can be read is read from a cell that [resolve] finds. *)
Lemma get_value_Ok_resolve fuel : forall c s w s',
  get_value fuel c s = Ok w s' -> exists t, resolve fuel c s = Some t.
Proof.
  induction fuel as [|fuel IH]; intros c s w s' H; [done|].
  simpl in H |- *. unfold bind, get_cell in H.
  destruct (cells s !! c) as [x|] eqn:Hc; [|done].
  destruct (vtype (_value x)); eauto.
  destruct (_master (_value x)); [by eapply IH|done].
Qed.

Lemma resolve_ext s s' :
  (forall c, link <$> cells s !! c = link <$> cells s' !! c) ->
  forall fuel c, resolve fuel c s = resolve fuel c s'.
Proof.
  intros H fuel. induction fuel as [|fuel IH]; intros c; [done|].
  simpl. specialize (H c).
  destruct (cells s !! c) as [x|], (cells s' !! c) as [x'|]; try done.
  simpl in H. injection H as H. unfold link in H.
  destruct (vtype (_value x)), (vtype (_value x')); try done.
  injection H as ->. destruct (_master (_value x')); auto.
Qed.

(** Writing a plain scalar to a cell that is not a merge slave. *)
Lemma set_value_scalar t x v s :
  cells s !! t = Some x ->
  vtype (_value x) <> Types.Merge ->
  plain_scalar v ->
  exists T o,
    T <> Types.Merge /\
    let s2 := MkState (<[t := set__value (MkValue T (length (heap s)) None) x]> (cells s))
                      (heap s ++ [o]) in
    set_value 1 t v s = Ok tt s2 /\ get_value 1 t s2 = Ok v s2.
Proof.
  intros Hc Hv Hp.
  assert (Hlen : (t < length (cells s))%nat) by by eapply lookup_lt_Some.
  rewrite (set_value_not_Merge _ _ _ _ _ Hc Hv).
  destruct v; try done; unfold bind at 1; simpl; unfold bind at 1, ret.
  - rewrite (create_Null _ _ _ _ Hc). erewrite upd_cell_Some by exact Hc.
    eexists _, _. split; [|split; [reflexivity|]]; [done|].
    simpl. unfold bind. by rewrite get_cell_upd.
  - unfold create, NumberValue. rewrite (create_Scalar _ _ _ _ _ Hc).
    erewrite upd_cell_Some by exact Hc.
    eexists _, _. split; [|split; [reflexivity|]]; [done|].
    simpl. unfold bind. rewrite get_cell_upd by done. simpl. unfold read.
    rewrite read_prop_alloc_new. simpl. by map_reads.
  - unfold create, StringValue. rewrite (create_Scalar _ _ _ _ _ Hc).
    erewrite upd_cell_Some by exact Hc.
    eexists _, _. split; [|split; [reflexivity|]]; [done|].
    simpl. unfold bind. rewrite get_cell_upd by done. simpl. unfold read.
    rewrite read_prop_alloc_new. simpl. by map_reads.
  - unfold create, DateValue. rewrite (create_Scalar _ _ _ _ _ Hc).
    erewrite upd_cell_Some by exact Hc.
    eexists _, _. split; [|split; [reflexivity|]]; [done|].
    simpl. unfold bind. rewrite get_cell_upd by done. simpl. unfold read.
    rewrite read_prop_alloc_new. simpl. by map_reads.
Qed.

Lemma merge_onto A a B b s :
  A <> B ->
  cells s !! A = Some a -> cells s !! B = Some b ->
  vtype (_value b) <> Types.Merge ->
  exists o,
    merge B (Some A) s =
    Ok tt (MkState
             (<[B := set__value (MkValue Types.Merge (length (heap s)) (Some A)) b]>
                (<[A := set__mergeCount (_mergeCount a + 1) a]> (cells s)))
             (heap s ++ [o])).
Proof.
  intros Hne Ha Hb Hv. eexists. unfold merge.
  unfold bind at 1. rewrite (get_cell_Some _ _ _ Hb).
  unfold bind at 1. rewrite (release_not_Merge _ _ Hv).
  unfold bind at 1. unfold create, MergeValue. simpl.
  unfold bind at 1. rewrite (address_of_Some _ _ _ Hb).
  unfold bind at 1. rewrite (address_of_Some _ _ _ Ha).
  unfold bind at 1. simpl.
  unfold bind at 1. unfold addMergeRef.
  erewrite upd_cell_Some by (simpl; exact Ha). simpl.
  erewrite upd_cell_Some by (simpl; by rewrite list_lookup_insert_ne).
  reflexivity.
Qed.

Lemma unmerge_slave A y B b s :
  A <> B ->
  cells s !! A = Some y -> cells s !! B = Some b ->
  vtype (_value b) = Types.Merge -> _master (_value b) = Some A ->
  exists o,
    unmerge B s =
    Ok tt (MkState
             (<[B := set__value (MkValue Types.Null (length (heap s)) None) b]>
                (<[A := set__mergeCount (_mergeCount y - 1) y]> (cells s)))
             (heap s ++ [o])).
Proof.
  intros Hne Ha Hb Hv Hm. eexists. unfold unmerge.
  unfold bind at 1. rewrite (get_cell_Some _ _ _ Hb). rewrite Hv.
  unfold bind at 1. rewrite (release_Merge _ _ _ _ Hv Hm Ha).
  unfold bind at 1.
  erewrite create_Null by (simpl; by rewrite list_lookup_insert_ne).
  erewrite upd_cell_Some by (simpl; by rewrite list_lookup_insert_ne).
  reflexivity.
Qed.

Lemma unmerge_not_Merge c x s :
  cells s !! c = Some x -> vtype (_value x) <> Types.Merge ->
  unmerge c s = Ok tt s.
Proof.
  intros Hc Hv. unfold unmerge, bind. rewrite (get_cell_Some _ _ _ Hc).
  by destruct (vtype (_value x)).
Qed.

(** After [unmerge] of a slave of [A]: the count of [A] is one lower and
    the slave is a Null cell. *)
Lemma unmerge_slave_effect A y B b s :
  A <> B ->
  cells s !! A = Some y -> cells s !! B = Some b ->
  vtype (_value b) = Types.Merge -> _master (_value b) = Some A ->
  exists s3,
    unmerge B s = Ok tt s3 /\
    _mergeCount <$> cells s3 !! A = Some (_mergeCount y - 1) /\
    type B s3 = Ok Types.Null s3.
Proof.
  intros Hne Ha Hb Hv Hm.
  destruct (unmerge_slave _ _ _ _ _ Hne Ha Hb Hv Hm) as (o & ->).
  assert (HA : (A < length (cells s))%nat) by by eapply lookup_lt_Some.
  assert (HB : (B < length (cells s))%nat) by by eapply lookup_lt_Some.
  eexists. split; [reflexivity|]. simpl. split.
  - rewrite list_lookup_insert_ne by done.
    by rewrite list_lookup_insert_eq.
  - unfold type, bind, get_cell. simpl.
    by rewrite list_lookup_insert_eq by by rewrite length_insert.
Qed.

Lemma get_value_not_Merge_Ok c x s :
  cells s !! c = Some x -> vtype (_value x) <> Types.Merge ->
  exists w s', get_value 1 c s = Ok w s'.
Proof.
  intros Hc Hv. simpl. unfold bind. rewrite (get_cell_Some _ _ _ Hc).
  destruct (vtype (_value x)); try done; simpl; eauto.
Qed.

Lemma isMerged_false c x s :
  cells s !! c = Some x -> isMerged c s = Ok false s ->
  vtype (_value x) <> Types.Merge /\ _mergeCount x <= 0.
Proof.
  intros Hc. unfold isMerged, bind. rewrite (get_cell_Some _ _ _ Hc).
  intros [= H]. apply orb_false_elim in H as [H1 H2]. split.
  - intros Hv. rewrite Hv in H2. done.
  - by apply Z.ltb_ge.
Qed.

(** Merging [B] onto [A], whatever [A] holds: reads and writes through
    [B] are those of [A], one call deeper, and succeed when those of [A]
    do. *)
Lemma merge_through A a B b s :
  A <> B ->
  cells s !! A = Some a -> cells s !! B = Some b ->
  isMerged B s = Ok false s ->
  _mergeCount a = 0 ->
  exists s1,
    merge B (Some A) s = Ok tt s1 /\
    type B s1 = Ok Types.Merge s1 /\
    _mergeCount <$> cells s1 !! A = Some 1 /\
    master B s1 = Ok (VCell A) s1 /\
    isMergedTo B (VCell A) s1 = Ok true s1 /\
    (forall fuel, get_value (S fuel) B s1 = get_value fuel A s1) /\
    (vtype (_value a) <> Types.Merge -> exists w s', get_value 1 A s1 = Ok w s') /\
    (forall fuel w s' v,
       get_value fuel A s1 = Ok w s' -> plain_scalar v ->
       exists s2,
         set_value (S fuel) B v s1 = Ok tt s2 /\
         get_value fuel A s2 = Ok v s2 /\
         get_value (S fuel) B s2 = Ok v s2 /\
         exists s3,
           unmerge B s2 = Ok tt s3 /\
           _mergeCount <$> cells s3 !! A = Some 0 /\
           type B s3 = Ok Types.Null s3) /\
    (exists s3,
       unmerge B s1 = Ok tt s3 /\
       _mergeCount <$> cells s3 !! A = Some 0 /\
       type B s3 = Ok Types.Null s3) /\
    (forall c x s0,
       cells s0 !! c = Some x -> vtype (_value x) <> Types.Merge ->
       unmerge c s0 = Ok tt s0).
Proof.
  intros Hne Ha Hb Hnm Hcount.
  destruct (isMerged_false _ _ _ Hb Hnm) as [Hv _].
  destruct (merge_onto _ _ _ _ _ Hne Ha Hb Hv) as (o & Hmerge).
  assert (HA : (A < length (cells s))%nat) by by eapply lookup_lt_Some.
  assert (HB : (B < length (cells s))%nat) by by eapply lookup_lt_Some.
  set (a1 := set__mergeCount (_mergeCount a + 1) a) in *.
  set (b1 := set__value (MkValue Types.Merge (length (heap s)) (Some A)) b) in *.
  set (s1 := MkState _ _) in Hmerge.
  assert (Ha1 : cells s1 !! A = Some a1).
  { simpl. rewrite list_lookup_insert_ne by done.
    by apply list_lookup_insert_eq. }
  assert (Hb1 : cells s1 !! B = Some b1).
  { simpl. apply list_lookup_insert_eq. by rewrite length_insert. }
  assert (Hun : forall s2 a2,
            cells s2 !! A = Some a2 -> _mergeCount a2 = 1 ->
            cells s2 !! B = Some b1 ->
            exists s3, unmerge B s2 = Ok tt s3 /\
                       _mergeCount <$> cells s3 !! A = Some 0 /\
                       type B s3 = Ok Types.Null s3).
  { intros s2 a2 Ha2 Hc2 Hb2.
    destruct (unmerge_slave_effect A a2 B b1 s2 Hne Ha2 Hb2 eq_refl eq_refl)
      as (s3 & H1 & H2 & H3).
    exists s3. rewrite Hc2 in H2. done. }
  exists s1. split; [exact Hmerge|].
  split; [by unfold type, bind; rewrite (get_cell_Some _ _ _ Hb1)|].
  split; [rewrite Ha1; simpl; by rewrite Hcount|].
  split; [by unfold master, bind; rewrite (get_cell_Some _ _ _ Hb1)|].
  split; [unfold isMergedTo, bind; rewrite (get_cell_Some _ _ _ Hb1); simpl;
          by rewrite Nat.eqb_refl|].
  split; [intros fuel; by apply (get_value_Merge _ _ _ _ _ Hb1)|].
  split; [intros Hva; by apply (get_value_not_Merge_Ok _ _ _ Ha1)|].
  split; [|split; [|exact unmerge_not_Merge]].
  - intros fuel w s' v Hread Hp.
    destruct (get_value_Ok_resolve _ _ _ _ _ Hread) as (t & Ht).
    destruct (resolve_Some _ _ _ _ Ht) as ((x & Hx & Hxv) & Hg & Hs).
    destruct (set_value_scalar _ _ _ _ Hx Hxv Hp) as (T & o2 & HT & Hset & Hget).
    set (s2 := MkState _ _) in Hset, Hget.
    assert (HtB : t <> B) by (intros ->; rewrite Hb1 in Hx; by injection Hx as <-).
    assert (Hb2 : cells s2 !! B = Some b1)
      by (simpl; by rewrite list_lookup_insert_ne).
    assert (Hres : resolve fuel A s2 = Some t).
    { rewrite <- Ht. apply resolve_ext. intros c. simpl.
      destruct (decide (t = c)) as [<-|Hc].
      - rewrite list_lookup_insert_eq by by eapply lookup_lt_Some.
        change (<[B:=b1]> (<[A:=a1]> (cells s))) with (cells s1).
        rewrite Hx. simpl. f_equal. unfold link. simpl.
        destruct T; try done; by destruct (vtype (_value x)).
      - by rewrite list_lookup_insert_ne. }
    destruct (resolve_Some _ _ _ _ Hres) as (_ & Hg2 & _).
    exists s2. split; [|split; [|split]].
    + by rewrite (set_value_Merge _ _ _ _ _ _ Hb1 eq_refl eq_refl), Hs.
    + by rewrite Hg2.
    + by rewrite (get_value_Merge _ _ _ _ _ Hb2 eq_refl eq_refl), Hg2.
    + destruct (decide (t = A)) as [->|HtA].
      * apply (Hun s2 (set__value (MkValue T (length (heap s1)) None) x)).
        -- simpl. apply list_lookup_insert_eq. by rewrite !length_insert.
        -- replace x with a1 by congruence. simpl. by rewrite Hcount.
        -- exact Hb2.
      * apply (Hun s2 a1).
        -- simpl. by rewrite list_lookup_insert_ne.
        -- simpl. by rewrite Hcount.
        -- exact Hb2.
  - apply (Hun s1 a1 Ha1); [simpl; by rewrite Hcount|exact Hb1].
Qed.

(** C4, as the code has it: for two distinct cells [A] and [B], [B] not
    merged, the reference count of [A] zero and [A] not a Merge cell,
    [B.merge(A)] makes [B] a Merge cell whose master is [A], with
    [isMergedTo(A)] true and the count of [A] one; [A.value] and
    [B.value] both return, the same; writing a plain scalar [v] through
    [B] returns and makes both [A.value] and [B.value] read [v];
    [B.unmerge()], right after the merge or after the write, brings the
    count of [A] back to zero and makes [B] a Null cell; and [unmerge] on
    a cell that is not a Merge changes nothing. *)
Theorem merge_then_unmerge A a B b s :
  A <> B ->
  cells s !! A = Some a -> cells s !! B = Some b ->
  isMerged B s = Ok false s ->
  _mergeCount a = 0 ->
  vtype (_value a) <> Types.Merge ->
  exists s1,
    merge B (Some A) s = Ok tt s1 /\
    type B s1 = Ok Types.Merge s1 /\
    _mergeCount <$> cells s1 !! A = Some 1 /\
    master B s1 = Ok (VCell A) s1 /\
    isMergedTo B (VCell A) s1 = Ok true s1 /\
    (exists w s', get_value 1 A s1 = Ok w s' /\ get_value 2 B s1 = Ok w s') /\
    (forall v,
       plain_scalar v ->
       exists s2,
         set_value 2 B v s1 = Ok tt s2 /\
         get_value 1 A s2 = Ok v s2 /\
         get_value 2 B s2 = Ok v s2 /\
         exists s3,
           unmerge B s2 = Ok tt s3 /\
           _mergeCount <$> cells s3 !! A = Some 0 /\
           type B s3 = Ok Types.Null s3) /\
    (exists s3,
       unmerge B s1 = Ok tt s3 /\
       _mergeCount <$> cells s3 !! A = Some 0 /\
       type B s3 = Ok Types.Null s3) /\
    (forall c x s0,
       cells s0 !! c = Some x -> vtype (_value x) <> Types.Merge ->
       unmerge c s0 = Ok tt s0).
Proof.
  intros Hne Ha Hb Hnm Hcount Hva.
  destruct (merge_through A a B b s Hne Ha Hb Hnm Hcount)
    as (s1 & Hm & Ht & Hc & Hma & Hto & Hrd & Hok & Hwr & Hun & Hno).
  destruct (Hok Hva) as (w & s' & Hw).
  exists s1. repeat (split; [assumption|]).
  split; [|split; [|split; [exact Hun|exact Hno]]].
  - exists w, s'. split; [exact Hw|]. by rewrite Hrd.
  - intros v Hv. exact (Hwr 1%nat w s' v Hw Hv).
Qed.

Lemma merge_then_unmerge_witness :
  exists s1 s3,
    merge 1%nat (Some 0%nat) two_cells = Ok tt s1 /\
    type 1%nat s1 = Ok Types.Merge s1 /\
    _mergeCount <$> cells s1 !! 0%nat = Some 1 /\
    unmerge 1%nat s1 = Ok tt s3 /\
    _mergeCount <$> cells s3 !! 0%nat = Some 0 /\
    type 1%nat s3 = Ok Types.Null s3.
Proof.
  destruct (merge_then_unmerge 0%nat
              (MkCell (VObj 0%nat) VUndefined "A1"
                      (MkValue Types.Null 1%nat None) (VObj 2%nat) 0)
              1%nat
              (MkCell (VObj 0%nat) VUndefined "B2"
                      (MkValue Types.Null 3%nat None) (VObj 4%nat) 0)
              two_cells)
    as (s1 & Hm & Ht & Hc & _ & _ & _ & _ & (s3 & Hu & Hc3 & Ht3) & _).
  - lia.
  - reflexivity.
  - reflexivity.
  - reflexivity.
  - reflexivity.
  - discriminate.
  - exists s1, s3. auto 10.
Defined.

(** A slave of itself can neither be read nor written: the calls go on
    for ever. *)
Lemma self_slave_diverges c x s :
  cells s !! c = Some x ->
  vtype (_value x) = Types.Merge -> _master (_value x) = Some c ->
  forall fuel, get_value fuel c s = OutOfFuel /\
               forall v, set_value fuel c v s = OutOfFuel.
Proof.
  intros Hc Hv Hm fuel. induction fuel as [|fuel [IH1 IH2]]; [done|].
  split.
  - by rewrite (get_value_Merge _ _ _ _ _ Hc Hv Hm).
  - intros v. by rewrite (set_value_Merge _ _ _ _ _ _ Hc Hv Hm).
Qed.

(** C4 as stated fails when [A] is a Merge cell without a master, which
    is what the import of a Merge snapshot leaves: [B] is not merged and
    the count of [A] is zero, [B.merge(A)] returns, and then reading
    [B.value] and assigning to it both throw a TypeError.  It fails too
    when [A] and [B] are one cell: the merge returns, and reading or
    assigning the value then never returns. *)
Lemma merge_onto_unreadable_cell :
  (exists s s1,
     set_model 0%nat (VObj 5%nat)
       (MkState (cells two_cells) (heap two_cells ++ [merge_snapshot]))
     = Ok tt s /\
     isMerged 1%nat s = Ok false s /\
     _mergeCount <$> cells s !! 0%nat = Some 0 /\
     merge 1%nat (Some 0%nat) s = Ok tt s1 /\
     type 1%nat s1 = Ok Types.Merge s1 /\
     get_value 3 1%nat s1 = Throw TypeError s1 /\
     set_value 3 1%nat (VNum 1) s1 = Throw TypeError s1) /\
  (exists s1,
     isMerged 0%nat two_cells = Ok false two_cells /\
     _mergeCount <$> cells two_cells !! 0%nat = Some 0 /\
     merge 0%nat (Some 0%nat) two_cells = Ok tt s1 /\
     master 0%nat s1 = Ok (VCell 0%nat) s1 /\
     forall fuel, get_value fuel 0%nat s1 = OutOfFuel /\
                  forall v, set_value fuel 0%nat v s1 = OutOfFuel).
Proof.
  split.
  - eexists _, _. split; [vm_compute; reflexivity|].
    repeat split; vm_compute; reflexivity.
  - eexists. split; [reflexivity|]. split; [reflexivity|].
    split; [vm_compute; reflexivity|]. split; [reflexivity|].
    intros fuel.
    eapply self_slave_diverges; [vm_compute; reflexivity|reflexivity..].
Qed.

(** ** C5: the reference count of a master *)

Lemma ind_nonneg r a : 0 <= ind r a.
Proof. unfold ind. case_decide; lia. Qed.

Lemma count_slaves_nonneg a cs : 0 <= count_slaves a cs.
Proof.
  induction cs as [|x cs IH]; simpl; [lia|].
  pose proof (ind_nonneg (mref x) a). lia.
Qed.

Lemma count_slaves_insert a cs : forall c x y,
  cs !! c = Some x ->
  count_slaves a (<[c := y]> cs)
  = count_slaves a cs - ind (mref x) a + ind (mref y) a.
Proof.
  induction cs as [|z cs IH]; intros c x y H; [done|].
  destruct c as [|c]; simpl in *.
  - injection H as ->. lia.
  - rewrite (IH _ _ _ H). lia.
Qed.

Lemma count_slaves_app a cs y :
  count_slaves a (cs ++ [y]) = count_slaves a cs + ind (mref y) a.
Proof. induction cs as [|z cs IH]; simpl; lia. Qed.

Lemma count_at_insert cs c x y a :
  cs !! c = Some x ->
  count_at (<[c := y]> cs) a
  = count_at cs a + (if decide (a = c) then _mergeCount y - _mergeCount x else 0).
Proof.
  intros H. unfold count_at. case_decide as Hac.
  - subst a. rewrite list_lookup_insert_eq by by eapply lookup_lt_Some.
    rewrite H. lia.
  - rewrite list_lookup_insert_ne by done. lia.
Qed.

Lemma excess_insert cs c x y a :
  cs !! c = Some x ->
  excess (<[c := y]> cs) a
  = excess cs a
    + (if decide (a = c) then _mergeCount y - _mergeCount x else 0)
    + ind (mref x) a - ind (mref y) a.
Proof.
  intros H. unfold excess.
  rewrite (count_at_insert _ _ _ _ _ H), (count_slaves_insert _ _ _ _ _ H). lia.
Qed.

Lemma excess_app cs y a :
  excess (cs ++ [y]) a
  = excess cs a
    + (if decide (a = length cs) then _mergeCount y else 0) - ind (mref y) a.
Proof.
  unfold excess, count_at. rewrite count_slaves_app.
  case_decide as Ha.
  - subst a. rewrite list_lookup_middle by done.
    rewrite (lookup_ge_None_2 cs) by done. lia.
  - destruct (decide (a < length cs)%nat).
    + rewrite lookup_app_l by done. lia.
    + rewrite !(lookup_ge_None_2) by (rewrite ?length_app; simpl; lia). lia.
Qed.

(** *** The effect of each step on the excess *)

Lemma delta_ret {A} (a : A) : delta zero (ret a).
Proof. intros s r s' [= <- <-]. unfold zero. split; [intros; lia|done]. Qed.

Lemma delta_unsupported {A} (d : A -> cref -> Z) : delta d unsupported.
Proof. by intros s r s' H. Qed.

Lemma delta_throw {A} e (d : A -> cref -> Z) : delta d (throw e).
Proof. by intros s r s' H. Qed.

Lemma delta_pure {A} (f : state -> A) : delta zero (fun s => Ok (f s) s).
Proof. intros s r s' [= <- <-]. unfold zero. split; [intros; lia|done]. Qed.

Lemma delta_get_cell c : delta zero (get_cell c).
Proof.
  intros s r s' H. unfold get_cell in H.
  destruct (cells s !! c); [|done]. injection H as <- <-.
  unfold zero. split; [intros; lia|done].
Qed.

Lemma delta_alloc o : delta zero (alloc o).
Proof. intros s r s' [= <- <-]. unfold zero. simpl. split; [intros; lia|done]. Qed.

Lemma delta_write_prop l k v : delta zero (write_prop l k v).
Proof.
  intros s r s' H. unfold write_prop in H. cbv zeta in H. injection H as <- <-.
  unfold zero. simpl. split; [intros; lia|done].
Qed.

Lemma delta_read l k : delta zero (read l k).
Proof. apply delta_pure. Qed.

(** A step followed by a step that keeps the excess. *)
Lemma delta_bind_zero {A B} (m : M A) (k : A -> M B) :
  delta zero m -> (forall a, delta zero (k a)) -> delta zero (bind m k).
Proof.
  intros Hm Hk s r s' H. apply bind_Ok in H as (a & s1 & H1 & H2).
  destruct (Hm _ _ _ H1) as [E1 V1]. destruct (Hk _ _ _ _ H2) as [E2 V2].
  unfold zero in *. split.
  - intros c. rewrite E2, E1. lia.
  - intros c. by rewrite V2, V1.
Qed.

(** Updating a field that is neither the value nor the count. *)
Lemma delta_upd_cell_frame c f :
  (forall x, _value (f x) = _value x /\ _mergeCount (f x) = _mergeCount x) ->
  delta zero (upd_cell c f).
Proof.
  intros Hf s r s' H. unfold upd_cell in H.
  destruct (cells s !! c) as [x|] eqn:Hc; [|done]. injection H as <- <-.
  destruct (Hf x) as [Hv Hn]. unfold zero. simpl. split.
  - intros a. rewrite (excess_insert _ _ _ _ _ Hc). unfold mref.
    rewrite Hv, Hn. case_decide; lia.
  - intros c'. destruct (decide (c = c')) as [<-|Hne].
    + rewrite list_lookup_insert_eq by by eapply lookup_lt_Some.
      rewrite Hc. simpl. by rewrite Hv.
    + by rewrite list_lookup_insert_ne.
Qed.

Create HintDb delta discriminated.
#[export] Hint Resolve delta_unsupported : delta.
#[export] Hint Resolve delta_ret delta_throw delta_pure delta_get_cell
  delta_alloc delta_write_prop delta_read : delta.

Ltac delta_step :=
  first
    [ solve [auto with delta]
    | lazymatch goal with
      | |- delta _ (bind _ _) => apply delta_bind_zero; [|intros ?]
      | |- delta _ (upd_cell _ _) => apply delta_upd_cell_frame; by intros []
      | |- delta _ (match ?x with _ => _ end) => destruct x
      | |- delta _ (let _ := _ in _) => cbv zeta
      end ].

Ltac delta_steps := repeat delta_step.

Lemma yields_ret {A} (P : A -> Prop) a : P a -> yields P (ret a).
Proof. by intros Ha s r s' [= <- <-]. Qed.

Lemma yields_throw {A} (P : A -> Prop) e : yields P (throw e).
Proof. by intros s r s' H. Qed.

Lemma yields_unsupported {A} (P : A -> Prop) : yields P unsupported.
Proof. by intros s r s' H. Qed.

Lemma yields_bind {A B} (P : B -> Prop) (m : M A) (k : A -> M B) :
  (forall a, yields P (k a)) -> yields P (bind m k).
Proof. intros Hk s r s' H. apply bind_Ok in H as (a & s1 & _ & H). by eapply Hk. Qed.

Ltac yields_step :=
  lazymatch goal with
  | |- yields _ (bind _ _) => apply yields_bind; intros ?
  | |- yields _ (ret _) => apply yields_ret
  | |- yields _ (throw _) => apply yields_throw
  | |- yields _ unsupported => apply yields_unsupported
  | |- yields _ (match ?x with _ => _ end) => destruct x
  end.

Lemma delta_bind_l {A B} (d : B -> cref -> Z) (m : M A) (k : A -> M B) :
  delta zero m -> (forall a, delta d (k a)) -> delta d (bind m k).
Proof.
  intros Hm Hk s r s' H. apply bind_Ok in H as (a & s1 & H1 & H2).
  destruct (Hm _ _ _ H1) as [E1 V1]. destruct (Hk _ _ _ _ H2) as [E2 V2].
  unfold zero in *. split.
  - intros c. rewrite E2, E1. lia.
  - intros c. by rewrite V2, V1.
Qed.

Lemma delta_bind_r {A B} (e : cref -> Z) (m : M A) (k : A -> M B) :
  delta (fun _ => e) m -> (forall a, delta zero (k a)) -> delta (fun _ => e) (bind m k).
Proof.
  intros Hm Hk s r s' H. apply bind_Ok in H as (a & s1 & H1 & H2).
  destruct (Hm _ _ _ H1) as [E1 V1]. destruct (Hk _ _ _ _ H2) as [E2 V2].
  unfold zero in *. split.
  - intros c. rewrite E2, E1. lia.
  - intros c. by rewrite V2, V1.
Qed.

Lemma delta_addMergeRef m : delta (fun _ a => ind (Some m) a) (addMergeRef m).
Proof.
  intros s r s' H. unfold addMergeRef, upd_cell in H.
  destruct (cells s !! m) as [x|] eqn:Hm; [|done]. injection H as <- <-.
  simpl. split.
  - intros a. rewrite (excess_insert _ _ _ _ _ Hm). unfold mref, ind. simpl.
    repeat case_decide; simplify_eq; lia.
  - intros c. destruct (decide (m = c)) as [<-|Hne].
    + rewrite list_lookup_insert_eq by by eapply lookup_lt_Some. by rewrite Hm.
    + by rewrite list_lookup_insert_ne.
Qed.

Lemma delta_releaseMergeRef m :
  delta (fun _ a => - ind (Some m) a) (releaseMergeRef m).
Proof.
  intros s r s' H. unfold releaseMergeRef, upd_cell in H.
  destruct (cells s !! m) as [x|] eqn:Hm; [|done]. injection H as <- <-.
  simpl. split.
  - intros a. rewrite (excess_insert _ _ _ _ _ Hm). unfold mref, ind. simpl.
    repeat case_decide; simplify_eq; lia.
  - intros c. destruct (decide (m = c)) as [<-|Hne].
    + rewrite list_lookup_insert_eq by by eapply lookup_lt_Some. by rewrite Hm.
    + by rewrite list_lookup_insert_ne.
Qed.

(** Releasing a value takes its reference away from the count. *)
Lemma delta_release v : delta (fun _ a => - ind (vref v) a) (release v).
Proof.
  unfold release, vref.
  destruct (vtype v);
    try (intros s r s' [= <- <-]; unfold ind; simpl; split; [intros; lia|done]).
  destruct (_master v); [apply delta_releaseMergeRef|apply delta_throw].
Qed.

Lemma delta_address_of c : delta zero (address_of c).
Proof. unfold address_of. delta_steps. Qed.

Lemma delta_hyperlink c : delta zero (hyperlink c).
Proof. unfold hyperlink. delta_steps. Qed.
#[export] Hint Resolve delta_address_of delta_hyperlink : delta.

Lemma delta_get_prop v k : delta zero (get_prop v k).
Proof. destruct v; simpl; delta_steps. Qed.
#[export] Hint Resolve delta_get_prop : delta.

Lemma delta_prop_or_undefined v k : delta zero (prop_or_undefined v k).
Proof. unfold prop_or_undefined. delta_steps. Qed.

Lemma delta_getType v : delta zero (Value.getType v).
Proof. destruct v; simpl; delta_steps. Qed.
#[export] Hint Resolve delta_prop_or_undefined delta_getType : delta.

(** Building a value adds its reference to the count. *)
Lemma delta_create T c value :
  delta (fun v a => ind (vref v) a) (create (Tag T) c value).
Proof.
  assert (Hz : forall (m : M Value),
             delta zero m -> yields (fun v => vref v = None) m ->
             delta (fun v a => ind (vref v) a) m).
  { intros m Hd Hy s r s' H. destruct (Hd _ _ _ H) as [E V].
    split; [|exact V]. intros a. rewrite E, (Hy _ _ _ H). unfold zero, ind.
    case_decide; [done|lia]. }
  unfold create.
  destruct T; try (apply Hz;
    [ unfold NullValue, NumberValue, StringValue, DateValue, ScalarValue,
        HyperlinkValue, FormulaValue; delta_steps
    | unfold NullValue, NumberValue, StringValue, DateValue, ScalarValue,
        HyperlinkValue, FormulaValue; repeat yields_step; reflexivity ]).
  unfold MergeValue.
  destruct value as [| |b|n|t|t|d|l|m];
    try (apply Hz; [delta_steps|repeat yields_step; reflexivity]).
  apply delta_bind_l; [auto with delta|intros ad].
  apply delta_bind_l; [auto with delta|intros ma].
  apply delta_bind_l; [auto with delta|intros l].
  intros s r s' H. apply bind_Ok in H as ([] & s1 & H1 & [= <- <-]).
  destruct (delta_addMergeRef _ _ _ _ H1) as [E V]. split; [|exact V].
  intros a'. by rewrite E.
Qed.

(** Installing a value in a cell. *)
Lemma excess_set_value c v s s' :
  upd_cell c (set__value v) s = Ok tt s' ->
  exists x, cells s !! c = Some x /\
    forall a, excess (cells s') a
              = excess (cells s) a + ind (mref x) a - ind (vref v) a.
Proof.
  unfold upd_cell. destruct (cells s !! c) as [x|] eqn:Hc; [|done].
  intros [= <-]. exists x. split; [done|]. intros a. simpl.
  rewrite (excess_insert _ _ _ _ _ Hc). unfold mref. simpl.
  case_decide; lia.
Qed.

Lemma value_of_same s s' c x x' :
  (forall c, _value <$> cells s' !! c = _value <$> cells s !! c) ->
  cells s !! c = Some x -> cells s' !! c = Some x' -> _value x' = _value x.
Proof. intros H Hx Hx'. specialize (H c). rewrite Hx, Hx' in H. by injection H. Qed.

(** *** Every member that returns keeps the excess *)

Lemma keeps_of_delta {A} (m : M A) : delta zero m -> keeps_excess m.
Proof.
  intros H s r s' Hm a. destruct (H _ _ _ Hm) as [E _].
  rewrite E. unfold zero. lia.
Qed.

Lemma keeps_bind {A B} (m : M A) (k : A -> M B) :
  keeps_excess m -> (forall a, keeps_excess (k a)) -> keeps_excess (bind m k).
Proof.
  intros Hm Hk s r s' H a. apply bind_Ok in H as (x & s1 & H1 & H2).
  by rewrite (Hk _ _ _ _ H2), (Hm _ _ _ H1).
Qed.

Lemma keeps_upd_cell c f :
  (forall x, mref (f x) = mref x /\ _mergeCount (f x) = _mergeCount x) ->
  keeps_excess (upd_cell c f).
Proof.
  intros Hf s r s' H a. unfold upd_cell in H.
  destruct (cells s !! c) as [x|] eqn:Hc; [|done]. injection H as <- <-.
  destruct (Hf x) as [Hv Hn]. simpl.
  rewrite (excess_insert _ _ _ _ _ Hc), Hv, Hn. case_decide; lia.
Qed.

Lemma get_cell_Ok c s x s' :
  get_cell c s = Ok x s' -> s' = s /\ cells s !! c = Some x.
Proof. unfold get_cell. destruct (cells s !! c); [|done]. by intros [= <- <-]. Qed.

(** Release the old value, build the new one, install it. *)
Lemma replace_keeps c x t value s s' :
  cells s !! c = Some x ->
  (release (_value x) ;; v <- create (Tag t) c value ;;
   upd_cell c (set__value v)) s = Ok tt s' ->
  forall a, excess (cells s') a = excess (cells s) a.
Proof.
  intros Hc H a.
  apply bind_Ok in H as ([] & s1 & Hr & H).
  apply bind_Ok in H as (v & s2 & Hcr & H).
  destruct (delta_release _ _ _ _ Hr) as [E1 V1].
  destruct (delta_create _ _ _ _ _ _ Hcr) as [E2 V2].
  destruct (excess_set_value _ _ _ _ H) as (x2 & Hx2 & E3).
  assert (Hv : _value x2 = _value x).
  { eapply (value_of_same s s2); [|exact Hc|exact Hx2].
    intros c'. by rewrite V2, V1. }
  rewrite E3, E2, E1. unfold mref. rewrite Hv. lia.
Qed.

Lemma merge_keeps c m : keeps_excess (merge c m).
Proof.
  intros s r s' H a. unfold merge in H.
  apply bind_Ok in H as (x & s0 & Hx & H).
  apply get_cell_Ok in Hx as [-> Hc]. destruct r.
  by eapply replace_keeps.
Qed.

Lemma unmerge_keeps c : keeps_excess (unmerge c).
Proof.
  intros s r s' H a. unfold unmerge in H.
  apply bind_Ok in H as (x & s0 & Hx & H).
  apply get_cell_Ok in Hx as [-> Hc]. destruct r.
  destruct (vtype (_value x)); try (by injection H as <-).
  by eapply replace_keeps.
Qed.

Lemma set_value_keeps fuel : forall c v, keeps_excess (set_value fuel c v).
Proof.
  induction fuel as [|fuel IH]; intros c v s r s' H a; [done|].
  simpl in H. apply bind_Ok in H as (x & s0 & Hx & H).
  apply get_cell_Ok in Hx as [-> Hc]. destruct r.
  assert (Hnm : (release (_value x) ;; t <- Value.getType v ;;
                 nv <- create (Tag t) c v ;; upd_cell c (set__value nv)) s
                = Ok tt s' ->
                excess (cells s') a = excess (cells s) a).
  { intros H'. apply bind_Ok in H' as ([] & s1 & Hr & H').
    apply bind_Ok in H' as (t & s2 & Ht & H').
    pose proof (getType_same_store _ _ _ _ Ht) as ->.
    eapply (replace_keeps c x t v); [exact Hc|].
    unfold bind at 1. rewrite Hr. exact H'. }
  destruct (vtype (_value x)); try (by apply Hnm).
  destruct (_master (_value x)); [by eapply IH|done].
Qed.

(** Re-targeting a MergeValue. *)
Lemma retarget_keeps c x n s s' :
  cells s !! c = Some x -> vtype (_value x) = Types.Merge ->
  (match _master (_value x) with
   | Some m => releaseMergeRef m
   | None => ret tt
   end ;;
   addMergeRef n ;;
   upd_cell c (fun y =>
     set__value (MkValue (vtype (_value y)) (model (_value y)) (Some n)) y)) s
  = Ok tt s' ->
  forall a, excess (cells s') a = excess (cells s) a.
Proof.
  intros Hc Hv H a.
  apply bind_Ok in H as ([] & s1 & Hr & H).
  apply bind_Ok in H as ([] & s2 & Ha & H).
  assert (E1 : (forall a, excess (cells s1) a
                          = excess (cells s) a - ind (mref x) a) /\
               (forall c, _value <$> cells s1 !! c = _value <$> cells s !! c)).
  { unfold mref, vref. rewrite Hv. destruct (_master (_value x)).
    - destruct (delta_releaseMergeRef _ _ _ _ Hr) as [E V]. split; [|exact V].
      intros a'. rewrite E. lia.
    - injection Hr as <-. split; [|done]. intros a'. unfold ind.
      case_decide; [done|lia]. }
  destruct E1 as [E1 V1].
  destruct (delta_addMergeRef _ _ _ _ Ha) as [E2 V2].
  unfold upd_cell in H. destruct (cells s2 !! c) as [x2|] eqn:Hx2; [|done].
  injection H as <-. simpl.
  assert (Hx : _value x2 = _value x).
  { eapply (value_of_same s s2); [|exact Hc|exact Hx2].
    intros c'. by rewrite V2, V1. }
  rewrite (excess_insert _ _ _ _ _ Hx2), E2, E1.
  unfold mref at 2 3. unfold vref. simpl. rewrite Hx, Hv.
  unfold mref, vref. rewrite Hv. case_decide; lia.
Qed.

Lemma Value_set_value_keeps fuel c v : keeps_excess (Value_set_value fuel c v).
Proof.
  intros s r s' H a. unfold Value_set_value in H.
  apply bind_Ok in H as (x & s0 & Hx & H).
  apply get_cell_Ok in Hx as [-> Hc]. destruct r. cbv zeta in H.
  destruct (vtype (_value x)) eqn:Hv.
  - by injection H as <-.
  - revert a. eapply keeps_of_delta; [|exact H]. delta_steps.
  - revert a. eapply keeps_of_delta; [|exact H]. delta_steps.
  - revert a. eapply keeps_of_delta; [|exact H]. delta_steps.
  - revert a. eapply keeps_of_delta; [|exact H]. delta_steps.
  - revert a. eapply keeps_of_delta; [|exact H]. delta_steps.
  - destruct v; try (destruct (_master (_value x));
                     [by eapply set_value_keeps|done]).
    by eapply retarget_keeps.
Qed.

Lemma set_model_keeps c m : keeps_excess (set_model c m).
Proof.
  intros s r s' H a. unfold set_model in H.
  apply bind_Ok in H as (x & s0 & Hx & H).
  apply get_cell_Ok in Hx as [-> Hc]. destruct r.
  apply bind_Ok in H as ([] & s1 & Hr & H).
  destruct m as [| |b|n|t|t|d|m|c'];
    try (by unfold create, bind, throw, unsupported in H).
  apply bind_Ok in H as (t & s1' & Ht & H). injection Ht as <- <-.
  apply bind_Ok in H as (v & s2 & Hcr & H).
  apply bind_Ok in H as ([] & s3 & Hu & H).
  destruct (read_key m s1) as [T|k].
  2:{ by apply create_Other_not_Ok in Hcr. }
  assert (E3 : excess (cells s3) a = excess (cells s) a).
  { eapply (replace_keeps c x T VUndefined); [exact Hc|].
    unfold bind at 1. rewrite Hr. unfold bind. by rewrite Hcr. }
  rewrite <- E3. clear E3. revert a.
  match type of H with ?rest s3 = _ => assert (K : keeps_excess rest) end;
    [|exact (K _ _ _ H)].
  apply keeps_bind.
  - apply keeps_upd_cell. by intros [].
  - intros _. apply keeps_bind; [apply keeps_of_delta; auto with delta|].
    intros st. destruct (truthy st).
    + apply keeps_upd_cell. by intros [].
    + apply keeps_bind; [apply keeps_of_delta; auto with delta|].
      intros l. apply keeps_upd_cell. by intros [].
Qed.

Lemma get_value_delta fuel : forall c, delta zero (get_value fuel c).
Proof.
  induction fuel as [|fuel IH]; intros c; simpl; [by intros s r s' H|].
  delta_steps.
Qed.

Lemma upgradeToHyperlink_keeps c link : keeps_excess (_upgradeToHyperlink c link).
Proof.
  intros s r s' H a. unfold _upgradeToHyperlink in H.
  apply bind_Ok in H as (x & s0 & Hx & H).
  apply get_cell_Ok in Hx as [-> Hc]. destruct r.
  destruct (vtype (_value x)) eqn:Hv; try (by injection H as <-).
  apply bind_Ok in H as (o & s1 & Ho & H). injection Ho as <- <-.
  apply bind_Ok in H as (v & s2 & Hcr & H).
  destruct (delta_create _ _ _ _ _ _ Hcr) as [E2 V2].
  destruct (excess_set_value _ _ _ _ H) as (x2 & Hx2 & E3).
  assert (Hx : _value x2 = _value x)
    by (eapply (value_of_same _ s2); [exact V2|exact Hc|exact Hx2]).
  rewrite E3, E2. simpl. unfold mref. rewrite Hx. unfold vref at 2.
  rewrite Hv. unfold ind at 2. case_decide; [done|lia].
Qed.

(** The constructor, on an owner and a valid address. *)
Lemma new_Cell_Ok va r address s :
  truthy r = true -> va address = true ->
  new_Cell va r address s =
  Ok (length (cells s))
     (MkState
        (cells s ++
           [MkCell r VUndefined address
                   (MkValue Types.Null (length (heap s)) None)
                   (VObj (S (length (heap s)))) 0])
        ((heap s ++ [Obj (Some Types.Null) {[ "address" := VStr address ]}])
           ++ [empty_obj])).
Proof.
  intros Hr Hva. unfold new_Cell. rewrite Hr, Hva. simpl.
  unfold bind at 1. unfold bind at 1.
  erewrite create_Null by (simpl; by apply list_lookup_middle). simpl.
  unfold bind at 1.
  erewrite upd_cell_Some by (simpl; by apply list_lookup_middle). simpl.
  unfold bind at 1. simpl. unfold bind at 1.
  erewrite upd_cell_Some
    by (simpl; apply list_lookup_insert_eq; rewrite length_app; simpl; lia).
  simpl. unfold bind at 1.
  erewrite upd_cell_Some
    by (simpl; apply list_lookup_insert_eq;
        rewrite !length_insert, length_app; simpl; lia).
  simpl. unfold ret. rewrite !list_insert_insert_eq.
  replace (length (cells s)) with (length (cells s) + 0)%nat at 2 by lia.
  rewrite insert_app_r. simpl. by rewrite length_app_one.
Qed.

Lemma new_Cell_keeps va r address : keeps_excess (new_Cell va r address).
Proof.
  intros s c s' H a.
  destruct (truthy r) eqn:Hr;
    [|unfold new_Cell in H; rewrite Hr in H; done].
  destruct (va address) eqn:Hva;
    [|unfold new_Cell in H; rewrite Hr, Hva in H; done].
  rewrite (new_Cell_Ok _ _ _ _ Hr Hva) in H. injection H as <- <-.
  simpl. rewrite excess_app. simpl. unfold mref, vref, ind. simpl.
  repeat case_decide; try done; lia.
Qed.

Lemma exec_keeps va l2n o : keeps_excess (exec va l2n o).
Proof.
  destruct o; simpl.
  - apply keeps_of_delta. delta_steps.
  - apply keeps_of_delta. delta_steps.
  - apply keeps_bind; [apply new_Cell_keeps|intros ?; apply keeps_of_delta; delta_steps].
  - apply merge_keeps.
  - apply unmerge_keeps.
  - apply keeps_of_delta. apply delta_bind_zero; [apply get_value_delta|intros ?; delta_steps].
  - apply set_value_keeps.
  - apply Value_set_value_keeps.
  - apply upgradeToHyperlink_keeps.
  - apply keeps_of_delta. unfold get_model. delta_steps.
  - apply set_model_keeps.
  - apply keeps_of_delta. unfold row. delta_steps.
  - apply keeps_of_delta. unfold col. delta_steps.
Qed.

Lemma reachable_counts_exact va l2n s : reachable va l2n s -> counts_exact s.
Proof.
  induction 1 as [|s o s' _ IH H].
  - intros a. reflexivity.
  - intros a. rewrite (exec_keeps _ _ _ _ _ _ H). apply IH.
Qed.

Lemma count_lookup_insert_frame (l : list Cell) B y z A :
  l !! B = Some y -> _mergeCount z = _mergeCount y ->
  _mergeCount <$> <[B := z]> l !! A = _mergeCount <$> l !! A.
Proof.
  intros Hy Hz. destruct (decide (B = A)) as [<-|Hne].
  - rewrite list_lookup_insert_eq by by eapply lookup_lt_Some.
    rewrite Hy. simpl. by rewrite Hz.
  - by rewrite list_lookup_insert_ne.
Qed.

(** Re-targeting the slave [B] from its master [A] to [C]. *)
Lemma retarget_counts fuel B b A xa C xc s :
  A <> C ->
  cells s !! B = Some b ->
  vtype (_value b) = Types.Merge -> _master (_value b) = Some A ->
  cells s !! A = Some xa -> cells s !! C = Some xc ->
  exists s',
    Value_set_value fuel B (VCell C) s = Ok tt s' /\
    _mergeCount <$> cells s' !! A = Some (_mergeCount xa - 1) /\
    _mergeCount <$> cells s' !! C = Some (_mergeCount xc + 1) /\
    master B s' = Ok (VCell C) s'.
Proof.
  intros Hne Hb Hv Hm Ha Hc.
  assert (HA : (A < length (cells s))%nat) by by eapply lookup_lt_Some.
  assert (HB : (B < length (cells s))%nat) by by eapply lookup_lt_Some.
  assert (HC : (C < length (cells s))%nat) by by eapply lookup_lt_Some.
  set (l1 := <[A := set__mergeCount (_mergeCount xa - 1) xa]> (cells s)).
  set (l2 := <[C := set__mergeCount (_mergeCount xc + 1) xc]> l1).
  assert (Hc1 : l1 !! C = Some xc) by (unfold l1; by rewrite list_lookup_insert_ne).
  destruct (lookup_lt_is_Some_2 l2 B) as [y Hy];
    [unfold l2, l1; by rewrite !length_insert|].
  assert (Hyv : vtype (_value y) = Types.Merge).
  { unfold l2, l1 in Hy.
    destruct (decide (C = B)) as [->|HCB].
    - rewrite list_lookup_insert_eq in Hy by by rewrite length_insert.
      injection Hy as <-. simpl. replace xc with b by congruence. done.
    - rewrite list_lookup_insert_ne in Hy by done.
      destruct (decide (A = B)) as [->|HAB].
      + rewrite list_lookup_insert_eq in Hy by done.
        injection Hy as <-. simpl. replace xa with b by congruence. done.
      + rewrite list_lookup_insert_ne in Hy by done.
        replace y with b by congruence. done. }
  eexists. split.
  - unfold Value_set_value. unfold bind at 1. rewrite (get_cell_Some _ _ _ Hb).
    cbv zeta. rewrite Hv, Hm.
    unfold bind at 1. unfold releaseMergeRef.
    rewrite (upd_cell_Some _ _ _ _ Ha).
    unfold bind at 1. unfold addMergeRef.
    erewrite upd_cell_Some by (simpl; exact Hc1). simpl.
    erewrite upd_cell_Some by (simpl; exact Hy). reflexivity.
  - simpl. fold l1. fold l2. split; [|split].
    + rewrite (count_lookup_insert_frame _ _ _ _ _ Hy) by done.
      unfold l2. rewrite list_lookup_insert_ne by done.
      unfold l1. by rewrite list_lookup_insert_eq.
    + rewrite (count_lookup_insert_frame _ _ _ _ _ Hy) by done.
      unfold l2. by rewrite list_lookup_insert_eq by (unfold l1; by rewrite length_insert).
    + unfold master, bind, get_cell. simpl. fold l1. fold l2.
      rewrite list_lookup_insert_eq by (unfold l2, l1; by rewrite !length_insert).
      simpl. by rewrite Hyv.
Qed.

(** C5, as the code has it: in every store reached from the empty one by
    operations that return (creating cells, merge, unmerge, assigning a
    value, re-targeting the MergeValue a cell holds, importing and
    exporting a model, the getters, and the caller's own object writes),
    the reference count of every cell is the number of cells whose Merge
    value has it as master, and so is not negative; there, re-targeting
    a slave from [A] to another cell [C] returns, takes exactly one from
    the count of [A] and adds exactly one to the count of [C], and the
    counts are exact again afterwards.  A MergeValue that its cell has
    replaced, and direct calls of [release], [addMergeRef] and
    [releaseMergeRef], are not among these operations. *)
Theorem counts_of_reachable va l2n s :
  reachable va l2n s ->
  (forall a x, cells s !! a = Some x ->
     _mergeCount x = count_slaves a (cells s) /\ 0 <= _mergeCount x) /\
  (forall fuel B b A xa C xc,
     A <> C ->
     cells s !! B = Some b ->
     vtype (_value b) = Types.Merge -> _master (_value b) = Some A ->
     cells s !! A = Some xa -> cells s !! C = Some xc ->
     exists s',
       Value_set_value fuel B (VCell C) s = Ok tt s' /\
       _mergeCount <$> cells s' !! A = Some (_mergeCount xa - 1) /\
       _mergeCount <$> cells s' !! C = Some (_mergeCount xc + 1) /\
       master B s' = Ok (VCell C) s' /\
       forall a x, cells s' !! a = Some x ->
         _mergeCount x = count_slaves a (cells s')).
Proof.
  intros Hr. pose proof (reachable_counts_exact _ _ _ Hr) as Hx.
  assert (Hex : forall s0, counts_exact s0 ->
            forall a x, cells s0 !! a = Some x ->
                        _mergeCount x = count_slaves a (cells s0)).
  { intros s0 H0 a x Ha. specialize (H0 a). unfold excess, count_at in H0.
    rewrite Ha in H0. lia. }
  split.
  - intros a x Ha. rewrite (Hex _ Hx _ _ Ha). split; [done|].
    apply count_slaves_nonneg.
  - intros fuel B b A xa C xc Hne Hb Hv Hm Ha Hc.
    destruct (retarget_counts fuel _ _ _ _ _ _ _ Hne Hb Hv Hm Ha Hc)
      as (s' & Hs & HA & HC & HM).
    exists s'. repeat (split; [done|]).
    apply Hex. intros a.
    rewrite (Value_set_value_keeps _ _ _ _ _ _ Hs). apply Hx.
Qed.

Lemma reachable_run va l2n ops : forall s s',
  reachable va l2n s -> run_returning va l2n ops s = Some s' ->
  reachable va l2n s'.
Proof.
  induction ops as [|o ops IH]; intros s s' Hr H; simpl in H.
  - by injection H as <-.
  - destruct (exec va l2n o s) as [[] s1| | | |] eqn:He; try done.
    eapply IH; [|exact H]. by eapply reachable_step.
Qed.

Lemma merged_pair_reachable :
  reachable (fun _ => true) (fun _ => 0) merged_pair.
Proof.
  apply (reachable_run _ _
           [Op_alloc empty_obj; Op_new (VObj 0%nat) "A1";
            Op_new (VObj 0%nat) "B2"; Op_merge 1%nat (Some 0%nat)]
           empty_state).
  - apply reachable_init.
  - vm_compute. reflexivity.
Qed.

Lemma counts_of_reachable_witness :
  _mergeCount <$> cells merged_pair !! 0%nat = Some 1 /\
  count_slaves 0%nat (cells merged_pair) = 1 /\
  count_slaves 1%nat (cells merged_pair) = 0.
Proof.
  destruct (counts_of_reachable _ _ _ merged_pair_reachable) as [H _].
  destruct (cells merged_pair !! 0%nat) as [x0|] eqn:H0; [|discriminate].
  destruct (cells merged_pair !! 1%nat) as [x1|] eqn:H1; [|discriminate].
  destruct (H _ _ H0) as [E0 _]. destruct (H _ _ H1) as [E1 _].
  rewrite <- E0, <- E1.
  injection H0 as <-. injection H1 as <-. repeat split.
Defined.

Lemma run_steps va l2n ops : forall s s',
  run va l2n ops s = Some s' -> steps va l2n s s'.
Proof.
  induction ops as [|o ops IH]; intros s s' H; simpl in H.
  - injection H as <-. apply steps_refl.
  - destruct (after va l2n o s) as [s1|] eqn:Ha; [|done].
    eapply steps_step; [exact Ha|by apply IH].
Qed.

(** C5 as stated fails, in three ways.  (1) Two imports throw, each
    after releasing the merge value of B2, which stays installed; A1
    still has its one slave and its reference count is -1.  (2) [release]
    called by the caller: the Merge value of B2 is released once directly
    and once more by [unmerge]; every call returns and A1 is left with
    the count -1.  (3) A Merge value that the caller took from a cell and
    kept can be re-targeted after the cell has replaced and released it:
    B2, merged onto A1, is unmerged, and its former value is then pointed
    at C3; every call returns, A1 is left with the count -1 and C3 with
    the count 1, and neither has a slave. *)
Lemma counts_can_go_negative :
  (exists s,
     run (fun _ => true) (fun _ => 0) failing_imports empty_state = Some s /\
     steps (fun _ => true) (fun _ => 0) empty_state s /\
     _mergeCount <$> cells s !! 0%nat = Some (-1) /\
     count_slaves 0%nat (cells s) = 1 /\
     master 1%nat s = Ok (VCell 0%nat) s) /\
  (exists v s1 s2,
     reachable (fun _ => true) (fun _ => 0) merged_pair /\
     _value <$> cells merged_pair !! 1%nat = Some v /\
     release v merged_pair = Ok tt s1 /\
     unmerge 1%nat s1 = Ok tt s2 /\
     _mergeCount <$> cells s2 !! 0%nat = Some (-1) /\
     count_slaves 0%nat (cells s2) = 0) /\
  (exists v s1 v' s2,
     reachable (fun _ => true) (fun _ => 0) merged_of_three /\
     _value <$> cells merged_of_three !! 1%nat = Some v /\
     unmerge 1%nat merged_of_three = Ok tt s1 /\
     MergeValue_set_value 0 v (VCell 2%nat) s1 = Ok v' s2 /\
     _mergeCount <$> cells s2 !! 0%nat = Some (-1) /\
     count_slaves 0%nat (cells s2) = 0 /\
     _mergeCount <$> cells s2 !! 2%nat = Some 1 /\
     count_slaves 2%nat (cells s2) = 0).
Proof.
  split; [|split].
  - assert (H : exists s, run (fun _ => true) (fun _ => 0) failing_imports
                            empty_state = Some s)
      by (eexists; vm_compute; reflexivity).
    destruct H as (s & H). exists s. split; [exact H|].
    split; [by apply run_steps in H|].
    vm_compute in H. injection H as <-. repeat split.
  - eexists _, _, _. split; [exact merged_pair_reachable|].
    split; [vm_compute; reflexivity|].
    split; [vm_compute; reflexivity|].
    split; [vm_compute; reflexivity|].
    repeat split.
  - eexists _, _, _, _. split.
    { apply (reachable_run _ _
               [Op_alloc empty_obj; Op_new (VObj 0%nat) "A1";
                Op_new (VObj 0%nat) "B2"; Op_new (VObj 0%nat) "C3";
                Op_merge 1%nat (Some 0%nat)]
               empty_state).
      - apply reachable_init.
      - vm_compute. reflexivity. }
    split; [vm_compute; reflexivity|].
    split; [vm_compute; reflexivity|].
    split; [vm_compute; reflexivity|].
    repeat split.
Qed.

(** ** C8: the dependencies of a formula *)

(** If the continuation fails wherever the repetition may stop, the
    repetition fails. *)
Lemma rep_fail {A} p (k : list ascii -> option A) : forall hi lo s,
  (forall s', suffix s' s -> k s' = None) -> rep p lo hi s k = None.
Proof.
  induction hi as [|hi IH]; intros lo s Hk.
  - destruct s; simpl; (destruct (Nat.eqb lo 0); [by apply Hk|done]).
  - destruct s as [|c s]; simpl.
    + destruct (Nat.eqb lo 0); [by apply Hk|done].
    + assert (Hstop : (if Nat.eqb lo 0 then k (c :: s) else None) = None)
        by (destruct (Nat.eqb lo 0); [by apply Hk|done]).
      rewrite Hstop. destruct (p c); [|done].
      rewrite IH; [done|]. intros s' Hs. apply Hk. by apply suffix_cons_r.
Qed.

(** A run of the class, bounded by a character outside the class or by
    the upper bound, is taken whole when the continuation then succeeds. *)
Lemma rep_greedy {A} p (k : list ascii -> option A) rest x : forall taken lo hi,
  Forall (fun c => p c = true) taken ->
  (lo <= length taken <= hi)%nat ->
  match rest with c :: _ => p c = false | [] => True end \/ length taken = hi ->
  k rest = Some x ->
  rep p lo hi (taken ++ rest) k = Some x.
Proof.
  intros taken. induction taken as [|c taken IH]; intros lo hi Hrun Hlen Hrest Hk.
  - simpl in Hlen. assert (lo = 0%nat) as -> by lia. simpl.
    destruct hi as [|hi]; simpl.
    + by destruct rest.
    + destruct rest as [|c rest]; [done|].
      destruct Hrest as [->|Hrest]; [done|]. simpl in Hrest. lia.
  - simpl in Hlen. destruct hi as [|hi]; [lia|].
    inversion Hrun as [|? ? Hc Hrun']; subst. simpl. rewrite Hc.
    rewrite (IH (Nat.pred lo) hi); [done|done|lia| |done].
    destruct Hrest as [Hrest|Hrest]; [by left|right; simpl in Hrest; lia].
Qed.

Lemma upper_not_digit c : is_upper c = true -> is_digit c = false.
Proof.
  unfold is_upper, is_digit. intros H.
  apply andb_true_iff in H as [H1 H2]. apply Nat.leb_le in H1, H2.
  apply andb_false_iff. right. apply Nat.leb_gt. lia.
Qed.

Lemma digit_not_upper c : is_digit c = true -> is_upper c = false.
Proof.
  unfold is_upper, is_digit. intros H.
  apply andb_true_iff in H as [H1 H2]. apply Nat.leb_le in H1, H2.
  apply andb_false_iff. left. apply Nat.leb_gt. lia.
Qed.

Lemma upper_not_bang c : is_upper c = true -> Ascii.eqb bang c = false.
Proof. intros H. destruct (Ascii.eqb_spec bang c) as [<-|]; [done|done]. Qed.

Lemma digit_not_bang c : is_digit c = true -> Ascii.eqb bang c = false.
Proof. intros H. destruct (Ascii.eqb_spec bang c) as [<-|]; [done|done]. Qed.

Lemma head_not_class {p q : ascii -> bool} l rest :
  (forall c, q c = true -> p c = false) ->
  Forall (fun c => q c = true) l -> (1 <= length l)%nat ->
  match (l ++ rest)%list with c :: _ => p c = false | [] => True end.
Proof.
  intros Hpq Hl Hlen. destruct l as [|c l]; [simpl in Hlen; lia|].
  simpl. apply Hpq. by inversion Hl.
Qed.

Lemma no_prefix_in_range r k :
  range_shaped r ->
  rmatch (Seq (Class is_alnum 1 None) (Lit bang)) (range_text r) k
  = @None (list ascii).
Proof.
  intros ((Hc1 & _ & Hr1 & _) & (Hc2 & _ & Hr2 & _)).
  change (rmatch (Seq (Class is_alnum 1 None) (Lit bang)) (range_text r) k)
    with (rep is_alnum 1 (length (range_text r)) (range_text r)
            (fun s' => match s' with
                       | c' :: s'' => if Ascii.eqb bang c' then k s'' else None
                       | [] => None
                       end)).
  apply rep_fail. intros s' Hs.
  destruct s' as [|c s']; [done|].
  assert (Hin : c ∈ range_text r).
  { destruct Hs as (pre & ->). apply elem_of_app. right. by left. }
  unfold range_text in Hin.
  rewrite !elem_of_app, elem_of_cons, elem_of_app in Hin.
  rewrite Forall_forall in Hc1, Hr1, Hc2, Hr2.
  destruct Hin as [H|[H|[->|[H|H]]]].
  - by rewrite (upper_not_bang _ (Hc1 _ H)).
  - by rewrite (digit_not_bang _ (Hr1 _ H)).
  - done.
  - by rewrite (upper_not_bang _ (Hc2 _ H)).
  - by rewrite (digit_not_bang _ (Hr2 _ H)).
Qed.

Lemma rmatch_Seq {A} r1 r2 s (k : list ascii -> option A) :
  rmatch (Seq r1 r2) s k = rmatch r1 s (fun s' => rmatch r2 s' k).
Proof. reflexivity. Qed.

Lemma rmatch_Opt {A} r1 s (k : list ascii -> option A) :
  rmatch (Opt r1) s k = optOr (rmatch r1 s k) (k s).
Proof. reflexivity. Qed.

Lemma rmatch_Class {A} p lo hi s (k : list ascii -> option A) :
  rmatch (Class p lo (Some hi)) s k = rep p lo hi s k.
Proof. reflexivity. Qed.

Lemma rmatch_Lit_cons {A} c s (k : list ascii -> option A) :
  rmatch (Lit c) (c :: s) k = k s.
Proof. simpl. by rewrite Ascii.eqb_refl. Qed.

(** The range pattern matches the whole text of a range. *)
Lemma match_here_range r :
  range_shaped r -> match_here re_range (range_text r) = Some [].
Proof.
  intros Hr. pose proof Hr as ((Hc1 & Hl1 & Hr1 & Hd1) & (Hc2 & Hl2 & Hr2 & Hd2)).
  unfold match_here, re_range.
  rewrite rmatch_Seq, rmatch_Opt.
  change (Lit "!") with (Lit bang).
  rewrite (no_prefix_in_range _ _ Hr). unfold optOr.
  rewrite rmatch_Seq, rmatch_Class. unfold range_text.
  rewrite <- (app_nil_r (row2 r)).
  apply rep_greedy; [done|lia| |].
  { left. apply (@head_not_class is_upper is_digit (row1 r));
      [apply digit_not_upper|done|lia]. }
  rewrite rmatch_Seq, rmatch_Class.
  apply rep_greedy; [done|lia|by left|].
  rewrite rmatch_Seq. change (Lit ":") with (Lit colon). rewrite rmatch_Lit_cons.
  rewrite rmatch_Seq, rmatch_Class.
  apply rep_greedy; [done|lia| |].
  { left. apply (@head_not_class is_upper is_digit (row2 r));
      [apply digit_not_upper|done|lia]. }
  rewrite rmatch_Class.
  apply rep_greedy; [done|lia|by left|done].
Qed.

Lemma range_text_nonempty r : range_shaped r -> (0 < length (range_text r))%nat.
Proof.
  intros ((_ & Hl & _) & _). unfold range_text. rewrite length_app. lia.
Qed.

Lemma scan_range r :
  range_shaped r ->
  scan (S (length (range_text r))) re_range (range_text r) = ([range_text r], []).
Proof.
  intros Hr. pose proof (range_text_nonempty _ Hr) as Hlen.
  cbn [scan]. rewrite (match_here_range _ Hr).
  replace (length [] <? length (range_text r))%nat with true
    by (symmetry; apply Nat.ltb_lt; simpl; lia).
  destruct (length (range_text r)) as [|n] eqn:E; [lia|].
  cbn [scan]. replace (match_here re_range []) with (@None (list ascii))
    by reflexivity.
  unfold matched. simpl length. rewrite Nat.sub_0_r.
  by rewrite firstn_all.
Qed.

(** A formula that is one range has that range, and no cell. *)
Lemma dependencies_of_range r :
  range_shaped r ->
  Formula.dependencies_of (string_of_list_ascii (range_text r))
  = Formula.Deps (Some [string_of_list_ascii (range_text r)]) None.
Proof.
  intros Hr. unfold Formula.dependencies_of, js_match_g, js_replace_g_empty,
    match_all, remove_all.
  rewrite list_ascii_of_string_of_list_ascii, (scan_range _ Hr). reflexivity.
Qed.

Lemma js_match_g_not_empty re f : js_match_g re f <> Some [].
Proof.
  unfold js_match_g. by destruct (match_all re (list_ascii_of_string f)).
Qed.

(** Taking a range out joins the text on either side of it: here the
    cell reported occurs nowhere in the formula. *)
Lemma dependencies_joined_text :
  Formula.dependencies_of "WXYZA1:B12345"
  = Formula.Deps (Some ["YZA1:B1234"]) (Some ["WX5"]).
Proof. vm_compute. reflexivity. Qed.

(** C8 as stated fails on a formula without references: neither
    collection is an empty array, both are [null]. *)
Lemma dependencies_without_references_are_null :
  Formula.ranges (Formula.dependencies_of "1+2") = None /\
  Formula.cells (Formula.dependencies_of "1+2") = None /\
  Formula.ranges (Formula.dependencies_of "1+2") <> Some [] /\
  Formula.cells (Formula.dependencies_of "1+2") <> Some [].
Proof. repeat split; vm_compute; congruence. Qed.

(** ** Instances *)

Lemma get_model_exposes_snapshot_witness :
  exists s',
    get_model 0%nat one_cell = Ok 1%nat s' /\
    read_prop 1%nat "style" s' = VObj 2%nat.
Proof.
  destruct (get_model_exposes_snapshot (fun _ => true) (fun _ => 0) 0%nat
              (MkCell (VObj 0%nat) VUndefined "A1"
                      (MkValue Types.Null 1%nat None) (VObj 2%nat) 0)
              one_cell)
    as (s' & Hg & _ & Hs & _).
  - reflexivity.
  - simpl. lia.
  - by exists s'.
Defined.

(** * Further properties of the members *)

(** ** The constructor *)

(** X1: [new Cell(row, address)] fails with MissingOwner on a falsy owner,
    before the address is looked at, and with InvalidAddress on an address
    the validator refuses, leaving the store alone both times; otherwise
    it returns a new cell and changes no existing cell or object.  The
    new cell has the given address and owner, is a Null cell reading
    [null], is not merged, is its own master, and has an empty style. *)
Theorem new_Cell_behaviour va r address s :
  (truthy r = false -> new_Cell va r address s = Throw MissingOwner s) /\
  (truthy r = true -> va address = false ->
   new_Cell va r address s = Throw InvalidAddress s) /\
  (truthy r = true -> va address = true ->
   exists s',
     let c := length (cells s) in
     new_Cell va r address s = Ok c s' /\
     (forall c' x, cells s !! c' = Some x -> cells s' !! c' = Some x) /\
     (forall l o, heap s !! l = Some o -> heap s' !! l = Some o) /\
     address_of c s' = Ok address s' /\
     Value_address c s' = Ok (VStr address) s' /\
     row c s' = Ok r s' /\
     type c s' = Ok Types.Null s' /\
     get_value 1 c s' = Ok VNull s' /\
     isMerged c s' = Ok false s' /\
     master c s' = Ok (VCell c) s' /\
     forall k, get_style 1 c k s' = Ok VUndefined s').
Proof.
  split; [|split].
  - intros Hr. unfold new_Cell. by rewrite Hr.
  - intros Hr Hva. unfold new_Cell. by rewrite Hr, Hva.
  - intros Hr Hva. eexists. cbv zeta.
    split; [apply (new_Cell_Ok _ _ _ _ Hr Hva)|].
    set (x := MkCell r VUndefined address _ _ 0).
    set (s' := MkState _ _).
    assert (Hx : cells s' !! length (cells s) = Some x)
      by (simpl; by apply list_lookup_middle).
    split; [intros c' y Hy; simpl; by apply lookup_app_l_Some|].
    split; [intros l o Ho; simpl; by do 2 apply lookup_app_l_Some|].
    split; [by rewrite (address_of_Some _ _ _ Hx)|].
    split.
    { unfold Value_address, bind. rewrite (get_cell_Some _ _ _ Hx).
      unfold read. simpl model. unfold s'.
      rewrite (read_prop_alloc_old _ (cells s'))
        by (rewrite length_app_one; lia).
      rewrite read_prop_alloc_new. simpl. by map_reads. }
    split; [by rewrite (row_is_owner _ _ _ Hx Hr)|].
    split; [unfold type, bind; by rewrite (get_cell_Some _ _ _ Hx)|].
    split; [simpl; unfold bind; by rewrite (get_cell_Some _ _ _ Hx)|].
    split; [unfold isMerged, bind; by rewrite (get_cell_Some _ _ _ Hx)|].
    split; [unfold master, bind; by rewrite (get_cell_Some _ _ _ Hx)|].
    intros k. simpl. unfold bind. rewrite (get_cell_Some _ _ _ Hx).
    unfold x. cbn [style]. unfold read, read_prop, get_obj, s'. cbn [heap].
    rewrite (list_lookup_middle _ [] empty_obj (S (length (heap s))))
      by by rewrite length_app_one.
    done.
Qed.

Lemma new_Cell_behaviour_witness :
  new_Cell (fun _ => true) VNull "A1" one_cell = Throw MissingOwner one_cell /\
  exists s', new_Cell (fun _ => true) (VObj 0%nat) "B2" one_cell = Ok 1%nat s'.
Proof.
  destruct (new_Cell_behaviour (fun _ => true) VNull "A1" one_cell) as (H1 & _).
  destruct (new_Cell_behaviour (fun _ => true) (VObj 0%nat) "B2" one_cell)
    as (_ & _ & H3).
  split; [by apply H1|].
  destruct (H3 eq_refl eq_refl) as (s' & Hs & _). by exists s'.
Defined.

(** ** Style accessors *)

Lemma style_key_name_inj k k' : style_key_name k = style_key_name k' -> k = k'.
Proof. by destruct k, k'. Qed.

Lemma get_style_obj fuel c x l k s :
  cells s !! c = Some x -> style x = VObj l ->
  get_style (S fuel) c k s = Ok (read_prop l (style_key_name k) s) s.
Proof.
  intros Hc Hs. simpl. unfold bind. rewrite (get_cell_Some _ _ _ Hc).
  by rewrite Hs.
Qed.

Lemma set_style_prop_obj fuel c x l k v s :
  cells s !! c = Some x -> style x = VObj l ->
  set_style_prop (S fuel) c k v s = write_prop l (style_key_name k) v s.
Proof.
  intros Hc Hs. simpl. unfold bind. rewrite (get_cell_Some _ _ _ Hc).
  by rewrite Hs.
Qed.


(** X2: on a cell whose style is a plain object, assigning one of the
    five formatting properties returns, changes no cell, and is read back
    by the getter of that property; the four other properties read as
    before; every cell that holds the same style object reads the new
    value too, and a cell with another style object reads what it read. *)
Theorem style_set_then_get fuel c x l k v s :
  cells s !! c = Some x -> style x = VObj l -> (l < length (heap s))%nat ->
  exists s',
    set_style_prop (S fuel) c k v s = Ok tt s' /\
    cells s' = cells s /\
    get_style (S fuel) c k s' = Ok v s' /\
    (forall k', k' <> k ->
       get_style (S fuel) c k' s'
       = Ok (read_prop l (style_key_name k') s) s') /\
    (forall c' y, cells s !! c' = Some y -> style y = VObj l ->
       get_style (S fuel) c' k s' = Ok v s') /\
    (forall c' y l' k', cells s !! c' = Some y -> style y = VObj l' -> l' <> l ->
       get_style (S fuel) c' k' s'
       = Ok (read_prop l' (style_key_name k') s) s').
Proof.
  intros Hc Hs Hl.
  destruct (write_prop l (style_key_name k) v s) as [[] s'| | | |] eqn:Hw;
    try discriminate.
  assert (Hcs : cells s' = cells s) by (by injection Hw as <-).
  exists s'. split; [by rewrite (set_style_prop_obj _ _ _ _ _ _ _ Hc Hs)|].
  split; [done|].
  assert (Hsame : forall c' y, cells s !! c' = Some y -> style y = VObj l ->
            get_style (S fuel) c' k s' = Ok v s').
  { intros c' y Hy Hys. rewrite <- Hcs in Hy.
    rewrite (get_style_obj _ _ _ _ _ _ Hy Hys).
    by rewrite (read_prop_write_eq _ _ _ _ Hl _ Hw). }
  split; [by eapply Hsame|]. split; [|split; [exact Hsame|]].
  - intros k' Hk. pose proof Hc as Hc'. rewrite <- Hcs in Hc'.
    rewrite (get_style_obj _ _ _ _ _ _ Hc' Hs).
    rewrite (read_prop_write_ne _ _ _ _ _
               (fun E => Hk (eq_sym (style_key_name_inj _ _ E))) _ Hw).
    done.
  - intros c' y l' k' Hy Hys Hne. rewrite <- Hcs in Hy.
    rewrite (get_style_obj _ _ _ _ _ _ Hy Hys).
    by rewrite (read_prop_write_other _ _ _ _ _ _ _ (not_eq_sym Hne) Hw).
Qed.

Lemma style_set_then_get_witness :
  exists s',
    set_style_prop 1 0%nat font (VStr "Arial") one_cell = Ok tt s' /\
    get_style 1 0%nat font s' = Ok (VStr "Arial") s'.
Proof.
  destruct (style_set_then_get 0 0%nat
              (MkCell (VObj 0%nat) VUndefined "A1"
                      (MkValue Types.Null 1%nat None) (VObj 2%nat) 0)
              2%nat font (VStr "Arial") one_cell)
    as (s' & H1 & _ & H2 & _).
  - reflexivity.
  - reflexivity.
  - simpl. lia.
  - by exists s'.
Defined.



(** ** Merging again, onto oneself, onto nothing *)

(** X4: [B.merge(C)] on a cell [B] that is the slave of [A] ([B] being
    neither [A] nor [C]) moves it: [B] is then the slave of [C] and no
    longer merged to [A] unless [C] is [A]; when [C] differs from [A] the
    count of [A] is one lower and the count of [C] one higher, and when
    [C] is [A] the count is what it was; the model of [B] names the
    address of [C] as its master. *)
Theorem merge_moves_slave A a B b C c0 s :
  B <> A -> B <> C ->
  cells s !! A = Some a -> cells s !! B = Some b -> cells s !! C = Some c0 ->
  vtype (_value b) = Types.Merge -> _master (_value b) = Some A ->
  exists s',
    merge B (Some C) s = Ok tt s' /\
    master B s' = Ok (VCell C) s' /\
    isMergedTo B (VCell C) s' = Ok true s' /\
    (A <> C -> isMergedTo B (VCell A) s' = Ok false s') /\
    (A <> C -> _mergeCount <$> cells s' !! A = Some (_mergeCount a - 1) /\
               _mergeCount <$> cells s' !! C = Some (_mergeCount c0 + 1)) /\
    (A = C -> _mergeCount <$> cells s' !! A = Some (_mergeCount a)) /\
    exists m s'',
      get_model B s' = Ok m s'' /\
      read_type m s'' = Some Types.Merge /\
      read_prop m "master" s'' = VStr (_address c0).
Proof.
  intros HBA HBC Ha Hb Hc Hv Hm.
  assert (HA : (A < length (cells s))%nat) by by eapply lookup_lt_Some.
  assert (HB : (B < length (cells s))%nat) by by eapply lookup_lt_Some.
  assert (HC : (C < length (cells s))%nat) by by eapply lookup_lt_Some.
  set (a1 := set__mergeCount (_mergeCount a - 1) a).
  set (l1 := <[A := a1]> (cells s)).
  assert (Hb1 : l1 !! B = Some b)
    by (unfold l1; by rewrite list_lookup_insert_ne).
  set (c1 := if decide (A = C) then a1 else c0).
  assert (Hc1 : l1 !! C = Some c1).
  { unfold l1, c1. case_decide as E.
    - subst C. by apply list_lookup_insert_eq.
    - by rewrite list_lookup_insert_ne. }
  assert (Hadr : _address c1 = _address c0).
  { unfold c1. case_decide as E; [|done]. subst C. simpl. congruence. }
  set (c2 := set__mergeCount (_mergeCount c1 + 1) c1).
  set (l2 := <[C := c2]> l1).
  assert (Hb2 : l2 !! B = Some b)
    by (unfold l2; by rewrite list_lookup_insert_ne).
  set (nv := MkValue Types.Merge (length (heap s)) (Some C)).
  set (o := Obj (Some Types.Merge)
                (<[ "master" := VStr (_address c1) ]>
                   {[ "address" := VStr (_address b) ]})).
  set (s' := MkState (<[B := set__value nv b]> l2) (heap s ++ [o])).
  assert (Hs : merge B (Some C) s = Ok tt s').
  { unfold merge. unfold bind at 1. rewrite (get_cell_Some _ _ _ Hb).
    unfold bind at 1. rewrite (release_Merge _ _ _ _ Hv Hm Ha). fold a1 l1.
    unfold bind at 1. unfold create, MergeValue. simpl val_of_master. cbv iota.
    unfold bind at 1. erewrite address_of_Some by (simpl; exact Hb1).
    unfold bind at 1. erewrite address_of_Some by (simpl; exact Hc1).
    unfold bind at 1. simpl.
    unfold bind at 1. unfold addMergeRef.
    erewrite upd_cell_Some by (simpl; exact Hc1). simpl.
    erewrite upd_cell_Some by (simpl; exact Hb2). reflexivity. }
  assert (HbS : cells s' !! B = Some (set__value nv b)).
  { simpl. apply list_lookup_insert_eq. unfold l2, l1.
    by rewrite !length_insert. }
  exists s'. split; [exact Hs|].
  split; [unfold master, bind; by rewrite (get_cell_Some _ _ _ HbS)|].
  split; [unfold isMergedTo, bind; rewrite (get_cell_Some _ _ _ HbS); simpl;
          by rewrite Nat.eqb_refl|].
  split.
  { intros HAC. unfold isMergedTo, bind. rewrite (get_cell_Some _ _ _ HbS).
    simpl. by rewrite (proj2 (Nat.eqb_neq A C) HAC). }
  split.
  { intros HAC. simpl. rewrite !(list_lookup_insert_ne _ B) by done.
    unfold l2. split.
    - rewrite list_lookup_insert_ne by done. unfold l1.
      by rewrite list_lookup_insert_eq.
    - rewrite list_lookup_insert_eq by (unfold l1; by rewrite length_insert).
      unfold c2, c1. by rewrite decide_False. }
  split.
  { intros <-. simpl. rewrite list_lookup_insert_ne by done. unfold l2.
    rewrite list_lookup_insert_eq by (unfold l1; by rewrite length_insert).
    unfold c2, c1. rewrite decide_True by done. simpl. f_equal. lia. }
  assert (Ho : get_obj (length (heap s)) s' = o)
    by (unfold s'; apply get_obj_alloc_new).
  set (o' := Obj (o_type o) (<[ "style" := style b ]> (o_props o))).
  set (s'' := MkState (cells s') (<[length (heap s) := o']> (heap s'))).
  assert (Hg : get_model B s' = Ok (length (heap s)) s'').
  { rewrite (get_model_Some _ _ _ HbS). unfold s'', o'. cbn [model set__value _value nv].
    by rewrite Ho. }
  assert (Ho'' : get_obj (length (heap s)) s'' = o').
  { unfold get_obj, s''. cbn [heap].
    by rewrite list_lookup_insert_eq by (unfold s'; cbn [heap]; rewrite length_app_one; lia). }
  exists (length (heap s)), s''. split; [exact Hg|]. split.
  - unfold read_type. by rewrite Ho''.
  - unfold read_prop. rewrite Ho''. unfold o', o. cbn [o_props].
    map_reads. by rewrite Hadr.
Qed.

Lemma merge_moves_slave_witness :
  exists s',
    merge 1%nat (Some 2%nat) merged_of_three = Ok tt s' /\
    master 1%nat s' = Ok (VCell 2%nat) s' /\
    _mergeCount <$> cells s' !! 0%nat = Some 0 /\
    _mergeCount <$> cells s' !! 2%nat = Some 1.
Proof.
  destruct (merge_moves_slave
              0%nat (MkCell (VObj 0%nat) VUndefined "A1"
                            (MkValue Types.Null 1%nat None) (VObj 2%nat) 1)
              1%nat (MkCell (VObj 0%nat) VUndefined "B2"
                            (MkValue Types.Merge 7%nat (Some 0%nat))
                            (VObj 4%nat) 0)
              2%nat (MkCell (VObj 0%nat) VUndefined "C3"
                            (MkValue Types.Null 5%nat None) (VObj 6%nat) 0)
              merged_of_three)
    as (s' & Hs & Hm & _ & _ & Hn & _).
  - lia.
  - lia.
  - vm_compute; reflexivity.
  - vm_compute; reflexivity.
  - vm_compute; reflexivity.
  - reflexivity.
  - reflexivity.
  - exists s'. destruct Hn as [HA HC]; [lia|]. auto.
Defined.

(** X5: [A.merge(A)] on a cell that is not a slave returns and makes
    the cell a slave of itself, with its count one higher; from then on
    reading or assigning its value never returns, at any call depth,
    while [type], [master] and [toCsvString] still answer; [unmerge]
    undoes it. *)
Theorem merge_onto_itself c x s :
  cells s !! c = Some x -> vtype (_value x) <> Types.Merge ->
  exists s1,
    merge c (Some c) s = Ok tt s1 /\
    type c s1 = Ok Types.Merge s1 /\
    master c s1 = Ok (VCell c) s1 /\
    _mergeCount <$> cells s1 !! c = Some (_mergeCount x + 1) /\
    (forall ti ts, toCsvString ti ts c s1 = Ok (VStr "") s1) /\
    (forall fuel, get_value fuel c s1 = OutOfFuel) /\
    (forall fuel v, set_value fuel c v s1 = OutOfFuel) /\
    exists s2,
      unmerge c s1 = Ok tt s2 /\
      type c s2 = Ok Types.Null s2 /\
      _mergeCount <$> cells s2 !! c = Some (_mergeCount x).
Proof.
  intros Hc Hv.
  assert (Hlen : (c < length (cells s))%nat) by by eapply lookup_lt_Some.
  set (x1 := set__mergeCount (_mergeCount x + 1) x).
  set (nv := MkValue Types.Merge (length (heap s)) (Some c)).
  set (o := Obj (Some Types.Merge)
                (<[ "master" := VStr (_address x) ]>
                   {[ "address" := VStr (_address x) ]})).
  set (s1 := MkState (<[c := set__value nv x1]> (cells s)) (heap s ++ [o])).
  assert (Hs : merge c (Some c) s = Ok tt s1).
  { unfold merge. unfold bind at 1. rewrite (get_cell_Some _ _ _ Hc).
    unfold bind at 1. rewrite (release_not_Merge _ _ Hv).
    unfold bind at 1. unfold create, MergeValue. simpl val_of_master. cbv iota.
    unfold bind at 1. rewrite (address_of_Some _ _ _ Hc).
    unfold bind at 1. rewrite (address_of_Some _ _ _ Hc).
    unfold bind at 1. simpl.
    unfold bind at 1. unfold addMergeRef.
    erewrite upd_cell_Some by (simpl; exact Hc). simpl.
    erewrite upd_cell_Some by (simpl; by apply list_lookup_insert_eq).
    simpl. by rewrite list_insert_insert_eq. }
  assert (Hc1 : cells s1 !! c = Some (set__value nv x1))
    by (simpl; by apply list_lookup_insert_eq).
  exists s1. split; [exact Hs|].
  split; [unfold type, bind; by rewrite (get_cell_Some _ _ _ Hc1)|].
  split; [unfold master, bind; by rewrite (get_cell_Some _ _ _ Hc1)|].
  split; [by rewrite Hc1|].
  split; [intros ti ts; unfold toCsvString, bind;
          by rewrite (get_cell_Some _ _ _ Hc1)|].
  split; [intros fuel; by apply (self_slave_diverges _ _ _ Hc1)|].
  split; [intros fuel v; by apply (self_slave_diverges _ _ _ Hc1)|].
  eexists. split.
  - unfold unmerge. unfold bind at 1. rewrite (get_cell_Some _ _ _ Hc1).
    change (_value (set__value nv x1)) with nv. cbn [vtype nv].
    unfold bind at 1.
    rewrite (release_Merge nv c (set__value nv x1) s1 eq_refl eq_refl Hc1).
    unfold bind at 1.
    erewrite create_Null
      by (simpl; apply list_lookup_insert_eq; by rewrite length_insert).
    erewrite upd_cell_Some
      by (simpl; apply list_lookup_insert_eq; by rewrite length_insert).
    reflexivity.
  - simpl. rewrite !list_insert_insert_eq. split.
    + unfold type, bind, get_cell. simpl.
      by rewrite list_lookup_insert_eq.
    + rewrite list_lookup_insert_eq by done. simpl. f_equal. lia.
Qed.

Lemma merge_onto_itself_witness :
  exists s1,
    merge 0%nat (Some 0%nat) one_cell = Ok tt s1 /\
    get_value 5 0%nat s1 = OutOfFuel.
Proof.
  destruct (merge_onto_itself 0%nat
              (MkCell (VObj 0%nat) VUndefined "A1"
                      (MkValue Types.Null 1%nat None) (VObj 2%nat) 0)
              one_cell)
    as (s1 & H1 & _ & _ & _ & _ & H2 & _).
  - reflexivity.
  - discriminate.
  - exists s1. split; [exact H1|apply H2].
Defined.

(** X6: [cell.merge()] with no master makes a Merge cell whose master is
    [undefined].  Such a cell, however it came about, refuses every
    replacement of its value: [merge], [unmerge], assigning the value or
    the model, and reading the value all throw a TypeError and leave the
    store as it was.  Assigning a Cell to the variant itself is what
    gives it a master again. *)
Theorem merge_without_master :
  (forall c x s,
     cells s !! c = Some x -> vtype (_value x) <> Types.Merge ->
     exists s1 x1,
       merge c None s = Ok tt s1 /\
       cells s1 !! c = Some x1 /\
       vtype (_value x1) = Types.Merge /\ _master (_value x1) = None /\
       _mergeCount x1 = _mergeCount x /\
       master c s1 = Ok VUndefined s1 /\
       forall c', c' <> c -> cells s1 !! c' = cells s !! c') /\
  (forall c x s,
     cells s !! c = Some x ->
     vtype (_value x) = Types.Merge -> _master (_value x) = None ->
     (forall m, merge c m s = Throw TypeError s) /\
     unmerge c s = Throw TypeError s /\
     (forall fuel v, set_value (S fuel) c v s = Throw TypeError s) /\
     (forall fuel, get_value (S fuel) c s = Throw TypeError s) /\
     (forall m, set_model c m s = Throw TypeError s) /\
     (forall fuel n y, cells s !! n = Some y ->
        exists s', Value_set_value fuel c (VCell n) s = Ok tt s' /\
                   master c s' = Ok (VCell n) s')).
Proof.
  split.
  - intros c x s Hc Hv.
    assert (Hlen : (c < length (cells s))%nat) by by eapply lookup_lt_Some.
    eexists _, _. split.
    + unfold merge. unfold bind at 1. rewrite (get_cell_Some _ _ _ Hc).
      unfold bind at 1. rewrite (release_not_Merge _ _ Hv).
      unfold bind at 1. unfold create, MergeValue. simpl val_of_master.
      cbv iota. simpl truthy. cbv iota.
      unfold bind at 1. rewrite (address_of_Some _ _ _ Hc).
      unfold bind at 1. simpl.
      erewrite upd_cell_Some by (simpl; exact Hc). reflexivity.
    + simpl. split; [by apply list_lookup_insert_eq|].
      repeat (split; [reflexivity|]). split.
      * unfold master, bind, get_cell. simpl.
        by rewrite list_lookup_insert_eq.
      * intros c' Hne. by rewrite list_lookup_insert_ne.
  - intros c x s Hc Hv Hm.
    pose proof (release_Merge_undefined _ s Hv Hm) as Hr.
    split; [|split; [|split; [|split; [|split]]]].
    + intros m. unfold merge, bind. rewrite (get_cell_Some _ _ _ Hc).
      by rewrite Hr.
    + unfold unmerge, bind. rewrite (get_cell_Some _ _ _ Hc).
      by rewrite Hv, Hr.
    + intros fuel v. simpl. unfold bind. rewrite (get_cell_Some _ _ _ Hc).
      by rewrite Hv, Hm.
    + intros fuel. simpl. unfold bind. rewrite (get_cell_Some _ _ _ Hc).
      by rewrite Hv, Hm.
    + intros m. unfold set_model, bind. rewrite (get_cell_Some _ _ _ Hc).
      by rewrite Hr.
    + intros fuel n y Hn.
      assert (Hlen : (c < length (cells s))%nat) by by eapply lookup_lt_Some.
      set (l1 := <[n := set__mergeCount (_mergeCount y + 1) y]> (cells s)).
      destruct (lookup_lt_is_Some_2 l1 c) as [z Hz];
        [unfold l1; by rewrite length_insert|].
      eexists. split.
      * unfold Value_set_value. unfold bind at 1.
        rewrite (get_cell_Some _ _ _ Hc). cbv zeta. rewrite Hv, Hm.
        unfold bind at 1. unfold ret at 1.
        unfold bind at 1. unfold addMergeRef.
        rewrite (upd_cell_Some _ _ _ _ Hn). fold l1.
        erewrite upd_cell_Some by (simpl; exact Hz). reflexivity.
      * unfold master, bind, get_cell. simpl.
        rewrite list_lookup_insert_eq by (unfold l1; by rewrite length_insert).
        simpl.
        assert (Hzv : vtype (_value z) = Types.Merge).
        { unfold l1 in Hz. destruct (decide (n = c)) as [->|Hne].
          - rewrite list_lookup_insert_eq in Hz by done.
            injection Hz as <-. simpl. replace y with x by congruence. done.
          - rewrite list_lookup_insert_ne in Hz by done.
            replace z with x by congruence. done. }
        by rewrite Hzv.
Qed.

Lemma merge_without_master_witness :
  exists s1,
    merge 0%nat None one_cell = Ok tt s1 /\
    unmerge 0%nat s1 = Throw TypeError s1.
Proof.
  destruct merge_without_master as [H1 H2].
  destruct (H1 0%nat
              (MkCell (VObj 0%nat) VUndefined "A1"
                      (MkValue Types.Null 1%nat None) (VObj 2%nat) 0)
              one_cell eq_refl)
    as (s1 & x1 & Hs & Hc & Hv & Hm & _).
  - discriminate.
  - exists s1. split; [exact Hs|].
    by destruct (H2 _ _ _ Hc Hv Hm) as (_ & Hu & _).
Defined.

(** X7: [_upgradeToHyperlink(link)] acts on a String cell only: any other
    cell is left as it is.  A String cell becomes a Hyperlink cell whose
    hyperlink is [link] and whose snapshot keeps the cell's address; the
    text of the string is not carried over, the text of the new value is
    [undefined], whatever the string was.  Style and merge count stay. *)
Theorem upgradeToHyperlink_behaviour c x link s :
  cells s !! c = Some x ->
  (vtype (_value x) <> Types.String ->
     _upgradeToHyperlink c link s = Ok tt s) /\
  (vtype (_value x) = Types.String ->
     exists s' x',
       _upgradeToHyperlink c link s = Ok tt s' /\
       cells s' !! c = Some x' /\
       type c s' = Ok Types.Hyperlink s' /\
       isHyperlink c s' = Ok true s' /\
       hyperlink c s' = Ok link s' /\
       read_prop (model (_value x')) "text" s' = VUndefined /\
       read_prop (model (_value x')) "address" s' = VStr (_address x) /\
       style x' = style x /\ _mergeCount x' = _mergeCount x /\
       (forall c', c' <> c -> cells s' !! c' = cells s !! c') /\
       (forall l, (l < length (heap s))%nat -> heap s' !! l = heap s !! l)).
Proof.
  intros Hc. split.
  - intros Hv. unfold _upgradeToHyperlink, bind.
    rewrite (get_cell_Some _ _ _ Hc). by destruct (vtype (_value x)).
  - intros Hv.
    assert (Hlen : (c < length (cells s))%nat) by by eapply lookup_lt_Some.
    set (o := Obj None (<[ "hyperlink" := link ]> {[ "text" := VUndefined ]})).
    set (s1 := MkState (cells s) (heap s ++ [o])).
    assert (Hc1 : cells s1 !! c = Some x) by exact Hc.
    pose proof (create_Hyperlink c x (length (heap s)) s1 Hc1) as Hcr.
    eexists _, _. split; [|split].
    + unfold _upgradeToHyperlink. unfold bind at 1.
      rewrite (get_cell_Some _ _ _ Hc). rewrite Hv.
      unfold bind at 1. unfold alloc. fold o. fold s1.
      unfold bind at 1. rewrite Hcr.
      erewrite upd_cell_Some by (simpl; exact Hc). reflexivity.
    + simpl. by apply list_lookup_insert_eq.
    + unfold type, isHyperlink, hyperlink, bind, get_cell. simpl.
      rewrite list_lookup_insert_eq by done. simpl.
      rewrite !length_app_one.
      split; [done|]. split; [done|].
      assert (Hk : forall k cs,
                read_prop (S (length (heap s))) k
                  (MkState cs
                     ((heap s ++ [o]) ++
                      [Obj (Some Types.Hyperlink)
                         (<[ "hyperlink" := read_prop (length (heap s)) "hyperlink" s1 ]>
                            (<[ "text" := read_prop (length (heap s)) "text" s1 ]>
                               {[ "address" := VStr (_address x) ]}))])) =
                default VUndefined
                  ((<[ "hyperlink" := read_prop (length (heap s)) "hyperlink" s1 ]>
                            (<[ "text" := read_prop (length (heap s)) "text" s1 ]>
                               ({[ "address" := VStr (_address x) ]} : gmap string val)))
                     !! k)).
      { intros k cs.
        rewrite <- (length_app_one (heap s) o).
        by rewrite read_prop_alloc_new. }
      assert (Hh : read_prop (length (heap s)) "hyperlink" s1 = link).
      { unfold s1. rewrite read_prop_alloc_new. unfold o. simpl. by map_reads. }
      assert (Ht : read_prop (length (heap s)) "text" s1 = VUndefined).
      { unfold s1. rewrite read_prop_alloc_new. unfold o. simpl. by map_reads. }
      rewrite !Hk. rewrite Hh, Ht.
      split; [by map_reads|]. split; [by map_reads|]. split; [by map_reads|].
      split; [done|]. split; [done|]. split.
      * intros c' Hne. by rewrite list_lookup_insert_ne.
      * intros l Hl. rewrite <- app_assoc. by rewrite lookup_app_l.
Qed.

Lemma upgradeToHyperlink_behaviour_witness :
  _upgradeToHyperlink 0%nat (VStr "http://a") one_cell = Ok tt one_cell.
Proof.
  refine (proj1 (upgradeToHyperlink_behaviour 0%nat _ _ one_cell eq_refl) _).
  discriminate.
Defined.

(** X8: [FormulaValue.prototype.validate] lets through [null],
    [undefined], strings, numbers and dates and nothing else: an object
    of Hyperlink or Formula shape is an unsupported result, any other
    object, a boolean or a Cell is not understood at all; the store is
    never touched.  Assignment does not consult it: a formula payload is
    stored with whatever [result] it carries. *)
Theorem validate_behaviour :
  (forall value s,
     validate value s =
     match value with
     | VUndefined | VNull | VStr _ | VStrObj _ | VNum _ | VDate _ => Ok tt s
     | VObj l =>
         if truthy (read_prop l "text" s) && truthy (read_prop l "hyperlink" s)
            || truthy (read_prop l "formula" s)
         then Throw UnsupportedResultType s
         else Throw UnrecognizedType s
     | VBool _ | VCell _ => Throw UnrecognizedType s
     end) /\
  (forall fuel c x l s,
     cells s !! c = Some x -> vtype (_value x) <> Types.Merge ->
     truthy (read_prop l "text" s) = false ->
     truthy (read_prop l "formula" s) = true ->
     exists s' x',
       set_value (S fuel) c (VObj l) s = Ok tt s' /\
       cells s' !! c = Some x' /\
       vtype (_value x') = Types.Formula /\
       read_prop (model (_value x')) "result" s' = read_prop l "result" s).
Proof.
  split.
  - intros value s. unfold validate. unfold bind at 1.
    rewrite getType_spec.
    destruct value as [| |b|n|t|t|d|l|c]; try reflexivity.
    simpl. unfold nonempty.
    destruct (truthy (read_prop l "text" s)),
             (truthy (read_prop l "hyperlink" s)),
             (truthy (read_prop l "formula" s)); reflexivity.
  - intros fuel c x l s Hc Hv Ht Hf.
    assert (Hlen : (c < length (cells s))%nat) by by eapply lookup_lt_Some.
    eexists _, _. split; [|split].
    + rewrite (set_value_not_Merge _ _ _ _ _ Hc Hv).
      unfold bind at 1. rewrite getType_spec. simpl. unfold nonempty.
      rewrite Ht, Hf. simpl.
      unfold bind at 1. rewrite (create_Formula _ _ _ _ Hc).
      erewrite upd_cell_Some by (simpl; exact Hc). reflexivity.
    + simpl. by apply list_lookup_insert_eq.
    + simpl. split; [reflexivity|].
      rewrite read_prop_alloc_new. simpl. by map_reads.
Qed.

Lemma validate_behaviour_witness :
  exists r s s',
    validate r s = Throw UnsupportedResultType s /\
    set_value 1 1%nat (VObj 0%nat) s = Ok tt s' /\
    (x <- get_cell 1%nat ;; read (model (_value x)) "result") s' = Ok r s'.
Proof.
  set (inner := Obj None (<[ "formula" := VStr "A1" ]> ∅)).
  set (outer := Obj None (<[ "result" := VObj 1%nat ]>
                            (<[ "formula" := VStr "B1" ]> ∅))).
  set (s := MkState
              [MkCell (VObj 0%nat) VUndefined "A1"
                 (MkValue Types.Null 2%nat None) VUndefined 0;
               MkCell (VObj 0%nat) VUndefined "B1"
                 (MkValue Types.Null 2%nat None) VUndefined 0]
              [outer; inner; empty_obj]).
  destruct validate_behaviour as [H1 H2].
  destruct (H2 0%nat 1%nat
              (MkCell (VObj 0%nat) VUndefined "B1"
                 (MkValue Types.Null 2%nat None) VUndefined 0)
              0%nat s eq_refl)
    as (s' & x' & Hs & Hx & Hv & Hr).
  - discriminate.
  - reflexivity.
  - reflexivity.
  - exists (VObj 1%nat), s, s'. split; [|split].
    + rewrite H1. reflexivity.
    + exact Hs.
    + unfold bind, get_cell, read. rewrite Hx, Hr. reflexivity.
Defined.

(** X9: the [value] setter of the variant itself never changes the type
    of the cell.  On a NullValue it does nothing; on a Number, String or
    Date value it stores the payload as it comes, without inferring its
    type, so a Number cell can hold a string; on a Hyperlink or Formula
    value a [null] payload is a TypeError that changes nothing. *)
Theorem variant_setter_keeps_type fuel c x v s :
  cells s !! c = Some x ->
  (model (_value x) < length (heap s))%nat ->
  (vtype (_value x) = Types.Null -> Value_set_value fuel c v s = Ok tt s) /\
  (vtype (_value x) = Types.Number \/ vtype (_value x) = Types.String \/
   vtype (_value x) = Types.Date ->
     exists s',
       Value_set_value fuel c v s = Ok tt s' /\
       cells s' = cells s /\
       get_value 1 c s' = Ok v s' /\
       type c s' = Ok (vtype (_value x)) s') /\
  (vtype (_value x) = Types.Hyperlink \/ vtype (_value x) = Types.Formula ->
     Value_set_value fuel c VNull s = Throw TypeError s).
Proof.
  intros Hc Hl. split; [|split].
  - intros Hv. unfold Value_set_value, bind.
    rewrite (get_cell_Some _ _ _ Hc). cbv zeta. by rewrite Hv.
  - intros Hv.
    exists (MkState (cells s)
              (<[model (_value x) :=
                   Obj (o_type (get_obj (model (_value x)) s))
                       (<["value" := v]> (o_props (get_obj (model (_value x)) s)))]>
                 (heap s))).
    assert (Hw : write_prop (model (_value x)) "value" v s =
                 Ok tt (MkState (cells s)
              (<[model (_value x) :=
                   Obj (o_type (get_obj (model (_value x)) s))
                       (<["value" := v]> (o_props (get_obj (model (_value x)) s)))]>
                 (heap s)))) by reflexivity.
    split; [|split; [reflexivity|split]].
    + unfold Value_set_value, bind. rewrite (get_cell_Some _ _ _ Hc).
      cbv zeta. by destruct Hv as [-> | [-> | ->]].
    + simpl. unfold bind, get_cell. simpl. rewrite Hc.
      pose proof (read_prop_write_eq _ _ _ _ Hl _ Hw) as Hr.
      unfold read. by destruct Hv as [-> | [-> | ->]]; rewrite Hr.
    + unfold type, bind, get_cell. simpl. by rewrite Hc.
  - intros Hv. unfold Value_set_value, bind.
    rewrite (get_cell_Some _ _ _ Hc). cbv zeta.
    by destruct Hv as [-> | ->].
Qed.

Lemma variant_setter_keeps_type_witness :
  exists c s s',
    set_value 1 c (VNum 7) one_cell = Ok tt s /\
    Value_set_value 0 c (VStr "seven") s = Ok tt s' /\
    get_value 1 c s' = Ok (VStr "seven") s' /\
    type c s' = Ok Types.Number s'.
Proof.
  exists 0%nat.
  destruct (set_value 1 0%nat (VNum 7) one_cell) as [[] s| | | |] eqn:Hs;
    try (vm_compute in Hs; discriminate).
  exists s.
  assert (Hx : cells s !! 0%nat =
               Some (MkCell (VObj 0%nat) VUndefined "A1"
                       (MkValue Types.Number 3%nat None) (VObj 2%nat) 0)).
  { vm_compute in Hs. by injection Hs as <-. }
  assert (Hl : (3 < length (heap s))%nat).
  { vm_compute in Hs. injection Hs as <-. simpl. lia. }
  destruct (variant_setter_keeps_type 0%nat 0%nat _ (VStr "seven") s Hx Hl)
    as (_ & H & _).
  destruct H as (s' & H1 & _ & H2 & H3); [by left|].
  exists s'. auto.
Defined.

(** Doubling the quotes and closing with one loses nothing. *)
Lemma double_quotes_closed_inj : forall s t,
  (double_quotes s ++ String.String dquote "")%string =
  (double_quotes t ++ String.String dquote "")%string -> s = t.
Proof.
  induction s as [|c s IH]; intros [|c' t] H; simpl in H.
  - reflexivity.
  - destruct (Ascii.eqb c' dquote) eqn:E; simpl in H.
    + destruct (double_quotes t); discriminate.
    + injection H as H _. apply Ascii.eqb_neq in E. congruence.
  - destruct (Ascii.eqb c dquote) eqn:E; simpl in H.
    + destruct (double_quotes s); discriminate.
    + injection H as H _. apply Ascii.eqb_neq in E. congruence.
  - destruct (Ascii.eqb c dquote) eqn:E, (Ascii.eqb c' dquote) eqn:E';
      simpl in H.
    + apply Ascii.eqb_eq in E, E'. injection H as H. f_equal; [congruence|].
      by apply IH.
    + injection H as H _. apply Ascii.eqb_neq in E'. congruence.
    + injection H as H _. apply Ascii.eqb_neq in E. congruence.
    + injection H as -> H. f_equal. by apply IH.
Qed.

(** X10: the CSV text of a String cell determines the string: the text
    is put between quotes with every quote inside doubled, and two String
    cells render the same text only when they hold the same string.  The
    rendering reads the store and leaves it as it is. *)
Theorem csv_of_string_is_lossless
    (toISOString dateToString : Z -> string) c1 x1 t1 s1 c2 x2 t2 s2 :
  cells s1 !! c1 = Some x1 -> vtype (_value x1) = Types.String ->
  read_prop (model (_value x1)) "value" s1 = VStr t1 ->
  cells s2 !! c2 = Some x2 -> vtype (_value x2) = Types.String ->
  read_prop (model (_value x2)) "value" s2 = VStr t2 ->
  exists r1 r2,
    toCsvString toISOString dateToString c1 s1 = Ok (VStr r1) s1 /\
    toCsvString toISOString dateToString c2 s2 = Ok (VStr r2) s2 /\
    String.get 0 r1 = Some dquote /\
    String.get (S (String.length (double_quotes t1))) r1 = Some dquote /\
    (r1 = r2 <-> t1 = t2).
Proof.
  intros Hc1 Hv1 Hr1 Hc2 Hv2 Hr2.
  exists (String.String dquote (double_quotes t1 ++ String.String dquote "")),
         (String.String dquote (double_quotes t2 ++ String.String dquote "")).
  split; [|split; [|split; [|split]]].
  - unfold toCsvString, bind, read. rewrite (get_cell_Some _ _ _ Hc1).
    cbv zeta. by rewrite Hv1, Hr1.
  - unfold toCsvString, bind, read. rewrite (get_cell_Some _ _ _ Hc2).
    cbv zeta. by rewrite Hv2, Hr2.
  - reflexivity.
  - change (String.get (String.length (double_quotes t1))
              (double_quotes t1 ++ String.String dquote "") = Some dquote).
    by rewrite <- (append_correct2 (double_quotes t1) _ 0).
  - split.
    + intros [= H]. by apply double_quotes_closed_inj.
    + by intros ->.
Qed.

Lemma csv_of_string_is_lossless_witness :
  exists s r,
    set_value 1 0%nat (VStr "say hi") one_cell = Ok tt s /\
    toCsvString (fun _ => "") (fun _ => "") 0%nat s = Ok (VStr r) s /\
    String.get 0 r = Some dquote.
Proof.
  destruct (set_value 1 0%nat (VStr "say hi") one_cell) as [[] s| | | |] eqn:Hs;
    try (vm_compute in Hs; discriminate).
  assert (Hx : cells s !! 0%nat =
               Some (MkCell (VObj 0%nat) VUndefined "A1"
                       (MkValue Types.String 3%nat None) (VObj 2%nat) 0)).
  { vm_compute in Hs. by injection Hs as <-. }
  assert (Hr : read_prop 3%nat "value" s = VStr "say hi").
  { vm_compute in Hs. by injection Hs as <-. }
  destruct (csv_of_string_is_lossless (fun _ => "") (fun _ => "")
              0%nat _ "say hi" s 0%nat _ "say hi" s Hx eq_refl Hr Hx eq_refl Hr)
    as (r1 & r2 & H1 & _ & H3 & _).
  exists s, r1. auto.
Defined.

(** ** What the patterns report *)

Lemma rep_sound {A} p (k : list ascii -> option A) a : forall hi lo s,
  rep p lo hi s k = Some a ->
  exists w rest, s = (w ++ rest)%list /\ Forall (fun c => p c = true) w /\
                 (lo <= length w <= hi)%nat /\ k rest = Some a.
Proof.
  assert (Hstop : forall lo hi s,
            (if Nat.eqb lo 0 then k s else None) = Some a ->
            exists w rest, s = (w ++ rest)%list /\ Forall (fun c => p c = true) w /\
                           (lo <= length w <= hi)%nat /\ k rest = Some a).
  { intros lo hi s H. destruct (Nat.eqb_spec lo 0) as [->|]; [|discriminate].
    exists [], s. repeat split; simpl; auto; lia. }
  induction hi as [|hi IH]; intros lo s H.
  - apply Hstop. by destruct s.
  - destruct s as [|c s']; [by apply Hstop|].
    cbn [rep] in H. destruct (p c) eqn:Hp; [|by apply Hstop].
    destruct (rep p (Nat.pred lo) hi s' k) as [a'|] eqn:Hr.
    + injection H as ->. destruct (IH _ _ Hr) as (w & rest & -> & Hw & Hl & Hk).
      exists (c :: w), rest. repeat split; simpl; auto; lia.
    + by apply Hstop.
Qed.

Lemma rmatch_sound : forall r {A} s (k : list ascii -> option A) a,
  rmatch r s k = Some a ->
  exists w rest, s = (w ++ rest)%list /\ in_lang r w /\ k rest = Some a.
Proof.
  induction r as [c|p lo hi|r1 IH1 r2 IH2|r1 IH1]; intros A s k a H.
  - destruct s as [|c' s']; [discriminate|]. cbn [rmatch] in H.
    destruct (Ascii.eqb c c') eqn:E; [|discriminate].
    apply Ascii.eqb_eq in E as <-. exists [c], s'. by repeat split.
  - cbn [rmatch] in H.
    destruct (rep_sound _ _ _ _ _ _ H) as (w & rest & -> & Hw & Hl & Hk).
    exists w, rest. repeat split; auto; [lia|].
    destruct hi as [h|]; [simpl in Hl; lia|done].
  - cbn [rmatch] in H.
    destruct (IH1 _ _ _ _ H) as (w1 & rest1 & -> & H1 & Hk1).
    destruct (IH2 _ _ _ _ Hk1) as (w2 & rest & -> & H2 & Hk).
    exists (w1 ++ w2)%list, rest. split; [by rewrite app_assoc|].
    split; [|done]. by exists w1, w2.
  - cbn [rmatch] in H. destruct (rmatch r1 s k) as [a'|] eqn:Hr.
    + injection H as ->. destruct (IH1 _ _ _ _ Hr) as (w & rest & -> & Hw & Hk).
      exists w, rest. repeat split; auto. by right.
    + exists [], s. repeat split; auto. by left.
Qed.

Lemma match_here_sound r s rest :
  match_here r s = Some rest ->
  s = (matched s rest ++ rest)%list /\ in_lang r (matched s rest).
Proof.
  intros H. destruct (rmatch_sound _ _ _ _ H) as (w & rest' & -> & Hw & [= ->]).
  unfold matched. rewrite length_app.
  replace (length w + length rest - length rest)%nat with (length w) by lia.
  by rewrite take_app_length.
Qed.

Lemma scan_sound r : forall fuel s ms keep,
  scan fuel r s = (ms, keep) ->
  Forall (in_lang r) ms /\ keep `sublist_of` s /\
  (length keep + length (concat ms) = length s)%nat.
Proof.
  induction fuel as [|fuel IH]; intros s ms keep H.
  - injection H as <- <-. simpl. repeat split; auto; lia.
  - cbn [scan] in H. destruct (match_here r s) as [rest|] eqn:Hm.
    + destruct (match_here_sound _ _ _ Hm) as [Hs Hw].
      destruct (length rest <? length s)%nat eqn:Hlt.
      * destruct (scan fuel r rest) as [ms' keep'] eqn:Hsc.
        injection H as <- <-. destruct (IH _ _ _ Hsc) as (Hf & Hsub & Hlen).
        split; [by constructor|]. split.
        -- rewrite Hs. by apply sublist_inserts_l.
        -- simpl. rewrite length_app.
           assert (length s = length (matched s rest) + length rest)%nat
             by (rewrite Hs at 1; by rewrite length_app).
           lia.
      * apply Nat.ltb_ge in Hlt.
        assert (Hnil : matched s rest = []).
        { unfold matched.
          replace (length s - length rest)%nat with 0%nat by lia. done. }
        rewrite Hnil in Hw.
        destruct s as [|c s'].
        -- injection H as <- <-. repeat split; auto.
        -- destruct (scan fuel r s') as [ms' keep'] eqn:Hsc.
           injection H as <- <-. destruct (IH _ _ _ Hsc) as (Hf & Hsub & Hlen).
           split; [by constructor|]. split; [by constructor|].
           simpl. lia.
    + destruct s as [|c s'].
      * injection H as <- <-. repeat split; auto.
      * destruct (scan fuel r s') as [ms' keep'] eqn:Hsc.
        injection H as <- <-. destruct (IH _ _ _ Hsc) as (Hf & Hsub & Hlen).
        split; [done|]. split; [by constructor|]. simpl. lia.
Qed.

Lemma sheet_prefix_of_pattern p :
  in_lang (Opt (Seq (Class is_alnum 1 None) (Lit "!"))) p -> sheet_prefix p.
Proof.
  intros [->|(name & w2 & -> & (Hn & Hl & _) & ->)]; [by left|].
  right. exists name. split; [done|]. split; [|done].
  intros ->. simpl in Hl. lia.
Qed.

Lemma cell_shaped_of_pattern letters digits :
  in_lang (Class is_upper 1 (Some 3%nat)) letters ->
  in_lang (Class is_digit 1 (Some 4%nat)) digits ->
  cell_shaped letters digits.
Proof.
  intros (Hl & Hl1 & Hl3) (Hd & Hd1 & Hd4). unfold cell_shaped. auto.
Qed.

Lemma range_of_pattern w :
  in_lang re_range w ->
  exists p parts,
    w = (p ++ range_text parts)%list /\ sheet_prefix p /\ range_shaped parts.
Proof.
  intros (p & w1 & -> & Hp & c1 & w2 & -> & Hc1 & r1 & w3 & -> & Hr1
          & k & w4 & -> & -> & c2 & r2 & -> & Hc2 & Hr2).
  exists p, (RangeParts c1 r1 c2 r2). split; [|split].
  - unfold range_text. simpl. reflexivity.
  - by apply sheet_prefix_of_pattern.
  - split; by apply cell_shaped_of_pattern.
Qed.

Lemma cell_of_pattern w :
  in_lang re_cell w ->
  exists p letters digits,
    w = (p ++ letters ++ digits)%list /\ sheet_prefix p /\
    cell_shaped letters digits.
Proof.
  intros (p & w1 & -> & Hp & letters & digits & -> & Hl & Hd).
  exists p, letters, digits. split; [done|]. split.
  - by apply sheet_prefix_of_pattern.
  - by apply cell_shaped_of_pattern.
Qed.

Lemma js_match_g_sound r s ms :
  js_match_g r s = Some ms ->
  ms <> [] /\ Forall (fun t => in_lang r (list_ascii_of_string t)) ms.
Proof.
  unfold js_match_g, match_all.
  destruct (scan (S (length (list_ascii_of_string s))) r (list_ascii_of_string s))
    as [found keep] eqn:Hsc.
  destruct (scan_sound _ _ _ _ _ Hsc) as (Hf & _).
  cbn [fst]. destruct found as [|m found]; [discriminate|].
  intros [= <-]. split; [discriminate|].
  apply (proj2 (List.Forall_map string_of_list_ascii
                  (fun t => in_lang r (list_ascii_of_string t)) (m :: found))).
  eapply Forall_impl; [exact Hf|].
  intros w Hw. simpl. by rewrite list_ascii_of_string_of_list_ascii.
Qed.

(** X11: what the [dependencies] getter reports is well formed.  The
    list of ranges, when there is one, is not empty and each of its
    texts is an optional sheet name with an exclamation mark, then 1 to 3
    capitals, 1 to 4 digits, a colon, 1 to 3 capitals and 1 to 4 digits;
    the list of cells likewise, each an optional sheet name, 1 to 3
    capitals and 1 to 4 digits. *)
Theorem dependencies_are_well_formed formula :
  (forall rs,
     Formula.ranges (Formula.dependencies_of formula) = Some rs ->
     rs <> [] /\
     Forall (fun t => exists p parts,
               list_ascii_of_string t = (p ++ range_text parts)%list /\
               sheet_prefix p /\ range_shaped parts) rs) /\
  (forall cs,
     Formula.cells (Formula.dependencies_of formula) = Some cs ->
     cs <> [] /\
     Forall (fun t => exists p letters digits,
               list_ascii_of_string t = (p ++ letters ++ digits)%list /\
               sheet_prefix p /\ cell_shaped letters digits) cs).
Proof.
  unfold Formula.dependencies_of. cbn [Formula.ranges Formula.cells]. split.
  - intros rs H. destruct (js_match_g_sound _ _ _ H) as [Hne Hf].
    split; [done|]. eapply Forall_impl; [exact Hf|].
    intros t Ht. by apply range_of_pattern.
  - intros cs H. destruct (js_match_g_sound _ _ _ H) as [Hne Hf].
    split; [done|]. eapply Forall_impl; [exact Hf|].
    intros t Ht. by apply cell_of_pattern.
Qed.

Lemma dependencies_are_well_formed_witness :
  exists p parts,
    list_ascii_of_string "S1!A1:B22" = (p ++ range_text parts)%list /\
    sheet_prefix p /\ range_shaped parts.
Proof.
  destruct (dependencies_are_well_formed "=SUM(S1!A1:B22)+C3") as [H _].
  destruct (H ["S1!A1:B22"]) as [_ Hf]; [vm_compute; reflexivity|].
  by inversion Hf.
Defined.

(** ** The matches of a pattern in a text *)

Lemma optOr_None {A} (a b : option A) :
  optOr a b = None -> a = None /\ b = None.
Proof. by destruct a. Qed.

(** The engine misses nothing: if it finds no match, no text of the
    language starts there. *)
Lemma rep_complete {A} p (k : list ascii -> option A) : forall hi lo s,
  rep p lo hi s k = None ->
  forall w rest, s = (w ++ rest)%list -> Forall (fun c => p c = true) w ->
                 (lo <= length w <= hi)%nat -> k rest = None.
Proof.
  induction hi as [|hi IH]; intros lo s H w rest -> Hw Hl.
  - destruct w as [|c w]; [|simpl in Hl; lia].
    assert (lo = 0%nat) as -> by (simpl in Hl; lia).
    simpl in H. by destruct rest.
  - destruct w as [|c w].
    + assert (lo = 0%nat) as -> by (simpl in Hl; lia).
      simpl app in *. destruct rest as [|c s']; [exact H|].
      cbn [rep] in H. destruct (p c).
      * by apply optOr_None in H as [_ H].
      * exact H.
    + simpl app in H. cbn [rep] in H.
      inversion Hw as [|? ? Hc Hw']; subst. rewrite Hc in H.
      apply optOr_None in H as [H _].
      apply (IH _ _ H w rest eq_refl Hw'). simpl in Hl. lia.
Qed.

Lemma rmatch_complete : forall r {A} s (k : list ascii -> option A),
  rmatch r s k = None ->
  forall w rest, s = (w ++ rest)%list -> in_lang r w -> k rest = None.
Proof.
  induction r as [c|p lo hi|r1 IH1 r2 IH2|r1 IH1];
    intros A s k H w rest -> Hw.
  - simpl in Hw. subst w. cbn [rmatch app] in H.
    by rewrite Ascii.eqb_refl in H.
  - destruct Hw as (Hp & Hlo & Hhi). cbn [rmatch] in H.
    apply (rep_complete _ _ _ _ _ H w rest eq_refl Hp). split; [done|].
    destruct hi as [h|]; simpl; [done|]. rewrite length_app. lia.
  - destruct Hw as (w1 & w2 & -> & H1 & H2). cbn [rmatch] in H.
    rewrite <- app_assoc in H.
    pose proof (IH1 _ _ _ H w1 (w2 ++ rest)%list eq_refl H1) as H'.
    exact (IH2 _ _ _ H' w2 rest eq_refl H2).
  - cbn [rmatch] in H. apply optOr_None in H as [H1 H2].
    destruct Hw as [->|Hw]; [exact H2|].
    exact (IH1 _ _ _ H1 w rest eq_refl Hw).
Qed.

Lemma match_here_complete r s :
  match_here r s = None ->
  forall w, in_lang r w -> ~ w `prefix_of` s.
Proof.
  intros H w Hw [rest ->].
  by pose proof (rmatch_complete _ _ _ H w rest eq_refl Hw).
Qed.

Lemma range_lang_nonempty w : in_lang re_range w -> w <> [].
Proof.
  intros Hw. destruct (range_of_pattern _ Hw) as (p & parts & -> & _ & _).
  unfold range_text. intros E. apply (f_equal length) in E.
  rewrite !length_app in E. simpl in E. rewrite !length_app in E. lia.
Qed.

Lemma cell_lang_nonempty w : in_lang re_cell w -> w <> [].
Proof.
  intros Hw.
  destruct (cell_of_pattern _ Hw) as (p & ls & ds & -> & _ & (_ & Hl & _)).
  intros E. apply (f_equal length) in E. rewrite !length_app in E.
  simpl in E. lia.
Qed.

(** A place the engine passes over goes to the gap before the next
    match. *)
Lemma cuts_cons r c s ms kept :
  match_here r (c :: s) = None ->
  cuts r s ms kept -> cuts r (c :: s) ms (c :: kept).
Proof.
  intros Hn Hc. pose proof (match_here_complete _ _ Hn) as Hno.
  inversion Hc as [text Hall|gap m rest ms' kept' Hgap Hm Hl Hh Hrest]; subst.
  - apply cuts_none. intros [|c' u] v w E Hw.
    + simpl in E. subst v. by apply Hno.
    + injection E as <- ->. by apply (Hall u v w).
  - apply (cuts_match r (c :: gap) m rest ms' kept'); try done.
    intros [|c' u] v w E Hv Hw.
    + simpl in E. subst v. by apply Hno.
    + injection E as <- ->. by apply (Hgap u v w).
Qed.

Lemma scan_cuts r :
  (forall w, in_lang r w -> w <> []) ->
  forall fuel s ms kept,
    (length s < fuel)%nat -> scan fuel r s = (ms, kept) -> cuts r s ms kept.
Proof.
  intros Hne. induction fuel as [|fuel IH]; intros s ms kept Hf H; [lia|].
  cbn [scan] in H. destruct (match_here r s) as [rest|] eqn:Hm.
  - destruct (match_here_sound _ _ _ Hm) as [Hs Hw].
    pose proof (Hne _ Hw) as Hm0.
    assert (Hlt : (length rest < length s)%nat).
    { assert (length s = length (matched s rest) + length rest)%nat
        by (rewrite Hs at 1; by rewrite length_app).
      destruct (matched s rest); [done|simpl in *; lia]. }
    rewrite (proj2 (Nat.ltb_lt _ _) Hlt) in H.
    destruct (scan fuel r rest) as [ms' kept'] eqn:Hsc.
    injection H as <- <-.
    assert (Hc : cuts r rest ms' kept') by (apply IH; [lia|done]).
    rewrite Hs at 1.
    apply (cuts_match r [] (matched s rest) rest ms' kept'); try done.
    + intros u v w E Hv. by destruct u, v.
    + by rewrite <- Hs.
  - destruct s as [|c s'].
    + injection H as <- <-. apply cuts_none.
      intros u v w E Hw [k Ek]. destruct u, v; try done.
      destruct w; [by apply (Hne [])|done].
    + destruct (scan fuel r s') as [ms' kept'] eqn:Hsc.
      injection H as <- <-. apply cuts_cons; [done|].
      apply IH; [simpl in Hf; lia|done].
Qed.

Lemma cuts_woven r text ms kept :
  cuts r text ms kept ->
  exists g0 ps,
    text = woven g0 ps /\ kept = gaps g0 ps /\ ms = map fst ps.
Proof.
  induction 1 as [text _|gap m rest ms kept _ _ _ _ _ (g0 & ps & -> & -> & ->)].
  - exists text, []. unfold woven, gaps. simpl. by rewrite app_nil_r.
  - exists gap, ((m, g0) :: ps). unfold woven, gaps. simpl.
    by rewrite <- !app_assoc.
Qed.

Lemma js_match_g_result r s :
  js_match_g r s = match_result (match_all r (list_ascii_of_string s)).
Proof. unfold js_match_g, match_result. by destruct (match_all _ _). Qed.

(** The two scans of the [dependencies] getter. *)
Lemma dependencies_scans f :
  let text := list_ascii_of_string f in
  cuts re_range text (match_all re_range text) (remove_all re_range text) /\
  cuts re_cell (remove_all re_range text)
       (match_all re_cell (remove_all re_range text))
       (remove_all re_cell (remove_all re_range text)) /\
  Formula.ranges (Formula.dependencies_of f)
  = match_result (match_all re_range text) /\
  Formula.cells (Formula.dependencies_of f)
  = match_result (match_all re_cell (remove_all re_range text)).
Proof.
  intros text.
  assert (Hscan : forall r t,
            (forall w, in_lang r w -> w <> []) ->
            cuts r t (match_all r t) (remove_all r t)).
  { intros r t Hne. unfold match_all, remove_all.
    destruct (scan (S (length t)) r t) as [ms kept] eqn:Hsc.
    apply (scan_cuts r Hne _ _ _ _ (Nat.lt_succ_diag_r _) Hsc). }
  split; [apply Hscan, range_lang_nonempty|].
  split; [apply Hscan, cell_lang_nonempty|].
  unfold Formula.dependencies_of. cbn [Formula.ranges Formula.cells].
  rewrite !js_match_g_result. unfold js_replace_g_empty.
  by rewrite list_ascii_of_string_of_list_ascii.
Qed.

(** C8, as the code has it, for every formula text.  The ranges are the
    texts of range shape met from left to right, each starting where the
    one before it ends or further on, and no text of range shape starts
    at a place passed over: all ranges are extracted.  The cells are
    found in the same way in what is left of the text once the ranges
    are cut out, and nowhere else: a cell inside an extracted range is
    not reported.  Either collection is [null] (here [None]) when there
    is no match and is never an empty array; a formula that is one range
    has that range and no cell; [SUM(A1:A3)+B2] has the range [A1:A3]
    and the cell [B2], and [SUM(A1:B2,C3:D4)+A1] has two ranges and the
    cell [A1]. *)
Theorem dependencies_of_formula :
  (forall f,
     exists ms kept cs kept',
       cuts re_range (list_ascii_of_string f) ms kept /\
       Formula.ranges (Formula.dependencies_of f) = match_result ms /\
       cuts re_cell kept cs kept' /\
       Formula.cells (Formula.dependencies_of f) = match_result cs) /\
  (forall f,
     Formula.ranges (Formula.dependencies_of f) <> Some [] /\
     Formula.cells (Formula.dependencies_of f) <> Some []) /\
  (forall r,
     range_shaped r ->
     Formula.dependencies_of (string_of_list_ascii (range_text r))
     = Formula.Deps (Some [string_of_list_ascii (range_text r)]) None) /\
  Formula.dependencies_of "SUM(A1:A3)+B2"
  = Formula.Deps (Some ["A1:A3"]) (Some ["B2"]) /\
  Formula.dependencies_of "SUM(A1:B2,C3:D4)+A1"
  = Formula.Deps (Some ["A1:B2"; "C3:D4"]) (Some ["A1"]) /\
  Formula.dependencies_of "1+2" = Formula.Deps None None.
Proof.
  split; [|split; [|split; [exact dependencies_of_range|]]].
  - intros f. destruct (dependencies_scans f) as (H1 & H2 & H3 & H4).
    eexists _, _, _, _. split; [exact H1|]. split; [exact H3|].
    split; [exact H2|exact H4].
  - intros f. split; apply js_match_g_not_empty.
  - repeat split; vm_compute; reflexivity.
Qed.

Lemma dependencies_of_formula_witness :
  Formula.dependencies_of "AB12:C3" = Formula.Deps (Some ["AB12:C3"]) None.
Proof.
  destruct dependencies_of_formula as (_ & _ & H & _).
  apply (H (RangeParts ["A"; "B"]%char ["1"; "2"]%char ["C"]%char ["3"]%char)).
  split; (split; [repeat constructor|]);
    (split; [simpl; lia|]); (split; [repeat constructor|simpl; lia]).
Defined.

(** X12: the text the cells are looked for in is the formula with the
    reported ranges cut out.  The formula is [g0 m1 g1 ... mn gn], where
    [m1 ... mn] are the ranges in the order they are reported, each of
    range shape, and [g0 g1 ... gn] is the text searched for cells; with
    no range reported, that text is the formula itself. *)
Theorem ranges_are_cut_out f :
  exists g0 ps,
    list_ascii_of_string f = woven g0 ps /\
    Forall (fun p => in_lang re_range (fst p)) ps /\
    Formula.ranges (Formula.dependencies_of f) = match_result (map fst ps) /\
    Formula.cells (Formula.dependencies_of f)
    = js_match_g re_cell (string_of_list_ascii (gaps g0 ps)) /\
    (Formula.ranges (Formula.dependencies_of f) = None ->
     Formula.cells (Formula.dependencies_of f) = js_match_g re_cell f).
Proof.
  destruct (dependencies_scans f) as (H1 & _ & H3 & H4).
  set (text := list_ascii_of_string f) in *.
  destruct (cuts_woven _ _ _ _ H1) as (g0 & ps & Ht & Hk & Hm).
  assert (Hs : Forall (in_lang re_range) (match_all re_range text)).
  { unfold match_all.
    destruct (scan (S (length text)) re_range text) as [ms kept] eqn:Hsc.
    by destruct (scan_sound _ _ _ _ _ Hsc) as (Hf & _). }
  exists g0, ps. split; [exact Ht|]. split; [|split; [|split]].
  - rewrite Hm in Hs.
    exact (proj1 (List.Forall_map fst (in_lang re_range) ps) Hs).
  - by rewrite H3, Hm.
  - rewrite H4, js_match_g_result, list_ascii_of_string_of_list_ascii.
    by rewrite Hk.
  - rewrite H3, Hm. intros Hn.
    assert (ps = []) as -> by (destruct ps; [done|discriminate]).
    rewrite H4, js_match_g_result. f_equal. f_equal. rewrite Hk.
    unfold gaps. simpl. rewrite app_nil_r.
    unfold woven in Ht. simpl in Ht. rewrite app_nil_r in Ht. by rewrite <- Ht.
Qed.

Lemma ranges_are_cut_out_witness :
  Formula.cells (Formula.dependencies_of "A1+7") = js_match_g re_cell "A1+7".
Proof.
  destruct (ranges_are_cut_out "A1+7") as (g0 & ps & _ & _ & _ & _ & H).
  apply H. reflexivity.
Defined.

(** A payload with a formula and no text makes the cell a Formula whose
    snapshot carries the payload's formula and result. *)
Lemma set_value_formula fuel c x l s :
  cells s !! c = Some x -> vtype (_value x) <> Types.Merge ->
  truthy (read_prop l "text" s) = false ->
  truthy (read_prop l "formula" s) = true ->
  set_value (S fuel) c (VObj l) s =
  Ok tt (MkState
           (<[c := set__value (MkValue Types.Formula (length (heap s)) None) x]>
              (cells s))
           (heap s ++ [Obj (Some Types.Formula)
                         (<[ "result" := read_prop l "result" s ]>
                            (<[ "formula" := read_prop l "formula" s ]>
                               {[ "address" := VStr (_address x) ]}))])).
Proof.
  intros Hc Hv Ht Hf.
  rewrite (set_value_not_Merge _ _ _ _ _ Hc Hv).
  unfold bind at 1. rewrite getType_spec. simpl. unfold nonempty.
  rewrite Ht, Hf. simpl.
  unfold bind at 1. rewrite (create_Formula _ _ _ _ Hc).
  erewrite upd_cell_Some by (simpl; exact Hc). reflexivity.
Qed.

(** X13: the [dependencies] getter of a Formula cell works on the formula
    the cell was given.  After a payload whose formula is a string has
    been assigned, it reports the references of that string and leaves the
    store as it is; after a payload whose formula is a number, which the
    assignment accepts just as well, it fails with a TypeError. *)
Theorem dependencies_after_assignment fuel c x l s :
  cells s !! c = Some x -> vtype (_value x) <> Types.Merge ->
  truthy (read_prop l "text" s) = false ->
  truthy (read_prop l "formula" s) = true ->
  exists s',
    set_value (S fuel) c (VObj l) s = Ok tt s' /\
    type c s' = Ok Types.Formula s' /\
    match read_prop l "formula" s with
    | VStr f | VStrObj f =>
        dependencies c s' = Ok (Formula.dependencies_of f) s'
    | _ => dependencies c s' = Throw TypeError s'
    end.
Proof.
  intros Hc Hv Ht Hf.
  assert (Hlen : (c < length (cells s))%nat) by by eapply lookup_lt_Some.
  eexists. split; [by apply set_value_formula|].
  unfold type, dependencies, bind, get_cell, read. simpl.
  rewrite list_lookup_insert_eq by done. simpl. split; [done|].
  rewrite read_prop_alloc_new. simpl.
  replace (default VUndefined
             ((<[ "result" := read_prop l "result" s ]>
                 (<[ "formula" := read_prop l "formula" s ]>
                    ({[ "address" := VStr (_address x) ]} : gmap string val)))
                !! "formula"))
    with (read_prop l "formula" s) by by map_reads.
  by destruct (read_prop l "formula" s).
Qed.

Lemma dependencies_after_assignment_witness :
  exists s s',
    set_value 1 0%nat (VObj 1%nat) s = Ok tt s' /\
    dependencies 0%nat s' = Throw TypeError s'.
Proof.
  set (s := MkState
              [MkCell (VObj 0%nat) VUndefined "A1"
                 (MkValue Types.Null 0%nat None) VUndefined 0]
              [empty_obj; Obj None (<[ "formula" := VNum 5 ]> ∅)]).
  destruct (dependencies_after_assignment 0%nat 0%nat
              (MkCell (VObj 0%nat) VUndefined "A1"
                 (MkValue Types.Null 0%nat None) VUndefined 0)
              1%nat s eq_refl)
    as (s' & Hs & _ & Hd).
  - discriminate.
  - reflexivity.
  - reflexivity.
  - exists s, s'. split; [exact Hs|]. exact Hd.
Defined.

(** ** Nothing is ever taken away *)

Lemma identity_kept_refl s : identity_kept s s.
Proof. intros c x H. eauto. Qed.

Lemma identity_kept_trans s1 s2 s3 :
  identity_kept s1 s2 -> identity_kept s2 s3 -> identity_kept s1 s3.
Proof.
  intros H12 H23 c x H.
  destruct (H12 c x H) as (x2 & H2 & Ha2 & Hr2 & Hc2).
  destruct (H23 c x2 H2) as (x3 & H3 & Ha3 & Hr3 & Hc3).
  exists x3. split; [done|]. split; [congruence|]. split.
  - intros Ht. rewrite <- (Hr2 Ht). apply Hr3. by rewrite (Hr2 Ht).
  - intros Ht. rewrite <- (Hc2 Ht). apply Hc3. by rewrite (Hc2 Ht).
Qed.

Lemma identity_kept_insert s c x x' h :
  cells s !! c = Some x ->
  _address x' = _address x ->
  (truthy (_row x) = true -> _row x' = _row x) ->
  (truthy (_col x) = true -> _col x' = _col x) ->
  identity_kept s (MkState (<[c := x']> (cells s)) h).
Proof.
  intros Hc Ha Hr Hk c' y Hy. simpl.
  destruct (decide (c = c')) as [<-|Hne].
  - exists x'. rewrite list_lookup_insert_eq by by eapply lookup_lt_Some.
    replace y with x by congruence. auto.
  - exists y. by rewrite list_lookup_insert_ne.
Qed.

Lemma kept_same_cells {A} (m : M A) :
  (forall s, match m s with
             | Ok _ s' | Throw _ s' => cells s' = cells s
             | _ => True
             end) ->
  preserves identity_kept m.
Proof.
  intros H s. specialize (H s).
  destruct (m s) as [a s'|e s'| | |]; try done;
    intros c x Hc; rewrite H; eauto.
Qed.

Lemma kept_ret {A} (a : A) : preserves identity_kept (ret a).
Proof. apply preserves_ret, identity_kept_refl. Qed.

Lemma kept_throw {A} e : preserves identity_kept (@throw A e).
Proof. apply preserves_throw, identity_kept_refl. Qed.

Lemma kept_bind {A B} (m : M A) (k : A -> M B) :
  preserves identity_kept m -> (forall a, preserves identity_kept (k a)) ->
  preserves identity_kept (bind m k).
Proof. apply preserves_bind, identity_kept_trans. Qed.

Lemma kept_get_cell c : preserves identity_kept (get_cell c).
Proof. apply preserves_get_cell, identity_kept_refl. Qed.

Lemma kept_read l k : preserves identity_kept (read l k).
Proof. apply preserves_read, identity_kept_refl. Qed.

Lemma kept_pure {A} (f : state -> A) :
  preserves identity_kept (fun s => Ok (f s) s).
Proof. intros s. apply identity_kept_refl. Qed.

Lemma kept_alloc o : preserves identity_kept (alloc o).
Proof. by apply kept_same_cells. Qed.

Lemma kept_write_prop l k v : preserves identity_kept (write_prop l k v).
Proof. by apply kept_same_cells. Qed.

Lemma kept_upd_cell c f :
  (forall x, _address (f x) = _address x /\ _row (f x) = _row x /\
             _col (f x) = _col x) ->
  preserves identity_kept (upd_cell c f).
Proof.
  intros Hf s. unfold upd_cell. destruct (cells s !! c) as [x|] eqn:Hc; [|done].
  destruct (Hf x) as (Ha & Hr & Hk).
  apply (identity_kept_insert s c x (f x)); auto.
Qed.

Lemma kept_object_to_string l : preserves identity_kept (object_to_string l).
Proof. apply preserves_object_to_string, identity_kept_refl. Qed.

Create HintDb kept.
#[export] Hint Resolve preserves_unsupported kept_object_to_string : kept.
#[export] Hint Resolve kept_ret kept_throw kept_get_cell kept_read kept_pure
  kept_alloc kept_write_prop : kept.
#[export] Hint Extern 1 (preserves identity_kept (upd_cell _ _)) =>
  apply kept_upd_cell; intros ?; repeat split; reflexivity : kept.

Ltac kept_step :=
  first
    [ solve [auto with kept]
    | lazymatch goal with
      | |- preserves _ (bind _ _) => apply kept_bind; [|intros ?]
      | |- preserves _ (match ?x with _ => _ end) => destruct x
      | |- preserves _ (let _ := _ in _) => cbv zeta
      end ].

Ltac kept_steps := repeat kept_step.

Lemma kept_address_of c : preserves identity_kept (address_of c).
Proof. unfold address_of. kept_steps. Qed.

Lemma kept_addMergeRef c : preserves identity_kept (addMergeRef c).
Proof. unfold addMergeRef. kept_steps. Qed.

Lemma kept_releaseMergeRef c : preserves identity_kept (releaseMergeRef c).
Proof. unfold releaseMergeRef. kept_steps. Qed.

Lemma kept_hyperlink c : preserves identity_kept (hyperlink c).
Proof. unfold hyperlink. kept_steps. Qed.
#[export] Hint Resolve kept_address_of kept_addMergeRef kept_releaseMergeRef
  kept_hyperlink : kept.

Lemma kept_get_prop v k : preserves identity_kept (get_prop v k).
Proof. destruct v; simpl; kept_steps. Qed.
#[export] Hint Resolve kept_get_prop : kept.

Lemma kept_getType v : preserves identity_kept (Value.getType v).
Proof. destruct v; simpl; kept_steps. Qed.

Lemma kept_release v : preserves identity_kept (release v).
Proof. unfold release. kept_steps. Qed.

Lemma kept_prop_or_undefined v k :
  preserves identity_kept (prop_or_undefined v k).
Proof. unfold prop_or_undefined. kept_steps. Qed.
#[export] Hint Resolve kept_getType kept_release kept_prop_or_undefined : kept.

Lemma kept_create t c v : preserves identity_kept (create t c v).
Proof.
  unfold create.
  destruct t as [[]|[]];
    unfold NullValue, NumberValue, StringValue, DateValue, ScalarValue,
      HyperlinkValue, FormulaValue, MergeValue;
    kept_steps.
Qed.
#[export] Hint Resolve kept_create : kept.

Lemma kept_merge c m : preserves identity_kept (merge c m).
Proof. unfold merge. kept_steps. Qed.

Lemma kept_unmerge c : preserves identity_kept (unmerge c).
Proof. unfold unmerge. kept_steps. Qed.

Lemma kept_get_value fuel : forall c, preserves identity_kept (get_value fuel c).
Proof.
  induction fuel as [|fuel IH]; intros c; simpl; [done|].
  kept_steps.
Qed.

Lemma kept_set_value fuel :
  forall c v, preserves identity_kept (set_value fuel c v).
Proof.
  induction fuel as [|fuel IH]; intros c v; simpl; [done|].
  kept_steps.
Qed.
#[export] Hint Resolve kept_merge kept_unmerge kept_get_value
  kept_set_value : kept.

Lemma kept_Value_set_value fuel c v :
  preserves identity_kept (Value_set_value fuel c v).
Proof. unfold Value_set_value. kept_steps. Qed.

Lemma kept_upgradeToHyperlink c v :
  preserves identity_kept (_upgradeToHyperlink c v).
Proof. unfold _upgradeToHyperlink. kept_steps. Qed.

Lemma kept_get_model c : preserves identity_kept (get_model c).
Proof. unfold get_model. kept_steps. Qed.

Lemma kept_set_model c m : preserves identity_kept (set_model c m).
Proof. unfold set_model. kept_steps. Qed.

Lemma kept_new_Cell va r a : preserves identity_kept (new_Cell va r a).
Proof.
  unfold new_Cell. kept_steps.
  intros s c x H. simpl. exists x. split; [|done].
  by apply lookup_app_l_Some.
Qed.

(** The two lazy getters fill in a field that holds nothing yet. *)
Lemma kept_row c : preserves identity_kept (row c).
Proof.
  intros s. unfold row. unfold bind at 1. unfold get_cell at 1.
  destruct (cells s !! c) as [x|] eqn:Hc; [|done].
  destruct (truthy (_row x)) eqn:Ht; simpl.
  - unfold bind, ret, get_cell. rewrite Hc. apply identity_kept_refl.
  - destruct (match_first re_digits (list_ascii_of_string (_address x)))
      as [ds|]; [|apply identity_kept_refl].
    unfold bind at 1. rewrite (upd_cell_Some _ _ _ _ Hc).
    unfold bind, get_cell. simpl.
    rewrite list_lookup_insert_eq by by eapply lookup_lt_Some.
    apply (identity_kept_insert s c x); auto.
    intros Ht'. congruence.
Qed.

Lemma kept_col l2n c : preserves identity_kept (col l2n c).
Proof.
  intros s. unfold col. unfold bind at 1. unfold get_cell at 1.
  destruct (cells s !! c) as [x|] eqn:Hc; [|done].
  destruct (truthy (_col x)) eqn:Ht; simpl.
  - unfold bind, ret, get_cell. rewrite Hc. apply identity_kept_refl.
  - destruct (match_first re_letters (list_ascii_of_string (_address x)))
      as [ls|]; [|apply identity_kept_refl].
    unfold bind at 1. rewrite (upd_cell_Some _ _ _ _ Hc).
    unfold bind, get_cell. simpl.
    rewrite list_lookup_insert_eq by by eapply lookup_lt_Some.
    apply (identity_kept_insert s c x); auto.
    intros Ht'. congruence.
Qed.
#[export] Hint Resolve kept_Value_set_value kept_upgradeToHyperlink
  kept_get_model kept_set_model kept_row kept_col kept_new_Cell : kept.

Lemma kept_exec va l2n o : preserves identity_kept (exec va l2n o).
Proof. destruct o; simpl; kept_steps. Qed.

(** X14: nothing is ever taken away.  Whatever members are called, in
    whatever order, and whether they return or throw: every cell stays
    in place with the address it was made with, its owner row and its
    column stay once they are set, and every object keeps all the
    properties it has. *)
Theorem calls_never_take_away va l2n s s' :
  steps va l2n s s' ->
  identity_kept s s' /\ heap_grows s s'.
Proof.
  induction 1 as [s|s o s1 s2 Ha _ [IH1 IH2]].
  - split; [apply identity_kept_refl|apply heap_grows_refl].
  - unfold after in Ha.
    pose proof (kept_exec va l2n o s) as K.
    pose proof (grows_exec va l2n o s) as G.
    destruct (exec va l2n o s); simplify_eq.
    + split; [by eapply identity_kept_trans|by eapply heap_grows_trans].
    + split; [by eapply identity_kept_trans|by eapply heap_grows_trans].
Qed.

Lemma calls_never_take_away_witness :
  exists s',
    run (fun _ => true) (fun _ => 1)
        [Op_set_value 1 0%nat (VStr "x"); Op_merge 1%nat (Some 0%nat);
         Op_set_model 0%nat (VObj 99%nat); Op_row 1%nat]
        two_cells = Some s' /\
    identity_kept two_cells s' /\ heap_grows two_cells s'.
Proof.
  destruct (run (fun _ => true) (fun _ => 1)
        [Op_set_value 1 0%nat (VStr "x"); Op_merge 1%nat (Some 0%nat);
         Op_set_model 0%nat (VObj 99%nat); Op_row 1%nat] two_cells) as [s'|] eqn:Hr;
    [|vm_compute in Hr; discriminate].
  exists s'. split; [reflexivity|].
  apply (calls_never_take_away (fun _ => true) (fun _ => 1)).
  exact (run_steps _ _ _ _ _ Hr).
Defined.

(** ** Assignment, then export *)

(** The export of a cell whose value has just been made. *)
Lemma export_fresh c cell T o s :
  cells s !! c = Some cell ->
  exists s2,
    get_model c
      (MkState (<[c := set__value (MkValue T (length (heap s)) None) cell]>
                  (cells s))
               (heap s ++ [o]))
    = Ok (length (heap s)) s2 /\
    get_obj (length (heap s)) s2 =
    Obj (o_type o) (<[ "style" := style cell ]> (o_props o)).
Proof.
  intros Hc.
  assert (Hlen : (c < length (cells s))%nat) by by eapply lookup_lt_Some.
  eexists. split.
  - erewrite get_model_Some by (simpl; by apply list_lookup_insert_eq).
    reflexivity.
  - unfold get_obj at 1. simpl.
    rewrite list_lookup_insert_eq by (rewrite length_app_one; lia).
    by rewrite get_obj_alloc_new.
Qed.

(** X15: assigning a value and then exporting the cell gives a snapshot
    that is a new object, not the payload: it carries the inferred type,
    the address of the cell, the style of the cell, and of the payload
    the value (Number, String, Date), the text and hyperlink, or the
    formula and result; the snapshot of a Null value has no value at
    all. *)
Theorem assign_then_export fuel c cell x T s :
  cells s !! c = Some cell ->
  vtype (_value cell) <> Types.Merge ->
  Value.getType x s = Ok T s ->
  exists s1 m s2,
    set_value (S fuel) c x s = Ok tt s1 /\
    get_model c s1 = Ok m s2 /\
    heap s !! m = None /\
    read_type m s2 = Some T /\
    read_prop m "address" s2 = VStr (_address cell) /\
    read_prop m "style" s2 = style cell /\
    snapshot_holds T x m s s2.
Proof.
  intros Hc Hm Ht.
  assert (Hfresh : heap s !! length (heap s) = None)
    by (apply lookup_ge_None; lia).
  rewrite (set_value_not_Merge _ _ _ _ _ Hc Hm).
  unfold bind at 1. rewrite Ht. unfold bind at 1.
  rewrite getType_spec in Ht.
  assert (Hfin : forall o,
            o_type o = Some T ->
            o_props o !! "address" = Some (VStr (_address cell)) ->
            (forall s2,
               get_obj (length (heap s)) s2 =
               Obj (o_type o) (<[ "style" := style cell ]> (o_props o)) ->
               snapshot_holds T x (length (heap s)) s s2) ->
            exists s1 m s2,
              upd_cell c (set__value (MkValue T (length (heap s)) None))
                (MkState (cells s) (heap s ++ [o])) = Ok tt s1 /\
              get_model c s1 = Ok m s2 /\
              heap s !! m = None /\
              read_type m s2 = Some T /\
              read_prop m "address" s2 = VStr (_address cell) /\
              read_prop m "style" s2 = style cell /\
              snapshot_holds T x m s s2).
  { intros o HT Ha Hsnap.
    destruct (export_fresh c cell T o s Hc) as (s2 & Hg & Ho).
    eexists _, _, s2. split; [by erewrite upd_cell_Some by exact Hc|].
    split; [exact Hg|]. split; [exact Hfresh|].
    unfold read_type, read_prop. rewrite Ho. simpl.
    split; [done|]. split; [by rewrite lookup_insert_ne, Ha|].
    split; [by rewrite lookup_insert_eq|]. by apply Hsnap. }
  destruct x as [| |b|n|t|t|d|l|c']; simpl in Ht; try discriminate;
    try (injection Ht as <-).
  - rewrite (create_Null _ _ _ _ Hc). apply Hfin; [done|done|].
    intros s2 Ho. simpl. rewrite Ho. simpl. by map_reads.
  - rewrite (create_Null _ _ _ _ Hc). apply Hfin; [done|done|].
    intros s2 Ho. simpl. rewrite Ho. simpl. by map_reads.
  - unfold create, NumberValue. rewrite (create_Scalar _ _ _ _ _ Hc).
    apply Hfin; [done|by map_reads|].
    intros s2 Ho. simpl. unfold read_prop. rewrite Ho. simpl. by map_reads.
  - unfold create, StringValue. rewrite (create_Scalar _ _ _ _ _ Hc).
    apply Hfin; [done|by map_reads|].
    intros s2 Ho. simpl. unfold read_prop. rewrite Ho. simpl. by map_reads.
  - unfold create, StringValue. rewrite (create_Scalar _ _ _ _ _ Hc).
    apply Hfin; [done|by map_reads|].
    intros s2 Ho. simpl. unfold read_prop. rewrite Ho. simpl. by map_reads.
  - unfold create, DateValue. rewrite (create_Scalar _ _ _ _ _ Hc).
    apply Hfin; [done|by map_reads|].
    intros s2 Ho. simpl. unfold read_prop. rewrite Ho. simpl. by map_reads.
  - unfold nonempty in Ht.
    destruct (truthy (read_prop l "text" s) && truthy (read_prop l "hyperlink" s))
      eqn:Hh; [|destruct (truthy (read_prop l "formula" s)) eqn:Hf];
      try discriminate; injection Ht as <-.
    + rewrite (create_Hyperlink _ _ _ _ Hc).
      apply Hfin; [done|by map_reads|].
      intros s2 Ho. simpl. unfold read_prop at 1 3. rewrite Ho. simpl.
      split; by map_reads.
    + rewrite (create_Formula _ _ _ _ Hc).
      apply Hfin; [done|by map_reads|].
      intros s2 Ho. simpl. unfold read_prop at 1 3. rewrite Ho. simpl.
      split; by map_reads.
Qed.

Lemma assign_then_export_witness :
  exists s1 m s2,
    set_value 1 0%nat (VNum 42) one_cell = Ok tt s1 /\
    get_model 0%nat s1 = Ok m s2 /\
    read_type m s2 = Some Types.Number /\
    read_prop m "value" s2 = VNum 42.
Proof.
  destruct (assign_then_export 0%nat 0%nat
              (MkCell (VObj 0%nat) VUndefined "A1"
                      (MkValue Types.Null 1%nat None) (VObj 2%nat) 0)
              (VNum 42) Types.Number one_cell eq_refl)
    as (s1 & m & s2 & H1 & H2 & _ & H3 & _ & _ & H4).
  - discriminate.
  - reflexivity.
  - exists s1, m, s2. auto.
Defined.

(** ** Re-targeting a slave through its own setter *)

(** X16: assigning a Cell [C] to the [value] of the MergeValue of [B], a
    slave of [A] ([B] being neither [A] nor [C]), re-targets the merge:
    [C] is the master from then on, the counts move from [A] to [C] (or
    stay, when [C] is [A]).  No object is made or written, so the
    snapshot of [B] goes on naming the master it was made with. *)
Theorem retarget_leaves_snapshot fuel A a B b C c0 s :
  B <> A -> B <> C ->
  cells s !! A = Some a -> cells s !! B = Some b -> cells s !! C = Some c0 ->
  vtype (_value b) = Types.Merge -> _master (_value b) = Some A ->
  exists s' b',
    Value_set_value fuel B (VCell C) s = Ok tt s' /\
    heap s' = heap s /\
    cells s' !! B = Some b' /\
    model (_value b') = model (_value b) /\
    read_prop (model (_value b')) "master" s'
    = read_prop (model (_value b)) "master" s /\
    master B s' = Ok (VCell C) s' /\
    isMergedTo B (VCell A) s' = Ok (bool_decide (A = C)) s' /\
    (A <> C -> _mergeCount <$> cells s' !! A = Some (_mergeCount a - 1) /\
               _mergeCount <$> cells s' !! C = Some (_mergeCount c0 + 1)) /\
    (A = C -> _mergeCount <$> cells s' !! A = Some (_mergeCount a)).
Proof.
  intros HBA HBC Ha Hb Hc Hv Hm.
  assert (HA : (A < length (cells s))%nat) by by eapply lookup_lt_Some.
  assert (HB : (B < length (cells s))%nat) by by eapply lookup_lt_Some.
  assert (HC : (C < length (cells s))%nat) by by eapply lookup_lt_Some.
  set (a1 := set__mergeCount (_mergeCount a - 1) a).
  set (l1 := <[A := a1]> (cells s)).
  set (c1 := if decide (A = C) then a1 else c0).
  assert (Hc1 : l1 !! C = Some c1).
  { unfold l1, c1. case_decide as E.
    - subst C. by apply list_lookup_insert_eq.
    - by rewrite list_lookup_insert_ne. }
  set (c2 := set__mergeCount (_mergeCount c1 + 1) c1).
  set (l2 := <[C := c2]> l1).
  assert (Hb2 : l2 !! B = Some b).
  { unfold l2, l1. by rewrite !list_lookup_insert_ne. }
  set (b' := set__value (MkValue (vtype (_value b)) (model (_value b)) (Some C)) b).
  set (s' := MkState (<[B := b']> l2) (heap s)).
  assert (Hs : Value_set_value fuel B (VCell C) s = Ok tt s').
  { unfold Value_set_value. unfold bind at 1. rewrite (get_cell_Some _ _ _ Hb).
    cbv zeta. rewrite Hv, Hm.
    unfold bind at 1. unfold releaseMergeRef.
    rewrite (upd_cell_Some _ _ _ _ Ha). fold a1 l1.
    unfold bind at 1. unfold addMergeRef.
    erewrite upd_cell_Some by (simpl; exact Hc1). simpl. fold c2 l2.
    erewrite upd_cell_Some by (simpl; exact Hb2). reflexivity. }
  assert (HbS : cells s' !! B = Some b').
  { simpl. apply list_lookup_insert_eq. unfold l2, l1.
    by rewrite !length_insert. }
  exists s', b'. split; [exact Hs|]. split; [reflexivity|].
  split; [exact HbS|]. split; [reflexivity|]. split; [reflexivity|].
  split.
  { unfold master, bind. rewrite (get_cell_Some _ _ _ HbS).
    unfold b'. simpl. by rewrite Hv. }
  split.
  { unfold isMergedTo, bind. rewrite (get_cell_Some _ _ _ HbS).
    unfold b'. simpl. rewrite Hv. simpl. unfold ret. do 2 f_equal.
    case_bool_decide as E.
    - by apply Nat.eqb_eq.
    - by apply Nat.eqb_neq. }
  split.
  { intros HAC. simpl. rewrite !(list_lookup_insert_ne _ B) by done.
    unfold l2. split.
    - rewrite list_lookup_insert_ne by done. unfold l1.
      by rewrite list_lookup_insert_eq.
    - rewrite list_lookup_insert_eq by (unfold l1; by rewrite length_insert).
      unfold c2, c1. by rewrite decide_False. }
  intros <-. simpl. rewrite list_lookup_insert_ne by done. unfold l2.
  rewrite list_lookup_insert_eq by (unfold l1; by rewrite length_insert).
  unfold c2, c1. rewrite decide_True by done. simpl. f_equal. lia.
Qed.

Lemma retarget_leaves_snapshot_witness :
  exists s',
    Value_set_value 0 1%nat (VCell 2%nat) merged_of_three = Ok tt s' /\
    master 1%nat s' = Ok (VCell 2%nat) s' /\
    (x <- get_cell 1%nat ;; read (model (_value x)) "master") s'
    = Ok (VStr "A1") s'.
Proof.
  destruct (retarget_leaves_snapshot 0%nat
              0%nat (MkCell (VObj 0%nat) VUndefined "A1"
                            (MkValue Types.Null 1%nat None) (VObj 2%nat) 1)
              1%nat (MkCell (VObj 0%nat) VUndefined "B2"
                            (MkValue Types.Merge 7%nat (Some 0%nat))
                            (VObj 4%nat) 0)
              2%nat (MkCell (VObj 0%nat) VUndefined "C3"
                            (MkValue Types.Null 5%nat None) (VObj 6%nat) 0)
              merged_of_three)
    as (s' & b' & Hs & _ & Hb & _ & Hr & Hm & _).
  - lia.
  - lia.
  - vm_compute; reflexivity.
  - vm_compute; reflexivity.
  - vm_compute; reflexivity.
  - reflexivity.
  - reflexivity.
  - exists s'. split; [exact Hs|]. split; [exact Hm|].
    unfold bind, get_cell, read. rewrite Hb, Hr. reflexivity.
Defined.

(** ** The column of a cell *)

Lemma match_first_sound r : forall s w,
  match_first r s = Some w -> in_lang r w.
Proof.
  induction s as [|c s IH]; intros w H; cbn [match_first] in H.
  - destruct (match_here r []) as [rest|] eqn:Hm; [|discriminate].
    injection H as <-. by apply match_here_sound.
  - destruct (match_here r (c :: s)) as [rest|] eqn:Hm.
    + injection H as <-. by apply match_here_sound.
    + by apply IH.
Qed.

(** X17: [cell.col] is computed once.  A cell whose [_col] holds
    something answers with it and changes nothing.  Otherwise the first
    run of capitals of the address, which is not empty, is turned into a
    number that is stored in [_col] and returned, and nothing else in the
    store changes; a second read answers from [_col] unless the number is
    0.  An address without a capital makes the getter throw a
    TypeError. *)
Theorem col_is_computed_once l2n c x s :
  cells s !! c = Some x ->
  (truthy (_col x) = true -> col l2n c s = Ok (_col x) s) /\
  (truthy (_col x) = false ->
   match match_first re_letters (list_ascii_of_string (_address x)) with
   | None => col l2n c s = Throw TypeError s
   | Some ls =>
       let n := l2n (string_of_list_ascii ls) in
       let s1 := MkState (<[c := set__col (VNum n) x]> (cells s)) (heap s) in
       ls <> [] /\ Forall (fun a => is_upper a = true) ls /\
       col l2n c s = Ok (VNum n) s1 /\
       (n <> 0 -> col l2n c s1 = Ok (VNum n) s1)
   end).
Proof.
  intros Hc.
  assert (Hlen : (c < length (cells s))%nat) by by eapply lookup_lt_Some.
  split.
  - intros Ht. unfold col, bind.
    rewrite (get_cell_Some _ _ _ Hc), Ht. simpl.
    by rewrite (get_cell_Some _ _ _ Hc).
  - intros Ht.
    destruct (match_first re_letters (list_ascii_of_string (_address x)))
      as [ls|] eqn:Hm.
    + destruct (match_first_sound _ _ _ Hm) as (Hup & Hl & _).
      split; [intros ->; simpl in Hl; lia|]. split; [exact Hup|]. split.
      * unfold col. unfold bind at 1. rewrite (get_cell_Some _ _ _ Hc).
        rewrite Ht. simpl. rewrite Hm.
        unfold bind at 1. rewrite (upd_cell_Some _ _ _ _ Hc).
        unfold bind. by rewrite get_cell_upd.
      * intros Hn. unfold col. unfold bind at 1.
        rewrite get_cell_upd by done. simpl.
        replace (Z.eqb (l2n (string_of_list_ascii ls)) 0) with false
          by (symmetry; by apply Z.eqb_neq).
        cbn [negb]. unfold bind, ret. by rewrite get_cell_upd.
    + unfold col, bind. rewrite (get_cell_Some _ _ _ Hc), Ht. simpl.
      by rewrite Hm.
Qed.

Lemma col_is_computed_once_witness :
  exists s1,
    col (fun _ => 1) 0%nat one_cell = Ok (VNum 1) s1 /\
    col (fun _ => 1) 0%nat s1 = Ok (VNum 1) s1.
Proof.
  destruct (col_is_computed_once (fun _ => 1) 0%nat
              (MkCell (VObj 0%nat) VUndefined "A1"
                      (MkValue Types.Null 1%nat None) (VObj 2%nat) 0)
              one_cell eq_refl) as [_ H].
  specialize (H eq_refl).
  change (match_first re_letters (list_ascii_of_string "A1"))
    with (Some ["A"%char]) in H.
  destruct H as (_ & _ & H1 & H2).
  eexists. split; [exact H1|]. apply H2. lia.
Defined.

(** ** The hyperlink of a cell *)

(** X18: a payload with a text and a hyperlink makes the cell a
    Hyperlink: [isHyperlink] holds, [hyperlink] is the payload's, and the
    CSV text is that hyperlink as it is.  The two accessors look at the
    cell's own value only: on the slave of a Hyperlink master, [value]
    gives the master's text and hyperlink, but [isHyperlink] is false,
    [hyperlink] is [undefined] and the CSV text is empty. *)
Theorem hyperlink_accessors (toISOString dateToString : Z -> string) :
  (forall fuel c x l s,
     cells s !! c = Some x -> vtype (_value x) <> Types.Merge ->
     truthy (read_prop l "text" s) = true ->
     truthy (read_prop l "hyperlink" s) = true ->
     exists s',
       set_value (S fuel) c (VObj l) s = Ok tt s' /\
       isHyperlink c s' = Ok true s' /\
       hyperlink c s' = Ok (read_prop l "hyperlink" s) s' /\
       toCsvString toISOString dateToString c s'
       = Ok (read_prop l "hyperlink" s) s') /\
  (forall fuel A a B b s,
     cells s !! A = Some a -> vtype (_value a) = Types.Hyperlink ->
     cells s !! B = Some b -> vtype (_value b) = Types.Merge ->
     _master (_value b) = Some A ->
     (exists l s',
        get_value (S (S fuel)) B s = Ok (VObj l) s' /\
        read_prop l "text" s' = read_prop (model (_value a)) "text" s /\
        read_prop l "hyperlink" s'
        = read_prop (model (_value a)) "hyperlink" s) /\
     isHyperlink B s = Ok false s /\
     hyperlink B s = Ok VUndefined s /\
     toCsvString toISOString dateToString B s = Ok (VStr "") s).
Proof.
  split.
  - intros fuel c x l s Hc Hv Ht Hh.
    assert (Hlen : (c < length (cells s))%nat) by by eapply lookup_lt_Some.
    eexists. split.
    + rewrite (set_value_not_Merge _ _ _ _ _ Hc Hv).
      unfold bind at 1. rewrite getType_spec. simpl. unfold nonempty.
      rewrite Ht, Hh. simpl.
      unfold bind at 1. rewrite (create_Hyperlink _ _ _ _ Hc).
      erewrite upd_cell_Some by (simpl; exact Hc). reflexivity.
    + unfold isHyperlink, hyperlink, toCsvString, bind, get_cell, read. simpl.
      rewrite list_lookup_insert_eq by done. simpl.
      rewrite read_prop_alloc_new. simpl.
      split; [done|]. split; by map_reads.
  - intros fuel A a B b s Ha Hva Hb Hvb Hm. split; [|split; [|split]].
    + eexists _, _. split.
      * cbn [get_value]. unfold bind at 1. rewrite (get_cell_Some _ _ _ Hb).
        cbv zeta. rewrite Hvb, Hm.
        unfold bind at 1. rewrite (get_cell_Some _ _ _ Ha).
        rewrite Hva. reflexivity.
      * rewrite !read_prop_alloc_new. simpl. split; by map_reads.
    + unfold isHyperlink, bind. rewrite (get_cell_Some _ _ _ Hb).
      by rewrite Hvb.
    + unfold hyperlink, bind. rewrite (get_cell_Some _ _ _ Hb).
      by rewrite Hvb.
    + unfold toCsvString, bind. rewrite (get_cell_Some _ _ _ Hb).
      cbv zeta. by rewrite Hvb.
Qed.

Lemma hyperlink_accessors_witness :
  exists s s',
    set_value 1 0%nat (VObj 1%nat) s = Ok tt s' /\
    isHyperlink 0%nat s' = Ok true s' /\
    hyperlink 0%nat s' = Ok (VStr "http://a") s'.
Proof.
  set (s := MkState
              [MkCell (VObj 0%nat) VUndefined "A1"
                 (MkValue Types.Null 0%nat None) VUndefined 0]
              [empty_obj;
               Obj None (<[ "hyperlink" := VStr "http://a" ]>
                           (<[ "text" := VStr "a" ]> ∅))]).
  destruct (hyperlink_accessors (fun _ => "") (fun _ => "")) as [H _].
  destruct (H 0%nat 0%nat
              (MkCell (VObj 0%nat) VUndefined "A1"
                 (MkValue Types.Null 0%nat None) VUndefined 0)
              1%nat s eq_refl)
    as (s' & Hs & Hi & Hh & _).
  - discriminate.
  - reflexivity.
  - reflexivity.
  - exists s, s'. auto.
Defined.

(** ** Rendering after an assignment *)

(** What [cell.value = x] installs, for a payload of type [T]. *)
Lemma toString_after_alloc (l : loc) (o : obj) (h : list obj) :
  o_props o !! "toString" = None ->
  o_props (default empty_obj (h !! l)) !! "toString" = None ->
  o_props (default empty_obj ((h ++ [o])%list !! l)) !! "toString" = None.
Proof.
  intros Ho Hl. destruct (decide (l < length h)%nat) as [Hlt|Hge].
  - by rewrite lookup_app_l.
  - rewrite lookup_app_r by lia.
    destruct (l - length h)%nat; [exact Ho|done].
Qed.

Lemma set_value_installs fuel c cell x T s :
  cells s !! c = Some cell ->
  vtype (_value cell) <> Types.Merge ->
  Value.getType x s = Ok T s ->
  exists o,
    set_value (S fuel) c x s =
    Ok tt (MkState
             (<[c := set__value (MkValue T (length (heap s)) None) cell]>
                (cells s))
             (heap s ++ [o])) /\
    o_props o !! "address" = Some (VStr (_address cell)) /\
    o_props o !! "toString" = None /\
    match T with
    | Types.Number => o_props o !! "value" = Some x /\ exists n, x = VNum n
    | Types.String =>
        o_props o !! "value" = Some x /\
        exists t, x = VStr t \/ x = VStrObj t
    | Types.Date => o_props o !! "value" = Some x /\ exists d, x = VDate d
    | Types.Formula => o_props o !! "result" = Some (field x "result" s)
    | _ => True
    end.
Proof.
  intros Hc Hm Ht.
  rewrite (set_value_not_Merge _ _ _ _ _ Hc Hm).
  unfold bind at 1. rewrite Ht. unfold bind at 1.
  rewrite getType_spec in Ht.
  destruct x as [| |b|n|t|t|d|l|c']; simpl in Ht; try discriminate;
    try (injection Ht as <-).
  - rewrite (create_Null _ _ _ _ Hc). erewrite upd_cell_Some by exact Hc.
    eexists. split; [reflexivity|]. simpl. by map_reads.
  - rewrite (create_Null _ _ _ _ Hc). erewrite upd_cell_Some by exact Hc.
    eexists. split; [reflexivity|]. simpl. by map_reads.
  - unfold create, NumberValue. rewrite (create_Scalar _ _ _ _ _ Hc).
    erewrite upd_cell_Some by exact Hc. eexists. split; [reflexivity|].
    simpl. do 3 (split; [by map_reads|]). eauto.
  - unfold create, StringValue. rewrite (create_Scalar _ _ _ _ _ Hc).
    erewrite upd_cell_Some by exact Hc. eexists. split; [reflexivity|].
    simpl. do 3 (split; [by map_reads|]). eauto.
  - unfold create, StringValue. rewrite (create_Scalar _ _ _ _ _ Hc).
    erewrite upd_cell_Some by exact Hc. eexists. split; [reflexivity|].
    simpl. do 3 (split; [by map_reads|]). eauto.
  - unfold create, DateValue. rewrite (create_Scalar _ _ _ _ _ Hc).
    erewrite upd_cell_Some by exact Hc. eexists. split; [reflexivity|].
    simpl. do 3 (split; [by map_reads|]). eauto.
  - unfold nonempty in Ht.
    destruct (truthy (read_prop l "text" s) && truthy (read_prop l "hyperlink" s))
      eqn:Hh; [|destruct (truthy (read_prop l "formula" s)) eqn:Hf];
      try discriminate; injection Ht as <-.
    + rewrite (create_Hyperlink _ _ _ _ Hc).
      erewrite upd_cell_Some by exact Hc.
      eexists. split; [reflexivity|]. simpl. by map_reads.
    + rewrite (create_Formula _ _ _ _ Hc).
      erewrite upd_cell_Some by exact Hc.
      eexists. split; [reflexivity|]. simpl. by map_reads.
Qed.

(** X19: [cell.value = x] returns on a cell that is not a slave, and
    [toCsvString] then leaves the store as it is.  It throws a RangeError
    when the payload is an invalid Date, and a TypeError when the result
    of a Formula payload is an object with a [toString] property of its
    own; on every other payload it returns (numbers beyond [2 ^ 53], as
    payload or as result of a formula, are left aside).  The setter of
    the variant gives no such guarantee: a String cell handed a number
    through it can no longer be rendered, the call throws a TypeError. *)
Theorem csv_after_assignment (toISOString dateToString : Z -> string) :
  (forall fuel c cell x T s,
     cells s !! c = Some cell ->
     vtype (_value cell) <> Types.Merge ->
     Value.getType x s = Ok T s ->
     exists s1,
       set_value (S fuel) c x s = Ok tt s1 /\
       (x = VDate None ->
        toCsvString toISOString dateToString c s1 = Throw RangeError s1) /\
       (x <> VDate None ->
        (forall n, x = VNum n \/ field x "result" s = VNum n ->
                   Z.abs n <= 2 ^ 53) ->
        (forall l, field x "result" s = VObj l ->
                   o_props (get_obj l s) !! "toString" = None) ->
        exists r, toCsvString toISOString dateToString c s1 = Ok r s1) /\
       (T = Types.Formula ->
        (exists l, field x "result" s = VObj l /\
                   is_Some (o_props (get_obj l s) !! "toString") /\
                   (l < length (heap s))%nat) ->
        toCsvString toISOString dateToString c s1 = Throw TypeError s1)) /\
  (forall fuel c cell n s,
     cells s !! c = Some cell ->
     vtype (_value cell) = Types.String ->
     (model (_value cell) < length (heap s))%nat ->
     exists s1,
       Value_set_value fuel c (VNum n) s = Ok tt s1 /\
       type c s1 = Ok Types.String s1 /\
       toCsvString toISOString dateToString c s1 = Throw TypeError s1).
Proof.
  split.
  - intros fuel c cell x T s Hc Hm Ht.
    assert (Hlen : (c < length (cells s))%nat) by by eapply lookup_lt_Some.
    destruct (set_value_installs fuel c cell x T s Hc Hm Ht)
      as (o & Hs & _ & Hts & Ho).
    eexists. split; [exact Hs|].
    assert (Hplus : forall v s0,
              (forall n, v = VNum n -> Z.abs n <= 2 ^ 53) ->
              (forall l, v = VObj l ->
                         o_props (get_obj l s0) !! "toString" = None) ->
              exists r, plus_empty dateToString v s0 = Ok r s0).
    { intros v s0 Hv Hob. destruct v as [| |b|n|t|t|d|l|c']; try by eexists.
      - unfold plus_empty. rewrite (proj2 (Z.leb_le _ _) (Hv n eq_refl)).
        by eexists.
      - unfold plus_empty, bind, object_to_string.
        rewrite (Hob l eq_refl). by eexists. }
    unfold toCsvString, bind, get_cell, read. simpl.
    rewrite list_lookup_insert_eq by done. simpl.
    destruct T; rewrite ?read_prop_alloc_new.
    + split; [by intros ->|]. split; [by eexists|done].
    + destruct Ho as [-> (n & ->)]. split; [done|]. split; [|done].
      intros _ Hn _. simpl.
      apply Hplus; [|done]. intros n' [= <-]. apply Hn. by left.
    + destruct Ho as [-> (t & [-> | ->])]; (split; [done|]);
        (split; [by eexists|done]).
    + destruct Ho as [-> (d & ->)]. destruct d as [t|]; simpl.
      * split; [done|]. split; [by eexists|done].
      * split; [done|]. split; [by intros H|done].
    + split; [intros ->; rewrite getType_spec in Ht; simpl in Ht; congruence|].
      split; [by eexists|done].
    + split; [intros ->; rewrite getType_spec in Ht; simpl in Ht; congruence|].
      split.
      * intros _ Hn Hob. rewrite Ho. simpl. apply Hplus.
        -- intros n. destruct (truthy (field x "result" s)); [|done].
           intros E. apply Hn. by right.
        -- intros l. destruct (truthy (field x "result" s)); [|done].
           intros E. unfold get_obj. simpl.
           apply toString_after_alloc; [exact Hts|exact (Hob l E)].
      * intros _ (l & El & [w Hw] & Hl). rewrite Ho. simpl. rewrite El. simpl.
        unfold plus_empty, bind, object_to_string, get_obj. simpl.
        rewrite lookup_app_l by done. unfold get_obj in Hw. by rewrite Hw.
    + split; [by intros ->|]. split; [by eexists|done].
  - intros fuel c cell n s Hc Hv Hl.
    eexists. split; [|split].
    + unfold Value_set_value, bind. rewrite (get_cell_Some _ _ _ Hc).
      cbv zeta. rewrite Hv. reflexivity.
    + unfold type, bind, get_cell. simpl. by rewrite Hc, Hv.
    + unfold toCsvString, bind, get_cell, read. simpl. rewrite Hc, Hv.
      unfold read_prop, get_obj. simpl.
      rewrite list_lookup_insert_eq by done. simpl.
      by rewrite lookup_insert_eq.
Qed.

Lemma csv_after_assignment_witness :
  exists s1 s2,
    set_value 1 0%nat (VStr "a") one_cell = Ok tt s1 /\
    Value_set_value 0 0%nat (VNum 5) s1 = Ok tt s2 /\
    toCsvString (fun _ => "") (fun _ => "") 0%nat s2 = Throw TypeError s2.
Proof.
  destruct (csv_after_assignment (fun _ => "") (fun _ => "")) as [H1 H2].
  destruct (H1 0%nat 0%nat
              (MkCell (VObj 0%nat) VUndefined "A1"
                      (MkValue Types.Null 1%nat None) (VObj 2%nat) 0)
              (VStr "a") Types.String one_cell eq_refl)
    as (s1 & Hs & _); [discriminate|reflexivity|].
  assert (Hx : cells s1 !! 0%nat =
               Some (MkCell (VObj 0%nat) VUndefined "A1"
                       (MkValue Types.String 3%nat None) (VObj 2%nat) 0)).
  { vm_compute in Hs. by injection Hs as <-. }
  assert (Hl : (3 < length (heap s1))%nat).
  { vm_compute in Hs. injection Hs as <-. simpl. lia. }
  destruct (H2 0%nat 0%nat _ 5 s1 Hx eq_refl Hl) as (s2 & Hv & _ & Hc).
  exists s1, s2. auto.
Defined.

(** ** The address of a variant *)

(** X20: the [address] of a variant is a property of its snapshot, not of
    the cell.  Writing it changes what the variant and the export
    answer, while the cell keeps the address it was made with; the next
    assignment of a value makes a new snapshot, which carries the
    address of the cell again. *)
Theorem variant_address_is_of_the_snapshot fuel c x v s :
  cells s !! c = Some x ->
  (model (_value x) < length (heap s))%nat ->
  exists s1,
    Value_set_address c v s = Ok tt s1 /\
    cells s1 = cells s /\
    Value_address c s1 = Ok v s1 /\
    address_of c s1 = Ok (_address x) s1 /\
    (exists s2, get_model c s1 = Ok (model (_value x)) s2 /\
                read_prop (model (_value x)) "address" s2 = v) /\
    (forall p T,
       vtype (_value x) <> Types.Merge ->
       Value.getType p s1 = Ok T s1 ->
       exists s2,
         set_value (S fuel) c p s1 = Ok tt s2 /\
         Value_address c s2 = Ok (VStr (_address x)) s2).
Proof.
  intros Hc Hl.
  set (m := model (_value x)) in *.
  set (s1 := MkState (cells s)
               (<[m := Obj (o_type (get_obj m s))
                           (<[ "address" := v ]> (o_props (get_obj m s)))]>
                  (heap s))).
  assert (Hw : write_prop m "address" v s = Ok tt s1) by reflexivity.
  assert (Hc1 : cells s1 !! c = Some x) by exact Hc.
  assert (Hr : read_prop m "address" s1 = v)
    by exact (read_prop_write_eq _ _ _ _ Hl _ Hw).
  exists s1. split; [|split; [reflexivity|split; [|split; [|split]]]].
  - unfold Value_set_address, bind. rewrite (get_cell_Some _ _ _ Hc).
    exact Hw.
  - unfold Value_address, bind, read. rewrite (get_cell_Some _ _ _ Hc1).
    fold m. by rewrite Hr.
  - by apply address_of_Some.
  - eexists. split; [by rewrite (get_model_Some _ _ _ Hc1)|].
    fold m. unfold read_prop at 1, get_obj at 1. cbn [heap].
    rewrite list_lookup_insert_eq by (unfold s1; cbn [heap]; by rewrite length_insert).
    unfold default. cbn [from_option id o_props].
    rewrite lookup_insert_ne by done.
    exact Hr.
  - intros p T Hv Ht.
    assert (Hlen : (c < length (cells s1))%nat) by by eapply lookup_lt_Some.
    destruct (set_value_installs fuel c x p T s1 Hc1 Hv Ht) as (o & Hs & Ha & _).
    eexists. split; [exact Hs|].
    unfold Value_address, bind, get_cell, read. cbn [cells].
    rewrite list_lookup_insert_eq by done. cbn [_value set__value model].
    rewrite read_prop_alloc_new. by rewrite Ha.
Qed.

Lemma variant_address_is_of_the_snapshot_witness :
  exists s1,
    Value_set_address 0%nat (VStr "Z9") one_cell = Ok tt s1 /\
    Value_address 0%nat s1 = Ok (VStr "Z9") s1 /\
    address_of 0%nat s1 = Ok "A1" s1.
Proof.
  destruct (variant_address_is_of_the_snapshot 0%nat 0%nat
              (MkCell (VObj 0%nat) VUndefined "A1"
                      (MkValue Types.Null 1%nat None) (VObj 2%nat) 0)
              (VStr "Z9") one_cell eq_refl)
    as (s1 & H1 & _ & H2 & H3 & _).
  - vm_compute. lia.
  - exists s1. auto.
Defined.

(** ** What [isMerged] tells *)

Lemma count_slaves_pos a : forall cs,
  0 < count_slaves a cs <->
  exists B y, cs !! B = Some y /\ mref y = Some a.
Proof.
  induction cs as [|x cs IH]; simpl.
  - split; [lia|]. by intros (B & y & H & _).
  - pose proof (count_slaves_nonneg a cs) as Hn.
    unfold ind. case_decide as E.
    + split; [|lia]. intros _. by exists 0%nat, x.
    + rewrite Z.add_0_l, IH. split.
      * intros (B & y & H & Hy). by exists (S B), y.
      * intros ([|B] & y & H & Hy); simpl in H.
        -- injection H as ->. done.
        -- by exists B, y.
Qed.

(** X21: on a cell whose count equals the number of cells that hold a
    Merge value with it as master, [isMerged] tells exactly whether the
    cell takes part in a merge: it is true when the cell is a slave or
    when some cell is a slave of it, and false otherwise.  The count is
    kept by hand, not derived: one direct call of [addMergeRef] on a cell
    that is in no merge makes [isMerged] true of it, with no slave
    anywhere. *)
Theorem isMerged_when_counts_agree c x s :
  cells s !! c = Some x ->
  (_mergeCount x = count_slaves c (cells s) ->
   exists b,
     isMerged c s = Ok b s /\
     (b = true <->
      vtype (_value x) = Types.Merge \/
      exists B y, cells s !! B = Some y /\
                  vtype (_value y) = Types.Merge /\
                  _master (_value y) = Some c)) /\
  (vtype (_value x) <> Types.Merge -> 0 <= _mergeCount x ->
   exists s',
     addMergeRef c s = Ok tt s' /\
     isMerged c s' = Ok true s' /\
     forall a, count_slaves a (cells s') = count_slaves a (cells s)).
Proof.
  intros Hc. split.
  - intros He. eexists. split.
    + unfold isMerged, bind. by rewrite (get_cell_Some _ _ _ Hc).
    + rewrite orb_true_iff, Z.ltb_lt, Types.eqb_eq, He.
      rewrite count_slaves_pos. split.
      * intros [(B & y & Hy & Hm)|Hv]; [right|by left].
        exists B, y. split; [done|]. unfold mref, vref in Hm.
        by destruct (vtype (_value y)).
      * intros [Hv|(B & y & Hy & Hv & Hm)]; [by right|left].
        exists B, y. split; [done|]. unfold mref, vref. by rewrite Hv.
  - intros Hv Hn.
    assert (Hlen : (c < length (cells s))%nat) by by eapply lookup_lt_Some.
    eexists. split; [|split].
    + unfold addMergeRef. by rewrite (upd_cell_Some _ _ _ _ Hc).
    + unfold isMerged, bind, get_cell. simpl.
      rewrite list_lookup_insert_eq by done. simpl.
      by rewrite (proj2 (Z.ltb_lt 0 (_mergeCount x + 1))) by lia.
    + intros a. simpl. rewrite (count_slaves_insert a _ _ _ _ Hc).
      unfold mref. simpl. lia.
Qed.

Lemma isMerged_when_counts_agree_witness :
  exists b, isMerged 0%nat merged_pair = Ok b merged_pair /\ b = true.
Proof.
  destruct (isMerged_when_counts_agree 0%nat
              (MkCell (VObj 0%nat) VUndefined "A1"
                      (MkValue Types.Null 1%nat None) (VObj 2%nat) 1)
              merged_pair eq_refl) as [H _].
  destruct H as (b & Hb & Hiff); [vm_compute; reflexivity|].
  exists b. split; [exact Hb|]. apply Hiff. right.
  exists 1%nat,
    (MkCell (VObj 0%nat) VUndefined "B2"
            (MkValue Types.Merge 5%nat (Some 0%nat)) (VObj 4%nat) 0).
  split; [vm_compute; reflexivity|]. by split.
Defined.

(** ** The value of a Hyperlink or Formula cell is a copy *)

(** X22: reading [cell.value] of a Hyperlink or Formula cell makes a new
    record each time.  Writing to the record that was handed out changes
    neither the snapshot of the cell nor what the next read gives, which
    is another new record with the two fields of the snapshot. *)
Theorem value_record_is_a_copy fuel c x s :
  cells s !! c = Some x ->
  (model (_value x) < length (heap s))%nat ->
  vtype (_value x) = Types.Hyperlink \/ vtype (_value x) = Types.Formula ->
  let m := model (_value x) in
  let k1 := if Types.eqb (vtype (_value x)) Types.Hyperlink
            then "text" else "formula" in
  let k2 := if Types.eqb (vtype (_value x)) Types.Hyperlink
            then "hyperlink" else "result" in
  exists l s1,
    get_value (S fuel) c s = Ok (VObj l) s1 /\
    heap s !! l = None /\
    read_prop l k1 s1 = read_prop m k1 s /\
    read_prop l k2 s1 = read_prop m k2 s /\
    forall k v, exists s2,
      write_prop l k v s1 = Ok tt s2 /\
      (forall k', read_prop m k' s2 = read_prop m k' s) /\
      exists l' s3,
        get_value (S fuel) c s2 = Ok (VObj l') s3 /\
        l' <> l /\
        read_prop l' k1 s3 = read_prop m k1 s /\
        read_prop l' k2 s3 = read_prop m k2 s.
Proof.
  intros Hc Hl Hv m k1 k2.
  assert (Hk : k1 <> k2) by (unfold k1, k2; by destruct Hv as [-> | ->]).
  set (o := Obj None (<[ k2 := read_prop m k2 s ]> {[ k1 := read_prop m k1 s ]})).
  set (s1 := MkState (cells s) (heap s ++ [o])).
  assert (Hg : forall s0 : state,
            cells s0 = cells s ->
            (forall k', read_prop m k' s0 = read_prop m k' s) ->
            get_value (S fuel) c s0 =
            Ok (VObj (length (heap s0)))
               (MkState (cells s) (heap s0 ++ [o]))).
  { intros s0 Hcs Hrd. cbn [get_value]. unfold bind at 1, get_cell.
    rewrite Hcs, Hc. cbv zeta. fold m. unfold o, k1, k2.
    destruct Hv as [-> | ->]; cbn [Types.eqb];
      unfold bind, read, alloc, ret; by rewrite !Hrd, Hcs. }
  assert (Hnew : forall cs h k, read_prop (length h) k (MkState cs (h ++ [o]))
                                = default VUndefined (o_props o !! k))
    by (intros; apply read_prop_alloc_new).
  assert (H1 : default VUndefined (o_props o !! k1) = read_prop m k1 s)
    by (unfold o; simpl; by map_reads).
  assert (H2 : default VUndefined (o_props o !! k2) = read_prop m k2 s)
    by (unfold o; simpl; by map_reads).
  exists (length (heap s)), s1. split; [by apply Hg|].
  split; [apply lookup_ge_None; lia|].
  split; [unfold s1; by rewrite Hnew|]. split; [unfold s1; by rewrite Hnew|].
  intros k v. eexists. split; [reflexivity|].
  match goal with |- (forall k', read_prop m k' ?t = _) /\ _ =>
    set (s2 := t) end.
  assert (Hrd : forall k', read_prop m k' s2 = read_prop m k' s).
  { intros k'. unfold s2, read_prop, get_obj. cbn [heap s1].
    rewrite list_lookup_insert_ne by lia. by rewrite lookup_app_l. }
  split; [exact Hrd|].
  eexists _, _. split; [by apply Hg|].
  split; [unfold s2; cbn [heap s1]; rewrite length_insert, length_app_one; lia|].
  by rewrite !Hnew.
Qed.

Lemma value_record_is_a_copy_witness :
  exists s l s1,
    get_value 1 0%nat s = Ok (VObj l) s1 /\
    heap s !! l = None /\
    read_prop l "formula" s1 = VStr "A1+1".
Proof.
  set (s := MkState
              [MkCell (VObj 0%nat) VUndefined "B1"
                 (MkValue Types.Formula 1%nat None) VUndefined 0]
              [empty_obj;
               Obj (Some Types.Formula)
                   (<[ "formula" := VStr "A1+1" ]>
                      (<[ "address" := VStr "B1" ]> ∅))]).
  destruct (value_record_is_a_copy 0%nat 0%nat
              (MkCell (VObj 0%nat) VUndefined "B1"
                 (MkValue Types.Formula 1%nat None) VUndefined 0)
              s eq_refl)
    as (l & s1 & Hg & Hf & Hr & _).
  - simpl. lia.
  - by right.
  - exists s, l, s1. split; [exact Hg|]. split; [exact Hf|]. exact Hr.
Defined.
